(** * HCB script tools of fvp_tools.py: decoder and rebuilder

    A shallow embedding of the HCB part of [fvp_tools.py]:
    the opcode table, the two-pass decoder [hcb_decode], the rebuilder
    [hcb_rebuild] and the escaping of the string-table file; then of
    the string extractor, of the reading of the strings file, of the
    archive tool ([bin_pack], [bin_extract], [detect_extension]), of the
    NVSG converter, and of the scripts that split the strings file.

    Integers are [Z], a file is a [list byte], a Python [str] is the
    list of its code points, a [dict] is a [gmap].  Every [while] loop of
    the source is a [while] over a step function; an exception raised by
    the source is a [Raise] outcome.  What the Python library does
    (codecs, [int], [str.isdigit], PIL, zlib) is a parameter, a class
    with an instance for the examples. *)

From Stdlib Require Import ZArith Lia.
From Stdlib Require Import Strings.Byte.
From stdpp Require Import gmap list strings pretty.

Local Open Scope Z_scope.

(** ** Python values *)

(** A [str]: the sequence of its Unicode code points. *)
Abbreviation text := (list Z).

(** An ASCII literal of the source as a [text]. *)
Definition lit (s : string) : text :=
  (λ a, Z.of_N (Ascii.N_of_ascii a)) <$> String.list_ascii_of_string s.

Definition BACKSLASH : Z := 92.
Definition QUOTE : Z := 34.
Definition LF : Z := 10.
Definition CR : Z := 13.
Definition NUL : Z := 0.
Definition CHAR_n : Z := 110.
Definition CHAR_r : Z := 114.

#[global] Instance byte_eq_dec : EqDecision byte := Byte.byte_eq_dec.

(** The value of a byte, [0 .. 255]. *)
Definition byte_val (b : byte) : Z := Z.of_N (Byte.to_N b).

(** The byte of an integer; [None] outside [range(256)]. *)
Definition byte_of_Z (z : Z) : option byte :=
  if (0 <=? z) && (z <? 256) then Byte.of_N (Z.to_N z) else None.

(** [data[pos]] for a position that is never negative. *)
Definition data_at (data : list byte) (pos : Z) : option byte :=
  data !! Z.to_nat pos.

(** [data[a:b]] for [0 <= a <= b]: the slice is cut at the end of [data]. *)
Definition slice (data : list byte) (a b : Z) : list byte :=
  take (Z.to_nat (b - a)) (drop (Z.to_nat a) data).

(** [s[:k]], where a negative [k] counts from the end. *)
Definition slice_to {A} (s : list A) (k : Z) : list A :=
  if k <? 0 then take (length s - Z.to_nat (- k)) s else take (Z.to_nat k) s.

Definition len {A} (s : list A) : Z := Z.of_nat (length s).

(** [struct.unpack_from('<I', data, pos)]: [None] when fewer than four
    bytes are left ([struct.error]). *)
Definition unpack_u32 (data : list byte) (pos : Z) : option Z :=
  match slice data pos (pos + 4) with
  | [b0; b1; b2; b3] =>
      Some (byte_val b0 + 256 * byte_val b1
            + 65536 * byte_val b2 + 16777216 * byte_val b3)
  | _ => None
  end.

(** [struct.pack('<I', v)]: [None] when [v] is no unsigned 32-bit value. *)
Definition pack_u32 (v : Z) : option (list byte) :=
  if (0 <=? v) && (v <? 4294967296) then
    b0 ← byte_of_Z (v mod 256);
    b1 ← byte_of_Z (v / 256 mod 256);
    b2 ← byte_of_Z (v / 65536 mod 256);
    b3 ← byte_of_Z (v / 16777216 mod 256);
    Some [b0; b1; b2; b3]
  else None.

(** Two's complement reading of a [bits]-wide unsigned value. *)
Definition to_signed (bits : Z) (v : Z) : Z :=
  if v <? 2 ^ (bits - 1) then v else v - 2 ^ bits.

(** [struct.unpack_from('<b' | '<h' | '<i', data, pos)]. *)
Definition unpack_i8 (data : list byte) (pos : Z) : option Z :=
  b ← data_at data pos; Some (to_signed 8 (byte_val b)).

Definition unpack_i16 (data : list byte) (pos : Z) : option Z :=
  match slice data pos (pos + 2) with
  | [b0; b1] => Some (to_signed 16 (byte_val b0 + 256 * byte_val b1))
  | _ => None
  end.

Definition unpack_i32 (data : list byte) (pos : Z) : option Z :=
  to_signed 32 <$> unpack_u32 data pos.

(** [str.replace(old, new)] for a non-empty [old]: the occurrences are
    found from left to right and do not overlap.  [skip] counts the
    characters of a match that are still to be passed over. *)
Fixpoint is_prefix (p s : text) : bool :=
  match p, s with
  | [], _ => true
  | a :: p', b :: s' => (a =? b) && is_prefix p' s'
  | _ :: _, [] => false
  end.

Fixpoint replace_from (skip : nat) (old new s : text) : text :=
  match s with
  | [] => []
  | c :: rest =>
      match skip with
      | S k => replace_from k old new rest
      | O =>
          if is_prefix old s
          then new ++ replace_from (length old - 1) old new rest
          else c :: replace_from 0 old new rest
      end
  end.

Definition str_replace (old new s : text) : text := replace_from 0 old new s.

(** [s.rstrip('\x00')]. *)
Fixpoint lstrip_nul (s : text) : text :=
  match s with
  | c :: rest => if c =? NUL then lstrip_nul rest else s
  | [] => []
  end.

Definition rstrip_nul (s : text) : text := reverse (lstrip_nul (reverse s)).

(** ['\n'.join(lines)]. *)
Fixpoint join_lines (lines : list text) : text :=
  match lines with
  | [] => []
  | [l] => l
  | l :: rest => l ++ LF :: join_lines rest
  end.

(** *** Format specifications *)

Definition hex_digit (upper : bool) (d : Z) : Z :=
  if d <? 10 then 48 + d else (if upper then 55 else 87) + d.

Fixpoint hex_digits (upper : bool) (n : nat) (v : Z) : text :=
  match n with
  | O => []
  | S k => hex_digits upper k (v / 16) ++ [hex_digit upper (v mod 16)]
  end.

(** [f"{v:08X}"] and [f"{v:08x}"] for an unsigned 32-bit [v]. *)
Definition hex8 (upper : bool) (v : Z) : text := hex_digits upper 8 v.

(** [f"{v}"] for an integer. *)
Definition dec (v : Z) : text := lit (pretty v).

(** [f"{v:04d}"] for [v >= 0]. *)
Definition dec4 (v : Z) : text :=
  let d := dec v in replicate (4 - length d) 48 ++ d.

(** ** The string-table escaping (hcb_decode, line 311; hcb_rebuild,
    line 353) *)

(** [text.replace('\\', '\\\\').replace('\n', '\\n').replace('\r', '\\r')] *)
Definition escapeForTable (t : text) : text :=
  str_replace [CR] [BACKSLASH; CHAR_r]
    (str_replace [LF] [BACKSLASH; CHAR_n]
       (str_replace [BACKSLASH] [BACKSLASH; BACKSLASH] t)).

(** [text.replace('\\n', '\n').replace('\\r', '\r').replace('\\\\', '\\')] *)
Definition unescapeFromTable (t : text) : text :=
  str_replace [BACKSLASH; BACKSLASH] [BACKSLASH]
    (str_replace [BACKSLASH; CHAR_r] [CR]
       (str_replace [BACKSLASH; CHAR_n] [LF] t)).

(** The escaping of a string operand in the listing (line 288). *)
Definition escapeForScript (t : text) : text :=
  str_replace [CR] [BACKSLASH; CHAR_r]
    (str_replace [LF] [BACKSLASH; CHAR_n]
       (str_replace [QUOTE] [BACKSLASH; QUOTE]
          (str_replace [BACKSLASH] [BACKSLASH; BACKSLASH] t))).


(** ** Opcodes and VM definitions *)

(** Opcode argument types. *)
Inductive oparg :=
  | OPARG_NULL     (* No arguments *)
  | OPARG_X32      (* 32-bit offset/address *)
  | OPARG_I32      (* 32-bit signed integer *)
  | OPARG_I16      (* 16-bit signed integer *)
  | OPARG_I8       (* 8-bit signed integer *)
  | OPARG_I8I8     (* Two 8-bit integers *)
  | OPARG_STRING.  (* Length-prefixed string *)

(** HCB opcode definitions: (opcode, name, arg_type). *)
Definition HCB_OPCODES : list (Z * string * oparg) :=
  [ (0x00, "nop", OPARG_NULL);
    (0x01, "initstack", OPARG_I8I8);
    (0x02, "call", OPARG_X32);
    (0x03, "syscall", OPARG_I16);
    (0x04, "ret", OPARG_NULL);
    (0x05, "ret2", OPARG_NULL);
    (0x06, "jmp", OPARG_X32);
    (0x07, "jmpcond", OPARG_X32);
    (0x08, "pushtrue", OPARG_NULL);
    (0x09, "pushfalse", OPARG_NULL);
    (0x0A, "pushint", OPARG_I32);
    (0x0B, "pushint", OPARG_I16);
    (0x0C, "pushint", OPARG_I8);
    (0x0D, "pushfloat", OPARG_X32);
    (0x0E, "pushstring", OPARG_STRING);
    (0x0F, "pushglobal", OPARG_I16);
    (0x10, "pushstack", OPARG_I8);
    (0x11, "unk_11", OPARG_I16);
    (0x12, "unk_12", OPARG_I8);
    (0x13, "pushtop", OPARG_NULL);
    (0x14, "pushtemp", OPARG_NULL);
    (0x15, "popglobal", OPARG_I16);
    (0x16, "copystack", OPARG_I8);
    (0x17, "unk_17", OPARG_I16);
    (0x18, "unk_18", OPARG_I8);
    (0x19, "neg", OPARG_NULL);
    (0x1A, "add", OPARG_NULL);
    (0x1B, "sub", OPARG_NULL);
    (0x1C, "mul", OPARG_NULL);
    (0x1D, "div", OPARG_NULL);
    (0x1E, "mod", OPARG_NULL);
    (0x1F, "test", OPARG_NULL);
    (0x20, "logand", OPARG_NULL);
    (0x21, "logor", OPARG_NULL);
    (0x22, "eq", OPARG_NULL);
    (0x23, "neq", OPARG_NULL);
    (0x24, "gt", OPARG_NULL);
    (0x25, "le", OPARG_NULL);
    (0x26, "lt", OPARG_NULL);
    (0x27, "ge", OPARG_NULL) ].

Definition HCB_LAST_OPCODE : Z := 0x27.

(** Returns (name, arg_type) for an opcode; [None] stands for the pair
    [(None, None)] returned above [HCB_LAST_OPCODE]. *)
Definition get_opcode_info (opcode : Z) : option (string * oparg) :=
  if HCB_LAST_OPCODE <? opcode then None
  else (λ d, (d.1.2, d.2)) <$> HCB_OPCODES !! Z.to_nat opcode.

(** Returns the list of (opcode, arg_type) matching the name. *)
Definition get_opcode_by_name (name : string) : list (Z * oparg) :=
  (λ d, (d.1.1, d.2)) <$> filter (λ d, d.1.2 = name) HCB_OPCODES.

(** ** Exceptions and loops *)

Inductive exn := IndexError | ValueError | StructError.

(** The result of a run: a value, an exception, or a loop cut by its
    fuel (shown below never to happen). *)
Inductive outcome (A : Type) :=
  | Done (a : A)
  | Raise (e : exn)
  | OutOfFuel.
Arguments Done {A} a.
Arguments Raise {A} e.
Arguments OutOfFuel {A}.

(** One turn of a [while] loop: go on, leave the loop ([break] or a
    false condition), or raise. *)
Inductive step_result (S : Type) :=
  | Continue (s : S)
  | Break (s : S)
  | Throw (e : exn).
Arguments Continue {S} s.
Arguments Break {S} s.
Arguments Throw {S} e.

Fixpoint while {S : Type} (fuel : nat) (step : S → step_result S) (s : S)
  : outcome S :=
  match fuel with
  | O => OutOfFuel
  | Datatypes.S fuel' =>
      match step s with
      | Continue s' => while fuel' step s'
      | Break s' => Done s'
      | Throw e => Raise e
      end
  end.

(** ** The codec and the float formatting of the Python runtime

    They are library code, not code of the repository: the development is
    parametric in them. *)
Class Runtime := {
  (** [t.encode('cp932', errors='strict')]: the bytes, or the
      [(start, end)] of the [UnicodeEncodeError]. *)
  cp932_encode : text → list byte + (nat * nat);
  (** [b.decode('cp932', errors='replace')], which never raises. *)
  cp932_decode : list byte → text;
  (** [str] of the binary32 float with the given bit pattern. *)
  float_repr : Z → text;
}.


(** ** HCB decoder: decompiles HCB bytecode to readable text *)

(** [name in ("jmp", "jmpcond", "call")] *)
Definition is_jump_or_call (name : string) : bool :=
  bool_decide (name ∈ ["jmp"; "jmpcond"; "call"]%string).

Definition label_name (target : Z) : text := lit "label_" ++ hex8 false target.

(** *** First pass: function starts (initstack) and jump targets *)

Record pass1_state := Pass1 {
  p1_pos : Z;
  p1_func_num : Z;
  p1_functions : gmap Z Z;       (* addr -> func_number *)
  p1_labels : gmap Z text;       (* addr -> label_name *)
}.

(** Lines 157-161: the jump target of an [OPARG_X32] instruction whose
    argument starts at [pos]. *)
Definition collect_target (data : list byte) (code_end : Z) (name : string)
    (pos : Z) (functions : gmap Z Z) (labels : gmap Z text)
  : option (gmap Z text) :=
  if pos + 4 <=? len data then
    if is_jump_or_call name then
      target ← unpack_u32 data pos;
      if (target <? code_end)
         && bool_decide (labels !! target = None)
         && bool_decide (functions !! target = None)
      then Some (<[target := label_name target]> labels)
      else Some labels
    else Some labels
  else Some labels.

(** One turn of the loop of lines 137-177. *)
Definition pass1_step (data : list byte) (code_end : Z) (st : pass1_state)
  : step_result pass1_state :=
  let pos := p1_pos st in
  if negb (pos <? code_end) then Break st
  else if len data <=? pos then Break st
  else
    match data_at data pos with
    | None => Throw IndexError
    | Some b =>
        let opcode := byte_val b in
        if HCB_LAST_OPCODE <? opcode then
          Continue (Pass1 (pos + 1) (p1_func_num st)
                      (p1_functions st) (p1_labels st))
        else
          match get_opcode_info opcode with
          | None => Throw IndexError
          | Some (name, arg_type) =>
              (* Mark function starts *)
              let '(functions, func_num) :=
                if bool_decide (name = "initstack"%string)
                then (<[pos := p1_func_num st]> (p1_functions st),
                      p1_func_num st + 1)
                else (p1_functions st, p1_func_num st) in
              let labels := p1_labels st in
              (* Calculate instruction size and collect jump targets *)
              let pos := pos + 1 in
              match arg_type with
              | OPARG_NULL => Continue (Pass1 pos func_num functions labels)
              | OPARG_X32 =>
                  match collect_target data code_end name pos
                          functions labels with
                  | None => Throw StructError
                  | Some labels' =>
                      Continue (Pass1 (pos + 4) func_num functions labels')
                  end
              | OPARG_I32 =>
                  Continue (Pass1 (pos + 4) func_num functions labels)
              | OPARG_I16 =>
                  Continue (Pass1 (pos + 2) func_num functions labels)
              | OPARG_I8 =>
                  Continue (Pass1 (pos + 1) func_num functions labels)
              | OPARG_I8I8 =>
                  Continue (Pass1 (pos + 2) func_num functions labels)
              | OPARG_STRING =>
                  (* String format: 1 byte length + string data *)
                  if pos <? len data then
                    match data_at data pos with
                    | None => Throw IndexError
                    | Some l =>
                        Continue (Pass1 (pos + (1 + byte_val l)) func_num
                                    functions labels)
                    end
                  else Continue (Pass1 (pos + 1) func_num functions labels)
              end
          end
    end.

Definition pass1_init : pass1_state := Pass1 4 0 ∅ ∅.

Definition pass1 (data : list byte) (code_end : Z) : outcome pass1_state :=
  while (length data) (pass1_step data code_end) pass1_init.

(** *** Second pass: decode to text *)

Record pass2_state := Pass2 {
  p2_pos : Z;
  p2_lines : list text;
  p2_strings : list (Z * Z * text);   (* (string_id, inst_addr, string) *)
  p2_string_id : Z;
  p2_current_func : Z;
}.

(** Lines 194-202: the function header and the label declared at [pos]. *)
Definition emit_markers (functions : gmap Z Z) (labels : gmap Z text)
    (pos : Z) (lines : list text) (current_func : Z) : list text * Z :=
  let '(lines, current_func) :=
    match functions !! pos with
    | Some n =>
        ((if 0 <=? current_func then lines ++ [[]] else lines)
           ++ [lit "# ===== FUNCTION " ++ dec n ++ lit " ====="], n)
    | None => (lines, current_func)
    end in
  match labels !! pos with
  | Some l => (lines ++ [l ++ lit ":"], current_func)
  | None => (lines, current_func)
  end.

Definition hex_operand (name : string) (val : Z) : text :=
  lit "  " ++ lit name ++ lit " 0x" ++ hex8 true val.

Definition function_operand (name : string) (n : Z) : text :=
  lit "  " ++ lit name ++ lit " FUNCTION_" ++ dec n.

Section Decoder.
Context `{Runtime}.

(** Lines 223-242: the line of an [OPARG_X32] instruction. *)
Definition x32_line (functions : gmap Z Z) (labels : gmap Z text)
    (name : string) (val : Z) : text :=
  if bool_decide (name ∈ ["jmp"; "jmpcond"]%string) then
    match labels !! val with
    | Some target_label => lit "  " ++ lit name ++ lit " " ++ target_label
    | None =>
        match functions !! val with
        | Some n => function_operand name n
        | None => hex_operand name val
        end
    end
  else if bool_decide (name = "call"%string) then
    match functions !! val with
    | Some func_id => function_operand name func_id
    | None => hex_operand name val
    end
  else if bool_decide (name = "pushfloat"%string) then
    lit "  " ++ lit name ++ lit " " ++ float_repr val
  else hex_operand name val.

Definition int_line (name : string) (val : Z) : text :=
  lit "  " ++ lit name ++ lit " " ++ dec val.

Definition string_line (name : string) (string : text) (string_id : Z)
  : text :=
  lit "  " ++ lit name ++ [32; QUOTE] ++ escapeForScript string
    ++ [QUOTE] ++ lit "  ; [STR_" ++ dec4 string_id ++ lit "]".

(** One turn of the loop of lines 189-291. *)
Definition pass2_step (data : list byte) (code_end : Z)
    (functions : gmap Z Z) (labels : gmap Z text) (st : pass2_state)
  : step_result pass2_state :=
  let pos := p2_pos st in
  if negb (pos <? code_end) then Break st
  else if len data <=? pos then Break st
  else
    let '(lines, current_func) :=
      emit_markers functions labels pos (p2_lines st)
        (p2_current_func st) in
    let strings := p2_strings st in
    let string_id := p2_string_id st in
    let inst_addr := pos in
    match data_at data pos with
    | None => Throw IndexError
    | Some b =>
        let opcode := byte_val b in
        if HCB_LAST_OPCODE <? opcode then
          Continue (Pass2 (pos + 1) lines strings string_id current_func)
        else
          match get_opcode_info opcode with
          | None => Throw IndexError
          | Some (name, arg_type) =>
              let pos := pos + 1 in
              let stop := Break (Pass2 pos lines strings string_id
                                   current_func) in
              let emit pos line :=
                Continue (Pass2 pos (lines ++ [line]) strings string_id
                            current_func) in
              (* Decode arguments *)
              match arg_type with
              | OPARG_NULL => emit pos (lit "  " ++ lit name)
              | OPARG_X32 =>
                  if len data <? pos + 4 then stop
                  else
                    match unpack_u32 data pos with
                    | None => Throw StructError
                    | Some val =>
                        emit (pos + 4) (x32_line functions labels name val)
                    end
              | OPARG_I32 =>
                  if len data <? pos + 4 then stop
                  else
                    match unpack_i32 data pos with
                    | None => Throw StructError
                    | Some val => emit (pos + 4) (int_line name val)
                    end
              | OPARG_I16 =>
                  if len data <? pos + 2 then stop
                  else
                    match unpack_i16 data pos with
                    | None => Throw StructError
                    | Some val => emit (pos + 2) (int_line name val)
                    end
              | OPARG_I8 =>
                  if len data <=? pos then stop
                  else
                    match unpack_i8 data pos with
                    | None => Throw StructError
                    | Some val => emit (pos + 1) (int_line name val)
                    end
              | OPARG_I8I8 =>
                  if len data <? pos + 2 then stop
                  else
                    match unpack_i8 data pos, unpack_i8 data (pos + 1) with
                    | Some val1, Some val2 =>
                        emit (pos + 2)
                          (int_line name val1 ++ lit ", " ++ dec val2)
                    | _, _ => Throw StructError
                    end
              | OPARG_STRING =>
                  (* String format: 1 byte length + string data *)
                  if len data <=? pos then stop
                  else
                    match data_at data pos with
                    | None => Throw IndexError
                    | Some l =>
                        let str_len := byte_val l in
                        let pos := pos + 1 in
                        if len data <? pos + str_len then
                          Break (Pass2 pos lines strings string_id
                                   current_func)
                        else
                          let string :=
                            rstrip_nul
                              (cp932_decode
                                 (slice data pos (pos + str_len))) in
                          let pos := pos + str_len in
                          Continue
                            (Pass2 pos
                               (lines ++ [string_line name string string_id])
                               (strings ++ [(string_id, inst_addr, string)])
                               (string_id + 1) current_func)
                    end
              end
          end
    end.

Definition pass2_init : pass2_state := Pass2 4 [] [] 0 (-1).

Definition pass2 (data : list byte) (code_end : Z)
    (functions : gmap Z Z) (labels : gmap Z text) : outcome pass2_state :=
  while (length data) (pass2_step data code_end functions labels) pass2_init.

(** Lines 294-295: the entry point info closing the listing. *)
Definition trailer (entry_point : Z) : list text :=
  [ []; lit "# ENTRY_POINT: 0x" ++ hex8 true entry_point ].

(** What [hcb_decode] writes and returns: the lines of the listing
    (written joined by newlines), the strings of the strings file, and
    the pair [(len(functions), len(strings_list))]. *)
Record decoded := Decoded {
  listing : list text;
  strings_list : list (Z * Z * text);
  counts : Z * Z;
}.

Definition listing_file (d : decoded) : text := join_lines (listing d).

(** Lines 309-312: a line of the strings file, [ID|ADDRESS|TEXT]. *)
Definition strings_file_line (r : Z * Z * text) : text :=
  dec4 r.1.1 ++ lit "|0x" ++ hex8 true r.1.2 ++ lit "|"
    ++ escapeForTable r.2 ++ [LF].

Definition strings_file (d : decoded) : text :=
  concat (strings_file_line <$> strings_list d).

Definition hcb_decode (data : list byte) : outcome decoded :=
  if len data <? 4 then Raise ValueError   (* File too small *)
  else
    match unpack_u32 data 0 with
    | None => Raise StructError
    | Some entry_point =>
        let code_end := entry_point in
        match pass1 data code_end with
        | Done st1 =>
            let functions := p1_functions st1 in
            let labels := p1_labels st1 in
            match pass2 data code_end functions labels with
            | Done st2 =>
                Done (Decoded (p2_lines st2 ++ trailer entry_point)
                        (p2_strings st2)
                        (Z.of_nat (size functions), len (p2_strings st2)))
            | Raise e => Raise e
            | OutOfFuel => OutOfFuel
            end
        | Raise e => Raise e
        | OutOfFuel => OutOfFuel
        end
    end.

End Decoder.

(** ** HCB rebuilder: writes the replaced strings back into the bytecode *)

(** A message of the traversal: the two WARNING lines of lines 440-441,
    with the address and the problem character(s).  The other messages
    of [hcb_rebuild] are not modelled. *)
Inductive message := KeepingOriginal (addr : Z) (problem : text).

Record rebuild_state := Rebuild {
  rb_pos : Z;
  rb_new_code : list byte;
  rb_messages : list message;
}.

(** Lines 444-446: ensure null terminator. *)
Definition ensure_nul (new_str : list byte) : list byte :=
  if bool_decide (last new_str = Some x00) then new_str
  else new_str ++ [x00].

(** Lines 448-456: pad with spaces or truncate to the original length. *)
Definition fit_length (new_str : list byte) (old_str_len : Z) : list byte :=
  if len new_str <? old_str_len then
    (* Pad with spaces before null terminator *)
    let padding := old_str_len - len new_str in
    slice_to new_str (-1) ++ replicate (Z.to_nat padding) x20 ++ [x00]
  else if old_str_len <? len new_str then
    (* Truncate (keep null at end) *)
    slice_to new_str (old_str_len - 1) ++ [x00]
  else new_str.

Section Rebuilder.
Context `{Runtime}.

(** Lines 434-458: the operand written for the string at [old_addr]. *)
Definition replace_string (replacements : gmap Z text) (old_addr : Z)
    (old_str_len : Z) (old_str : list byte) (messages : list message)
  : list byte * list message :=
  match replacements !! old_addr with
  | Some t =>
      let '(new_str, messages) :=
        match cp932_encode t with
        | inl encoded => (encoded, messages)
        | inr (s, e) =>
            (old_str,
             messages ++ [KeepingOriginal old_addr (take (e - s) (drop s t))])
        end in
      (fit_length (ensure_nul new_str) old_str_len, messages)
  | None => (old_str, messages)
  end.

(** One turn of the loop of lines 391-461. *)
Definition rebuild_step (data : list byte) (code_end : Z)
    (replacements : gmap Z text) (st : rebuild_state)
  : step_result rebuild_state :=
  let pos := rb_pos st in
  let new_code := rb_new_code st in
  let messages := rb_messages st in
  if negb (pos <? code_end) then Break st
  else
    let old_addr := pos in
    match data_at data pos with
    | None => Throw IndexError
    | Some b =>
        let opcode := byte_val b in
        if HCB_LAST_OPCODE <? opcode then
          Continue (Rebuild (pos + 1) (new_code ++ [b]) messages)
        else
          match get_opcode_info opcode with
          | None => Throw IndexError
          | Some (name, arg_type) =>
              let new_code := new_code ++ [b] in
              let pos := pos + 1 in
              let copy n :=
                Continue (Rebuild (pos + n)
                            (new_code ++ slice data pos (pos + n))
                            messages) in
              match arg_type with
              | OPARG_NULL => Continue (Rebuild pos new_code messages)
              | OPARG_X32 => copy 4
              | OPARG_I32 => copy 4
              | OPARG_I16 => copy 2
              | OPARG_I8 =>
                  match data_at data pos with
                  | None => Throw IndexError
                  | Some a =>
                      Continue (Rebuild (pos + 1) (new_code ++ [a]) messages)
                  end
              | OPARG_I8I8 => copy 2
              | OPARG_STRING =>
                  match data_at data pos with
                  | None => Throw IndexError
                  | Some l =>
                      let old_str_len := byte_val l in   (* 1 byte length *)
                      let pos := pos + 1 in
                      let old_str := slice data pos (pos + old_str_len) in
                      let pos := pos + old_str_len in
                      let '(new_str, messages) :=
                        replace_string replacements old_addr old_str_len
                          old_str messages in
                      match byte_of_Z (len new_str) with
                      | None => Throw ValueError
                      | Some l' =>
                          Continue (Rebuild pos (new_code ++ l' :: new_str)
                                      messages)
                      end
                  end
              end
          end
    end.

(** What [hcb_rebuild] writes, and the messages of its traversal. *)
Record rebuilt := Rebuilt {
  output_data : list byte;
  warnings : list message;
}.

(** [hcb_rebuild], from the bytes of the original file and the
    replacements read from the strings file. *)
Definition hcb_rebuild (data : list byte) (replacements : gmap Z text)
  : outcome rebuilt :=
  if bool_decide (replacements = ∅) then
    (* No replacements, just copy *)
    Done (Rebuilt data [])
  else
    (* Get entry point *)
    match unpack_u32 data 0 with
    | None => Raise StructError
    | Some entry_point =>
        let code_end := entry_point in
        match while (length data)
                (rebuild_step data code_end replacements)
                (Rebuild 4 [] []) with
        | Done st =>
            match pack_u32 entry_point with
            | None => Raise StructError
            | Some header =>
                Done (Rebuilt
                        (header ++ rb_new_code st
                           ++ drop (Z.to_nat entry_point) data)
                        (rb_messages st))
            end
        | Raise e => Raise e
        | OutOfFuel => OutOfFuel
        end
    end.

End Rebuilder.

(** ** A runtime for the examples

    Python's cp932 codec is ASCII on the code points below 128; this
    instance encodes those, and rejects every other code point at its
    first occurrence.  The examples below use it on ASCII text and on
    U+00F1, which cp932 rejects as well; none of them decodes a float,
    which this instance shows as its bits. *)
Fixpoint ascii_encode (i : nat) (t : text) : list byte + (nat * nat) :=
  match t with
  | [] => inl []
  | c :: rest =>
      match (if c <? 128 then byte_of_Z c else None) with
      | Some b =>
          match ascii_encode (S i) rest with
          | inl bs => inl (b :: bs)
          | inr e => inr e
          end
      | None => inr (i, S i)
      end
  end.

Definition ascii_decode (bs : list byte) : text :=
  (λ b, if byte_val b <? 128 then byte_val b else 0xFFFD) <$> bs.

#[local] Instance ascii_runtime : Runtime := {
  cp932_encode := ascii_encode 0;
  cp932_decode := ascii_decode;
  float_repr := λ bits, lit "float:" ++ hex8 true bits;
}.

Definition bytes_of (t : text) : list byte :=
  omap byte_of_Z t.

(** ** Notions used to state the properties *)

(** The states a loop goes through from [s0]. *)
Inductive reaches {St : Type} (step : St → step_result St) (s0 : St)
  : St → Prop :=
  | reaches_start : reaches step s0 s0
  | reaches_turn s s' :
      reaches step s0 s → step s = Continue s' → reaches step s0 s'.

(** The width of a fixed-width argument; a string has none. *)
Definition fixed_width (a : oparg) : option Z :=
  match a with
  | OPARG_NULL => Some 0
  | OPARG_X32 | OPARG_I32 => Some 4
  | OPARG_I16 | OPARG_I8I8 => Some 2
  | OPARG_I8 => Some 1
  | OPARG_STRING => None
  end.

(** The size of the instruction at [pos]: one byte above
    [HCB_LAST_OPCODE], else the opcode, and its fixed-width argument or
    its length byte and string. *)
Definition instr_size (data : list byte) (pos : Z) : option Z :=
  b ← data_at data pos;
  if HCB_LAST_OPCODE <? byte_val b then Some 1
  else
    d ← get_opcode_info (byte_val b);
    match fixed_width d.2 with
    | Some w => Some (1 + w)
    | None => l ← data_at data (pos + 1); Some (2 + byte_val l)
    end.

(** The instructions from [pos] on end exactly at [code_end]. *)
Fixpoint tiles (fuel : nat) (data : list byte) (pos code_end : Z) : bool :=
  match fuel with
  | O => false
  | S fuel' =>
      if pos =? code_end then true
      else if code_end <? pos then false
      else
        match instr_size data pos with
        | Some size => tiles fuel' data (pos + size) code_end
        | None => false
        end
  end.

(** A well-formed file: the entry point lies in the file, after the
    header, and the instructions tile the code segment. *)
Definition well_formed (data : list byte) : bool :=
  match unpack_u32 data 0 with
  | Some entry_point =>
      (4 <=? entry_point) && (entry_point <=? len data)
      && tiles (length data) data 4 entry_point
  | None => false
  end.

(** A [pushstring] of length zero at [addr]. *)
Definition empty_string_at (data : list byte) (addr : Z) : bool :=
  bool_decide (data_at data addr = Some x0e
               ∧ data_at data (addr + 1) = Some x00).

(** No replacement is for a string of length zero. *)
Definition replaces_no_empty_string (data : list byte)
    (replacements : gmap Z text) : bool :=
  forallb (λ r, negb (empty_string_at data r.1)) (map_to_list replacements).

(** No replacement is at an address that holds the [pushstring] byte. *)
Definition replaces_no_string (data : list byte)
    (replacements : gmap Z text) : bool :=
  forallb (λ r, negb (bool_decide (data_at data r.1 = Some x0e)))
    (map_to_list replacements).

(** What the first pass keeps true of its two maps: a label is below
    [code_end] and named after its address; a function starts at a byte
    that is a known opcode. *)
Definition pass1_maps_ok (data : list byte) (code_end : Z)
    (st : pass1_state) : Prop :=
  (∀ a l, p1_labels st !! a = Some l →
     0 <= a < code_end ∧ l = label_name a)
  ∧ (∀ a n, p1_functions st !! a = Some n →
       ∃ b, data_at data a = Some b ∧ byte_val b <= HCB_LAST_OPCODE).


(** The instruction at [pos] has a fixed-width argument that the file
    ends before. *)
Definition truncated_at (data : list byte) (pos : Z) : Prop :=
  ∃ b name arg_type width,
    data_at data pos = Some b
    ∧ get_opcode_info (byte_val b) = Some (name, arg_type)
    ∧ fixed_width arg_type = Some width
    ∧ len data < pos + 1 + width.

(** No backslash of the text is followed by [n] or by [r]. *)
Fixpoint plain_backslashes (t : text) : bool :=
  match t with
  | c :: rest =>
      negb ((c =? BACKSLASH)
            && match rest with
               | d :: _ => (d =? CHAR_n) || (d =? CHAR_r)
               | [] => false
               end)
      && plain_backslashes rest
  | [] => true
  end.

(** What the second pass keeps true of its strings: the record at index
    [i] has the id [i], and the address of a [pushstring] that the pass
    has gone past, of which its text is the decoded string; the addresses
    grow with the ids. *)
Definition pass2_strings_ok `{Runtime} (data : list byte) (code_end : Z)
    (st : pass2_state) : Prop :=
  4 <= p2_pos st
  ∧ p2_string_id st = len (p2_strings st)
  ∧ (∀ i r, p2_strings st !! i = Some r →
       r.1.1 = Z.of_nat i
       ∧ 4 <= r.1.2 < p2_pos st ∧ r.1.2 < code_end
       ∧ data_at data r.1.2 = Some x0e
       ∧ ∃ l, data_at data (r.1.2 + 1) = Some l
              ∧ r.2 = rstrip_nul
                        (cp932_decode
                           (slice data (r.1.2 + 2)
                              (r.1.2 + 2 + byte_val l))))
  ∧ (∀ i j r r', (i < j)%nat →
       p2_strings st !! i = Some r → p2_strings st !! j = Some r' →
       r.1.2 < r'.1.2).

(** ** HCB string extraction: [hcb_extract_strings] *)

Record extract_state := Extract {
  ex_pos : Z;
  ex_strings : list (Z * Z * text);   (* (string_id, inst_addr, string) *)
  ex_string_id : Z;
}.

Section Extractor.
Context `{Runtime}.

(** One turn of the loop of lines 500-532, which tests no length. *)
Definition extract_step (data : list byte) (code_end : Z)
    (st : extract_state) : step_result extract_state :=
  let pos := ex_pos st in
  let strings := ex_strings st in
  let string_id := ex_string_id st in
  if negb (pos <? code_end) then Break st
  else
    match data_at data pos with
    | None => Throw IndexError
    | Some b =>
        let opcode := byte_val b in
        if HCB_LAST_OPCODE <? opcode then
          Continue (Extract (pos + 1) strings string_id)
        else
          match get_opcode_info opcode with
          | None => Throw IndexError
          | Some (name, arg_type) =>
              let inst_addr := pos in
              let pos := pos + 1 in
              match arg_type with
              | OPARG_NULL => Continue (Extract pos strings string_id)
              | OPARG_X32 => Continue (Extract (pos + 4) strings string_id)
              | OPARG_I32 => Continue (Extract (pos + 4) strings string_id)
              | OPARG_I16 => Continue (Extract (pos + 2) strings string_id)
              | OPARG_I8 => Continue (Extract (pos + 1) strings string_id)
              | OPARG_I8I8 => Continue (Extract (pos + 2) strings string_id)
              | OPARG_STRING =>
                  match data_at data pos with
                  | None => Throw IndexError
                  | Some l =>
                      let str_len := byte_val l in   (* 1 byte length *)
                      let pos := pos + 1 in
                      let string :=
                        rstrip_nul
                          (cp932_decode (slice data pos (pos + str_len))) in
                      let pos := pos + str_len in
                      Continue
                        (Extract pos
                           (strings ++ [(string_id, inst_addr, string)])
                           (string_id + 1))
                  end
              end
          end
    end.

(** [hcb_extract_strings]: the strings it writes, one
    [strings_file_line] each, and of which it returns the number. *)
Definition hcb_extract_strings (data : list byte)
  : outcome (list (Z * Z * text)) :=
  match unpack_u32 data 0 with
  | None => Raise StructError
  | Some entry_point =>
      let code_end := entry_point in
      match while (length data) (extract_step data code_end)
              (Extract 4 [] 0) with
      | Done st => Done (ex_strings st)
      | Raise e => Raise e
      | OutOfFuel => OutOfFuel
      end
  end.

End Extractor.

(** The addresses of the instructions that a traversal from [start]
    comes to. *)
Inductive instr_from (data : list byte) (start : Z) : Z → Prop :=
  | instr_from_start : instr_from data start start
  | instr_from_next a size :
      instr_from data start a →
      instr_size data a = Some size →
      instr_from data start (a + size).

(** What the first pass keeps true of its functions: they are numbered
    from 0 in the order of their addresses, which are addresses of
    [initstack] bytes that the pass has gone past. *)
Definition pass1_functions_ok (data : list byte) (st : pass1_state) : Prop :=
  4 <= p1_pos st
  ∧ p1_func_num st = Z.of_nat (size (p1_functions st))
  ∧ (∀ a n, p1_functions st !! a = Some n →
       4 <= a < p1_pos st ∧ 0 <= n < p1_func_num st
       ∧ data_at data a = Some x01)
  ∧ (∀ a a' n n',
       p1_functions st !! a = Some n → p1_functions st !! a' = Some n' →
       a < a' → n < n')
  ∧ (∀ n, 0 <= n < p1_func_num st →
       ∃ a, p1_functions st !! a = Some n).

(** ** Format detection by magic bytes *)

Definition MAGIC_EXTENSIONS : list (list byte * text) :=
  [ ([x4f; x67; x67; x53], lit ".ogg");   (* b'OggS': Ogg Vorbis audio *)
    ([x52; x49; x46; x46], lit ".wav");   (* b'RIFF': WAV audio *)
    ([x68; x7a; x63; x31], lit "");       (* b'hzc1': NVSG, no extension *)
    ([x89; x50; x4e; x47], lit ".png");   (* b'\x89PNG': PNG *)
    ([xff; xd8; xff], lit ".jpg") ].      (* b'\xff\xd8\xff': JPEG *)

(** [data.startswith(magic)] *)
Definition startswith (data magic : list byte) : bool :=
  bool_decide (take (length magic) data = magic).

(** The loop of [detect_extension] over the items of a table, in the
    order of their insertion. *)
Fixpoint detect_in (table : list (list byte * text)) (data : list byte)
  : text :=
  match table with
  | [] => []   (* No extension by default *)
  | (magic, ext) :: rest =>
      if startswith data magic then ext else detect_in rest data
  end.

(** Detects the appropriate extension based on magic bytes. *)
Definition detect_extension (data : list byte) : text :=
  detect_in MAGIC_EXTENSIONS data.

(** ** BIN tool: extractor and packer for .bin archives *)

(** The Shift_JIS codec (with [errors='replace'], so that neither
    direction raises) and [str.isdigit] of the Python runtime. *)
Class ArchiveRuntime := {
  shift_jis_encode : text → list byte;
  shift_jis_decode : list byte → text;
  str_isdigit : text → bool;
}.

(** A file open for writing: its bytes and the position of the next
    write. *)
Record wfile := WFile {
  wf_data : list byte;
  wf_pos : Z;
}.

(** [out.write(b)]: over the bytes at the position, and past the end. *)
Definition wf_write (out : wfile) (b : list byte) : wfile :=
  WFile (take (Z.to_nat (wf_pos out)) (wf_data out) ++ b
           ++ drop (Z.to_nat (wf_pos out + len b)) (wf_data out))
    (wf_pos out + len b).

(** [out.seek(pos)] *)
Definition wf_seek (out : wfile) (pos : Z) : wfile := WFile (wf_data out) pos.

(** [struct.pack('<III', name_off, file_off, file_size)] *)
Definition pack_III (e : Z * Z * Z) : option (list byte) :=
  a ← pack_u32 e.1.1; b ← pack_u32 e.1.2; c ← pack_u32 e.2;
  Some (a ++ b ++ c).

(** [sum(len(n) for n in names)] *)
Definition total_len (names : list (list byte)) : Z :=
  foldr (λ n acc, len n + acc) 0 names.

Section Archive.
Context `{ArchiveRuntime}.

(** Lines 759-763: remove the "0000_" prefix, encode as Shift_JIS. *)
Definition clean_name (name : text) : text :=
  if bool_decide (take 1 (drop 4 name) = [95]) && str_isdigit (take 4 name)
  then drop 5 name
  else name.

Definition archive_name (name : text) : list byte :=
  shift_jis_encode (clean_name name) ++ [x00].

(** Lines 779-782: write the names, and keep their offsets. *)
Definition write_names (file_names_start : Z) (names : list (list byte))
    (out : wfile) : wfile * list Z :=
  foldl (λ st name,
           (wf_write st.1 name,
            st.2 ++ [wf_pos st.1 - file_names_start]))
    (out, []) names.

(** Lines 785-791: write the files, and keep their entries; [i] is the
    index of the first of [files]. *)
Fixpoint write_files (i : nat) (files : list (text * list byte))
    (name_offsets : list Z) (out : wfile) (file_entries : list (Z * Z * Z))
  : option (wfile * list (Z * Z * Z)) :=
  match files with
  | [] => Some (out, file_entries)
  | f :: rest =>
      let file_offset := wf_pos out in
      let content := f.2 in
      let out := wf_write out content in
      name_off ← name_offsets !! i;
      write_files (S i) rest name_offsets out
        (file_entries ++ [(name_off, file_offset, len content)])
  end.

(** Lines 795-796: write the table. *)
Fixpoint write_table (file_entries : list (Z * Z * Z)) (out : wfile)
  : option wfile :=
  match file_entries with
  | [] => Some out
  | e :: rest => b ← pack_III e; write_table rest (wf_write out b)
  end.

(** Packs files into a .bin archive: [files] are the names and contents
    of the files of the folder, in the order of [sorted].  The result is
    the archive written, or [None] for an empty folder. *)
Definition bin_pack (files : list (text * list byte))
  : outcome (option (list byte)) :=
  if bool_decide (files = []) then Done None   (* Error: Empty folder *)
  else
    (* Prepare names (remove numeric prefix, encode as Shift_JIS) *)
    let names := (λ f, archive_name f.1) <$> files in
    let file_count := len files in
    let table_size := file_count * 12 in
    let names_size := total_len names in
    let file_names_start := 8 + table_size in
    (* Header *)
    match pack_u32 file_count, pack_u32 names_size with
    | Some h1, Some h2 =>
        let out := wf_write (wf_write (WFile [] 0) h1) h2 in
        (* Placeholder for table *)
        let out := wf_write out (replicate (Z.to_nat table_size) x00) in
        (* Write names *)
        let '(out, name_offsets) := write_names file_names_start names out in
        (* Write files and save offsets *)
        match write_files 0 files name_offsets out [] with
        | None => Raise IndexError
        | Some (out, file_entries) =>
            (* Write table at the beginning *)
            match write_table file_entries (wf_seek out 8) with
            | Some out => Done (Some (wf_data out))
            | None => Raise StructError
            end
        end
    | _, _ => Raise StructError
    end.

(** Lines 710-712: read the file table, [n] entries from [pos]. *)
Fixpoint read_entries (n : nat) (data : list byte) (pos : Z)
  : option (list (Z * Z * Z)) :=
  match n with
  | O => Some []
  | S n' =>
      name_offset ← unpack_u32 data pos;
      offset ← unpack_u32 data (pos + 4);
      size ← unpack_u32 data (pos + 8);
      rest ← read_entries n' data (pos + 12);
      Some ((name_offset, offset, size) :: rest)
  end.

(** Lines 718-723: the bytes up to a null byte or the end of the file. *)
Fixpoint read_name (bytes : list byte) : list byte :=
  match bytes with
  | [] => []
  | b :: rest => if bool_decide (b = x00) then [] else b :: read_name rest
  end.

(** Extracts files from a .bin archive: the names and contents of the
    files written, in their order. *)
Definition bin_extract (data : list byte) (auto_ext : bool)
  : outcome (list (text * list byte)) :=
  match unpack_u32 data 0, unpack_u32 data 4 with
  | Some file_count, Some file_names_size =>
      let table_size := file_count * 12 in
      let file_names_start := 8 + table_size in
      (* Read file table *)
      match read_entries (Z.to_nat file_count) data 8 with
      | None => Raise StructError
      | Some entries =>
          (* Extract files *)
          Done
            (imap
               (λ i e,
                  let '(name_offset, offset, size) := e in
                  (* Read filename (Shift_JIS, null-terminated) *)
                  let name_bytes :=
                    read_name
                      (drop (Z.to_nat (file_names_start + name_offset))
                         data) in
                  let name := shift_jis_decode name_bytes in
                  let output_name :=
                    dec4 (Z.of_nat i) ++ lit "_" ++ name in
                  (* Read content *)
                  let content := slice data offset (offset + size) in
                  (* Auto-detect extension *)
                  let output_name :=
                    if auto_ext
                    then output_name ++ detect_extension content
                    else output_name in
                  (output_name, content))
               entries)
      end
  | _, _ => Raise StructError
  end.

End Archive.

(** An instance for the examples: Shift_JIS is ASCII on the code points
    below 128, apart from 0x5C and 0x7E, which the examples do not use;
    [isdigit] on ASCII text. *)
Definition ascii_encode_replace (t : text) : list byte :=
  (λ c, default x3f (if c <? 128 then byte_of_Z c else None)) <$> t.

Definition ascii_isdigit (t : text) : bool :=
  negb (bool_decide (t = []))
  && forallb (λ c, (48 <=? c) && (c <=? 57)) t.

#[local] Instance ascii_archive : ArchiveRuntime := {
  shift_jis_encode := ascii_encode_replace;
  shift_jis_decode := ascii_decode;
  str_isdigit := ascii_isdigit;
}.

(** The offsets of the items of a list written one after the other from
    [start]. *)
Fixpoint offsets_from (start : Z) (items : list (list byte)) : list Z :=
  match items with
  | [] => []
  | x :: rest => start :: offsets_from (start + len x) rest
  end.

(** The entries of files written one after the other from
    [file_offset], with the offsets of their names. *)
Fixpoint entries_from (name_offsets : list Z) (file_offset : Z)
    (files : list (text * list byte)) : list (Z * Z * Z) :=
  match name_offsets, files with
  | n :: name_offsets', f :: files' =>
      (n, file_offset, len f.2)
        :: entries_from name_offsets' (file_offset + len f.2) files'
  | _, _ => []
  end.

(** ** The strings file read back (hcb_rebuild, lines 336-356) *)

(** [int(s)] and [int(s, 16)] of the Python runtime; [None] is
    [ValueError]. *)
Class IntRuntime := {
  py_int : text → option Z;
  py_int16 : text → option Z;
}.

Definition BAR : Z := 124.
Definition HASH : Z := 35.

(** The lines that the iteration over a file opened in text mode gives
    (universal newlines): a line ends after LF, CR or CR LF, each read
    as LF; [cur] is the line read so far. *)
Fixpoint file_lines_from (cur : text) (s : text) : list text :=
  match s with
  | [] => if bool_decide (cur = []) then [] else [cur]
  | c :: rest =>
      if c =? LF then (cur ++ [LF]) :: file_lines_from [] rest
      else if c =? CR then
        (cur ++ [LF])
          :: match rest with
             | d :: rest' =>
                 if d =? LF then file_lines_from [] rest'
                 else file_lines_from [] rest
             | [] => []
             end
      else file_lines_from (cur ++ [c]) rest
  end.

Definition file_lines (s : text) : list text := file_lines_from [] s.

(** [line.rstrip('\n\r')] *)
Fixpoint lstrip_newlines (s : text) : text :=
  match s with
  | c :: rest => if (c =? LF) || (c =? CR) then lstrip_newlines rest else s
  | [] => []
  end.

Definition rstrip_newlines (s : text) : text :=
  reverse (lstrip_newlines (reverse s)).

(** [s.split('|', 1)] when [s] has a bar: what is before the first bar,
    and what is after it. *)
Fixpoint split_bar (s : text) : option (text * text) :=
  match s with
  | [] => None
  | c :: rest =>
      if c =? BAR then Some ([], rest)
      else '(a, b) ← split_bar rest; Some (c :: a, b)
  end.

(** [line.split('|', 2)] *)
Definition split_bar_2 (line : text) : list text :=
  match split_bar line with
  | None => [line]
  | Some (a, rest) =>
      match split_bar rest with
      | None => [a; rest]
      | Some (b, c) => [a; b; c]
      end
  end.

Section StringsFile.
Context `{IntRuntime}.

(** Lines 338-356: the address and the text of a line of the strings
    file, or [None] for a line that is passed over (empty, a comment,
    invalid, or with a parse error). *)
Definition parse_strings_line (line : text) : option (Z * text) :=
  let line := rstrip_newlines line in
  if bool_decide (line = []) || is_prefix [HASH] line then None
  else
    match split_bar_2 line with
    | [p0; p1; p2] =>
        match py_int p0 with
        | None => None   (* Parse error *)
        | Some sid =>
            match (if is_prefix (lit "0x") p1 then py_int16 p1
                   else py_int p1) with
            | None => None   (* Parse error *)
            | Some addr =>
                (* Unescape *)
                Some (addr, unescapeFromTable p2)
            end
        end
    | _ => None   (* Invalid line *)
    end.

(** Lines 335-356: the replacements read from the strings file. *)
Definition read_replacements (strings : text) : gmap Z text :=
  foldl (λ replacements line,
           match parse_strings_line line with
           | Some (addr, t) => <[addr := t]> replacements
           | None => replacements
           end)
    ∅ (file_lines strings).

End StringsFile.

(** The code points of the decimal digits, and of the digits and
    letters of [hex8]. *)
Definition is_digit (c : Z) : bool := (48 <=? c) && (c <=? 57).

Definition is_hex_char (c : Z) : bool :=
  is_digit c || ((65 <=? c) && (c <=? 70)) || ((97 <=? c) && (c <=? 102)).

(** An instance for the examples: [int] on texts of decimal digits, and
    [int(_, 16)] on texts of hexadecimal digits after an optional "0x";
    the examples use no other. *)
Definition digit_value (c : Z) : option Z :=
  if is_digit c then Some (c - 48)
  else if (65 <=? c) && (c <=? 70) then Some (c - 55)
  else if (97 <=? c) && (c <=? 102) then Some (c - 87)
  else None.

Fixpoint digits_value (base acc : Z) (t : text) : option Z :=
  match t with
  | [] => Some acc
  | c :: rest =>
      d ← digit_value c;
      if d <? base then digits_value base (acc * base + d) rest else None
  end.

Definition ascii_int (t : text) : option Z :=
  if bool_decide (t = []) then None else digits_value 10 0 t.

Definition ascii_int16 (t : text) : option Z :=
  let t := if is_prefix (lit "0x") t then drop 2 t else t in
  if bool_decide (t = []) then None else digits_value 16 0 t.

#[local] Instance ascii_ints : IntRuntime := {
  py_int := ascii_int;
  py_int16 := ascii_int16;
}.

(** The characters of the lines of the strings file. *)
Definition no_newline (c : Z) : Prop := c ≠ LF ∧ c ≠ CR.

(** A character of the part of a line before its text: no bar, no
    newline, and no number sign. *)
Definition field_char (c : Z) : Prop :=
  c ≠ BAR ∧ c ≠ HASH ∧ no_newline c.

(** A record whose line the reader accepts: [int] reads the id, and
    [int(_, 16)] the address from its eight hexadecimal digits. *)
Definition readable `{IntRuntime} (r : Z * Z * text) : Prop :=
  0 <= r.1.1
  ∧ is_Some (py_int (dec4 r.1.1))
  ∧ py_int16 (lit "0x" ++ hex8 true r.1.2) = Some r.1.2.

(** The text [t] is what the string at [addr] holds: the operand is the
    encoded text and one null byte. *)
Definition same_string `{Runtime} (data : list byte) (addr : Z) (t : text)
  : Prop :=
  ∃ l body,
    data_at data (addr + 1) = Some l
    ∧ slice data (addr + 2) (addr + 2 + byte_val l) = body ++ [x00]
    ∧ last body ≠ Some x00
    ∧ cp932_encode t = inl body.

(** ** The strings file split into parts (split_all.py,
    split_strings.py, split_strings_ES.py) *)

(** [sum(split_sizes)] *)
Definition py_sum (l : list Z) : Z := foldr Z.add 0 l.

(** [l[a:b]]: a negative index counts from the end, and the indices are
    cut to the list. *)
Definition py_index (n i : Z) : Z :=
  if i <? 0 then Z.max (i + n) 0 else Z.min i n.

Definition py_slice {A} (l : list A) (a b : Z) : list A :=
  let a' := py_index (len l) a in
  let b' := py_index (len l) b in
  take (Z.to_nat (b' - a')) (drop (Z.to_nat a') l).

(** [f"{v:02d}"] for [v >= 0]. *)
Definition dec2 (v : Z) : text :=
  let d := dec v in replicate (2 - length d) 48 ++ d.

(** A part: its number, the position of its first line, the position
    after its last line, and its lines. *)
Record part := Part {
  part_number : Z;
  part_start : Z;
  part_end : Z;
  part_lines : list text;
}.

Record split_state := Split {
  sp_current_pos : Z;
  sp_part_num : Z;
  sp_parts : list part;
}.

(** The loop [for size in split_sizes] of the three scripts, which
    differ in the names and in the first line of the files that they
    write for a part. *)
Fixpoint split_loop (lines : list text) (split_sizes : list Z)
    (st : split_state) : split_state :=
  match split_sizes with
  | [] => st
  | size :: rest =>
      let total_lines := len lines in
      let current_pos := sp_current_pos st in
      let part_num := sp_part_num st in
      if total_lines <=? current_pos then st   (* break *)
      else
        let end_pos := Z.min (current_pos + size) total_lines in
        let part_lines := py_slice lines current_pos end_pos in
        split_loop lines rest
          (Split end_pos (part_num + 1)
             (sp_parts st ++ [Part part_num current_pos end_pos part_lines]))
  end.

(** The file of a part, its name and its content: four lines of
    comments, and the lines of the part.  [lineas] is the word for
    "lines" of the first line. *)
Definition part_file (lineas prefix : text) (p : part) : text * text :=
  (prefix ++ dec2 (part_number p) ++ lit ".txt",
   lit "# Parte " ++ dec (part_number p) ++ lit " - " ++ lineas ++ lit " "
     ++ dec (part_start p + 1) ++ lit " a " ++ dec (part_end p) ++ [LF]
     ++ lit "# Total en esta parte: " ++ dec (len (part_lines p))
     ++ lit " strings" ++ [LF]
     ++ lit "# Formato: ID|ADDRESS|TEXT" ++ [LF]
     ++ lit "#" ++ [LF]
     ++ concat (part_lines p)).

(** split_all.py: the files of the parts, and build.txt; [dir_name] is
    [output_path.name]. *)
Module SplitAll.

Definition build_file (dir_name prefix : text) (part_num : Z) : text :=
  lit "# Build script para reconstruir" ++ [LF]
    ++ lit "# Usar: python fvp_tools.py hcb-merge " ++ dir_name
    ++ lit "/build.txt strings_merged.txt" ++ [LF]
    ++ lit "#" ++ [LF]
    ++ concat ((λ i, dir_name ++ lit "/" ++ prefix ++ dec2 i
                       ++ lit ".txt" ++ [LF])
                 <$> seqZ 1 (part_num - 1)).

Definition split_strings (lines : list text) (dir_name : text)
    (split_sizes : list Z) (prefix : text)
  : list (text * text) * text :=
  let st := split_loop lines split_sizes (Split 0 1 []) in
  (part_file (lit "Lineas") prefix <$> sp_parts st,
   build_file dir_name prefix (sp_part_num st)).

End SplitAll.

(** split_strings.py and split_strings_ES.py: the files of the parts,
    the number of lines left, and the number of parts, which is
    returned. *)
Module SplitStrings.

Definition split_parts (prefix : text) (lines : list text)
    (split_sizes : list Z) : list (text * text) * Z * Z :=
  let st := split_loop lines split_sizes (Split 0 1 []) in
  (part_file (lit "L" ++ [237] ++ lit "neas") prefix <$> sp_parts st,
   len lines - sp_current_pos st,
   sp_part_num st - 1).

Definition split_strings
  : list text → list Z → list (text * text) * Z * Z :=
  split_parts (lit "strings_part").

Definition split_strings_ES
  : list text → list Z → list (text * text) * Z * Z :=
  split_parts (lit "strings_ES_part").

End SplitStrings.

(** An entry of the table that [struct.pack('<III', ...)] accepts. *)
Definition u32_entry (e : Z * Z * Z) : Prop :=
  0 <= e.1.1 < 4294967296
  ∧ 0 <= e.1.2 < 4294967296
  ∧ 0 <= e.2 < 4294967296.

(** The size of the archive of [files]: the header, the table, the
    names and the contents. *)
Definition archive_size `{ArchiveRuntime} (files : list (text * list byte))
  : Z :=
  8 + len files * 12 + total_len ((λ f, archive_name f.1) <$> files)
    + total_len (snd <$> files).

(** ** NVSG tool: NVSG to PNG image converter *)

(** The errors of [nvsg_decode] and [nvsg_encode]: [ValueError],
    [struct.error] and [zlib.error]. *)
Inductive nvsg_exn := NvsgValueError | NvsgStructError | NvsgZlibError.

(** PIL and zlib: the images, [img.size], [img.mode], [img.convert],
    [img.tobytes('raw', rawmode)], [Image.frombytes(mode, size, data)]
    with its optional raw mode ([None] is its [ValueError]),
    [zlib.compress(data, level=9)] and [zlib.decompress] ([None] is
    [zlib.error]). *)
Class ImageRuntime := {
  image : Type;
  img_size : image → Z * Z;
  img_mode : image → string;
  img_convert : image → string → image;
  img_tobytes : image → string → list byte;
  img_frombytes :
    string → Z * Z → list byte → option string → option image;
  zlib_compress : list byte → list byte;
  zlib_decompress : list byte → option (list byte);
}.

(** [struct.pack('<H', v)] *)
Definition pack_u16 (v : Z) : option (list byte) :=
  if (0 <=? v) && (v <? 65536) then
    b0 ← byte_of_Z (v mod 256);
    b1 ← byte_of_Z (v / 256 mod 256);
    Some [b0; b1]
  else None.

(** [struct.unpack('<H', bs)] and [struct.unpack('<I', bs)] *)
Definition unpack_H (bs : list byte) : option Z :=
  match bs with
  | [b0; b1] => Some (byte_val b0 + 256 * byte_val b1)
  | _ => None
  end.

Definition unpack_I (bs : list byte) : option Z :=
  match bs with
  | [b0; b1; b2; b3] =>
      Some (byte_val b0 + 256 * byte_val b1
            + 65536 * byte_val b2 + 16777216 * byte_val b3)
  | _ => None
  end.

(** Reading a file from its start to its end: the state is what is
    left to read. *)
Definition reader (A : Type) : Type :=
  list byte → nvsg_exn + (A * list byte).

Definition r_ret {A} (a : A) : reader A := λ rest, inr (a, rest).

Definition r_bind {A B} (m : reader A) (k : A → reader B) : reader B :=
  λ rest,
    match m rest with
    | inl e => inl e
    | inr (a, rest') => k a rest'
    end.

Definition r_raise {A} (e : nvsg_exn) : reader A := λ _, inl e.

Notation "'let*' x ':=' m 'in' k" := (r_bind m (λ x, k))
  (at level 10, x name, m at level 100, k at level 200,
   format "'let*'  x  ':='  m  'in' '//' k").

(** [f.read(n)] and [f.read()] *)
Definition f_read (n : nat) : reader (list byte) :=
  λ rest, inr (take n rest, drop n rest).

Definition f_read_all : reader (list byte) := λ rest, inr (rest, []).

(** [struct.unpack('<H', f.read(2))[0]] and
    [struct.unpack('<I', f.read(4))[0]] *)
Definition read_H : reader Z :=
  let* bs := f_read 2 in
  match unpack_H bs with
  | Some v => r_ret v
  | None => r_raise NvsgStructError
  end.

Definition read_I : reader Z :=
  let* bs := f_read 4 in
  match unpack_I bs with
  | Some v => r_ret v
  | None => r_raise NvsgStructError
  end.

Definition HZC1 : list byte := [x68; x7a; x63; x31].
Definition NVSG : list byte := [x4e; x56; x53; x47].

(** The metadata that [nvsg_decode] returns. *)
Record nvsg_meta := NvsgMeta {
  meta_x : Z;
  meta_y : Z;
  meta_image_count : Z;
  meta_width : Z;
  meta_height : Z;
  meta_format : Z;
}.

Section Nvsg.
Context `{ImageRuntime}.

(** Lines 809-836: the headers and the compressed data. *)
Definition nvsg_read : reader (Z * Z * Z * Z * Z * Z * list byte) :=
  (* hzc1 header *)
  let* magic := f_read 4 in
  if bool_decide (magic ≠ HZC1) then r_raise NvsgValueError
  else
    let* uncompressed_size := read_I in
    let* header_size := read_I in
    (* NVSG header *)
    let* nvsg_magic := f_read 4 in
    if bool_decide (nvsg_magic ≠ NVSG) then r_raise NvsgValueError
    else
      let* always_256 := read_H in
      let* fmt := read_H in
      let* width := read_H in
      let* height := read_H in
      let* x := read_H in
      let* y := read_H in
      let* unk1 := read_H in
      let* unk2 := read_H in
      let* image_count := read_I in
      let* unk3 := read_I in
      let* unk4 := read_I in
      (* Compressed data *)
      let* compressed := f_read_all in
      r_ret (fmt, width, height, x, y, image_count, compressed).

(** Lines 839-851: create image based on format. *)
Definition nvsg_image (fmt width height image_count : Z) (data : list byte)
  : nvsg_exn + image :=
  let made (img : option image) : nvsg_exn + image :=
    match img with
    | Some img => inr img
    | None => inl NvsgValueError
    end in
  if fmt =? 0 then   (* BGR 24-bit *)
    made (img_frombytes "RGB" (width, height) data (Some "BGR"%string))
  else if fmt =? 1 then   (* BGRA 32-bit *)
    made (img_frombytes "RGBA" (width, height) data (Some "BGRA"%string))
  else if fmt =? 2 then   (* BGRA with multiple frames *)
    let total_height := height * image_count in
    made (img_frombytes "RGBA" (width, total_height) data
            (Some "BGRA"%string))
  else if fmt =? 3 then   (* Grayscale *)
    made (img_frombytes "L" (width, height) data None)
  else inl NvsgValueError.   (* Unsupported format *)

(** Converts NVSG to PNG: the image that is saved, and the metadata. *)
Definition nvsg_decode (file : list byte) : nvsg_exn + (image * nvsg_meta) :=
  match nvsg_read file with
  | inl e => inl e
  | inr ((fmt, width, height, x, y, image_count, compressed), _) =>
      match zlib_decompress compressed with
      | None => inl NvsgZlibError
      | Some data =>
          match nvsg_image fmt width height image_count data with
          | inl e => inl e
          | inr img =>
              inr (img,
                   NvsgMeta x y
                     (if 0 <? image_count then image_count else 1)
                     width height fmt)
          end
      end
  end.

(** Lines 872-883: determine format; the format, the height of a frame,
    and the image, converted when it has no alpha and is not RGB. *)
Definition nvsg_format (img : image) (image_count : Z) : Z * Z * image :=
  let height := (img_size img).2 in
  let has_alpha := bool_decide (img_mode img = "RGBA"%string) in
  if 1 <? image_count then (2, height / image_count, img)
  else if has_alpha then (1, height, img)
  else
    (0, height,
     if bool_decide (img_mode img ≠ "RGB"%string)
     then img_convert img "RGB"
     else img).

(** Lines 885-891: convert to BGRA/BGR bytes. *)
Definition nvsg_pixels (fmt : Z) (img : image) : list byte :=
  if bool_decide (fmt ∈ [1; 2]) then
    let img :=
      if bool_decide (img_mode img ≠ "RGBA"%string)
      then img_convert img "RGBA"
      else img in
    img_tobytes img "BGRA"
  else img_tobytes img "BGR".

(** Lines 896-912: the file written. *)
Definition nvsg_write (fmt width height x y image_count : Z)
    (data compressed : list byte) : option (list byte) :=
  (* hzc1 header *)
  uncompressed_size ← pack_u32 (len data);
  header_size ← pack_u32 0x20;
  (* NVSG header *)
  always_256 ← pack_u16 256;
  fmt ← pack_u16 fmt;
  width ← pack_u16 width;
  height ← pack_u16 height;
  x ← pack_u16 x;
  y ← pack_u16 y;
  unk1 ← pack_u16 0;
  unk2 ← pack_u16 0;
  image_count ← pack_u32 image_count;
  unk3 ← pack_u32 0;
  unk4 ← pack_u32 0;
  Some (HZC1 ++ uncompressed_size ++ header_size
          ++ NVSG ++ always_256 ++ fmt ++ width ++ height ++ x ++ y
          ++ unk1 ++ unk2 ++ image_count ++ unk3 ++ unk4
          ++ compressed).

(** Converts PNG to NVSG: the file written, or the error of
    [struct.pack]. *)
Definition nvsg_encode (img : image) (x y image_count : Z)
  : nvsg_exn + list byte :=
  let width := (img_size img).1 in
  let '(fmt, height, img) := nvsg_format img image_count in
  let data := nvsg_pixels fmt img in
  (* Compress *)
  let compressed := zlib_compress data in
  match nvsg_write fmt width height x y image_count data compressed with
  | Some file => inr file
  | None => inl NvsgStructError
  end.

End Nvsg.

(** An instance for the examples: an image is its mode, its size and
    its bytes; the conversions keep the bytes, and the compression
    stores them. *)
Record toy_image := ToyImage {
  toy_mode : string;
  toy_size : Z * Z;
  toy_bytes : list byte;
}.

#[local] Instance toy_images : ImageRuntime := {
  image := toy_image;
  img_size := toy_size;
  img_mode := toy_mode;
  img_convert := λ img mode, ToyImage mode (toy_size img) (toy_bytes img);
  img_tobytes := λ img _, toy_bytes img;
  img_frombytes := λ mode size data _, Some (ToyImage mode size data);
  zlib_compress := λ data, data;
  zlib_decompress := Some;
}.

(** * Properties *)

Example escape_sample :
  escapeForTable (lit "a\b" ++ [LF]) = lit "a\\b\n"
  /\ unescapeFromTable (lit "a\\b\n") = lit "a\b" ++ [LF]
  /\ hex8 true 20 = lit "00000014" /\ dec4 7 = lit "0007"
  /\ dec (-5) = lit "-5" /\ hex8 false 255 = lit "000000ff".
Proof. vm_compute. repeat split. Qed.

Example opcode_samples :
  get_opcode_info 0x0E = Some ("pushstring", OPARG_STRING)
  /\ get_opcode_info 0x28 = None
  /\ get_opcode_by_name "pushint"
     = [(0x0A, OPARG_I32); (0x0B, OPARG_I16); (0x0C, OPARG_I8)].
Proof. vm_compute. repeat split. Qed.

(** ** Bytes, slices and the header *)

Lemma byte_val_range (b : byte) : 0 <= byte_val b < 256.
Proof.
  unfold byte_val. pose proof (Byte.to_N_bounded b). lia.
Qed.

Lemma byte_of_Z_val (b : byte) : byte_of_Z (byte_val b) = Some b.
Proof.
  unfold byte_of_Z. pose proof (byte_val_range b).
  replace ((0 <=? byte_val b) && (byte_val b <? 256)) with true
    by (symmetry; apply andb_true_iff; lia).
  unfold byte_val. rewrite N2Z.id. apply Byte.of_to_N.
Qed.

Lemma byte_of_Z_Some (z : Z) (b : byte) :
  byte_of_Z z = Some b → byte_val b = z.
Proof.
  unfold byte_of_Z. destruct ((0 <=? z) && (z <? 256)) eqn:E; [|done].
  apply andb_true_iff in E as [E1 E2]. intros Hb.
  apply Byte.to_of_N in Hb. unfold byte_val. rewrite Hb. lia.
Qed.

Lemma byte_of_Z_is_Some (z : Z) : 0 <= z < 256 → is_Some (byte_of_Z z).
Proof.
  intros Hz. unfold byte_of_Z.
  replace ((0 <=? z) && (z <? 256)) with true
    by (symmetry; apply andb_true_iff; lia).
  destruct (Byte.of_N (Z.to_N z)) eqn:E; [eauto|].
  pose proof (Byte.to_of_N_option_map (Z.to_N z)) as Hm.
  rewrite E in Hm. simpl in Hm.
  destruct (N.leb_spec (Z.to_N z) 255); [done | lia].
Qed.

Lemma len_app {A} (l k : list A) : len (l ++ k) = len l + len k.
Proof. unfold len. rewrite length_app. lia. Qed.

Lemma len_nonneg {A} (l : list A) : 0 <= len l.
Proof. unfold len. lia. Qed.

Lemma data_at_Some_lt (data : list byte) (pos : Z) (b : byte) :
  data_at data pos = Some b → pos < len data.
Proof.
  unfold data_at, len. intros Hb. apply lookup_lt_Some in Hb. lia.
Qed.

Lemma data_at_is_Some (data : list byte) (pos : Z) :
  0 <= pos < len data → is_Some (data_at data pos).
Proof.
  unfold data_at, len. intros Hp. apply lookup_lt_is_Some. lia.
Qed.

Lemma slice_length (data : list byte) (a n : Z) :
  0 <= a → 0 <= n → a + n <= len data → len (slice data a (a + n)) = n.
Proof.
  unfold slice, len. intros Ha Hn Hl.
  rewrite length_take, length_drop. lia.
Qed.

Lemma unpack_u32_is_Some (data : list byte) (pos : Z) :
  0 <= pos → pos + 4 <= len data → is_Some (unpack_u32 data pos).
Proof.
  intros Hp Hl. unfold unpack_u32.
  pose proof (slice_length data pos 4 Hp ltac:(lia) Hl) as Hs.
  unfold len in Hs.
  destruct (slice data pos (pos + 4)) as [|b0 [|b1 [|b2 [|b3 [|b4 r]]]]];
    simpl in Hs; try lia.
  eauto.
Qed.

Lemma unpack_u32_range (data : list byte) (pos v : Z) :
  unpack_u32 data pos = Some v → 0 <= v < 4294967296.
Proof.
  unfold unpack_u32.
  destruct (slice data pos (pos + 4)) as [|b0 [|b1 [|b2 [|b3 [|b4 r]]]]];
    try done.
  intros [= <-].
  pose proof (byte_val_range b0). pose proof (byte_val_range b1).
  pose proof (byte_val_range b2). pose proof (byte_val_range b3). lia.
Qed.

(** Packing the entry point read from a header gives the header back. *)
Lemma pack_unpack_header (data : list byte) (v : Z) :
  unpack_u32 data 0 = Some v → pack_u32 v = Some (take 4 data).
Proof.
  intros Hu. pose proof (unpack_u32_range _ _ _ Hu) as Hr.
  unfold unpack_u32, slice in Hu. rewrite drop_0 in Hu.
  change (Z.to_nat (0 + 4 - 0)) with 4%nat in Hu.
  destruct (take 4 data) as [|b0 [|b1 [|b2 [|b3 [|b4 r]]]]]; try done.
  injection Hu as <-.
  pose proof (byte_val_range b0). pose proof (byte_val_range b1).
  pose proof (byte_val_range b2). pose proof (byte_val_range b3).
  unfold pack_u32.
  match goal with |- context [(?x <=? ?v) && (?v <? ?y)] =>
    replace ((x <=? v) && (v <? y)) with true
      by (symmetry; apply andb_true_iff; lia) end.
  match goal with |- context [byte_of_Z (?v mod 256)] =>
    replace (v mod 256) with (byte_val b0)
      by (apply Z.mod_unique with
            (q := byte_val b1 + 256 * byte_val b2 + 65536 * byte_val b3); lia)
  end.
  match goal with |- context [byte_of_Z (?v / 256 mod 256)] =>
    replace (v / 256) with
      (byte_val b1 + 256 * byte_val b2 + 65536 * byte_val b3)
      by (apply Z.div_unique with (r := byte_val b0); lia);
    replace (v / 65536) with (byte_val b2 + 256 * byte_val b3)
      by (apply Z.div_unique with (r := byte_val b0 + 256 * byte_val b1); lia);
    replace (v / 16777216) with (byte_val b3)
      by (apply Z.div_unique with
            (r := byte_val b0 + 256 * byte_val b1 + 65536 * byte_val b2); lia)
  end.
  replace ((byte_val b1 + 256 * byte_val b2 + 65536 * byte_val b3) mod 256)
    with (byte_val b1)
    by (apply Z.mod_unique with
          (q := byte_val b2 + 256 * byte_val b3); lia).
  replace ((byte_val b2 + 256 * byte_val b3) mod 256) with (byte_val b2)
    by (apply Z.mod_unique with (q := byte_val b3); lia).
  replace (byte_val b3 mod 256) with (byte_val b3)
    by (symmetry; apply Z.mod_small; lia).
  rewrite !byte_of_Z_val. reflexivity.
Qed.

(** Every byte value up to [HCB_LAST_OPCODE] has a definition. *)
Lemma get_opcode_info_known (opcode : Z) :
  0 <= opcode <= HCB_LAST_OPCODE → is_Some (get_opcode_info opcode).
Proof.
  unfold HCB_LAST_OPCODE. intros Ho.
  assert (∃ n, (n < 40)%nat ∧ opcode = Z.of_nat n) as (n & Hn & ->)
    by (exists (Z.to_nat opcode); lia).
  clear Ho.
  do 40 (destruct n as [|n]; [vm_compute; eauto|]).
  lia.
Qed.

Lemma get_opcode_info_unknown (opcode : Z) :
  HCB_LAST_OPCODE < opcode → get_opcode_info opcode = None.
Proof.
  intros Ho. unfold get_opcode_info.
  destruct (Z.ltb_spec HCB_LAST_OPCODE opcode); [done | lia].
Qed.

(** ** Loops *)

Section While.
Context {St : Type} (step : St → step_result St).

Lemma while_continue (fuel : nat) (s s' : St) :
  step s = Continue s' → while (S fuel) step s = while fuel step s'.
Proof. intros Hs. simpl. by rewrite Hs. Qed.

Lemma while_break (fuel : nat) (s s' : St) :
  step s = Break s' → while (S fuel) step s = Done s'.
Proof. intros Hs. simpl. by rewrite Hs. Qed.

(** A loop whose turns never raise and decrease a measure ends within
    the fuel that bounds the measure. *)
Lemma while_total (Inv : St → Prop) (measure : St → nat) :
  (∀ s, Inv s →
     match step s with
     | Continue s' => Inv s' ∧ (measure s' < measure s)%nat
     | Break _ => True
     | Throw _ => False
     end) →
  ∀ fuel s, Inv s → (measure s < fuel)%nat →
    ∃ s', while fuel step s = Done s'.
Proof.
  intros Hstep fuel. induction fuel as [|fuel IH]; intros s Hi Hm; [lia|].
  specialize (Hstep s Hi). simpl.
  destruct (step s) as [s'|s'|e]; [|eauto|done].
  destruct Hstep as [Hi' Hm']. apply IH; [done | lia].
Qed.

(** The state a loop ends in is the one left by the [Break] of a state
    that an invariant of its turns holds of. *)
Lemma while_invariant (Inv : St → Prop) :
  (∀ s s', Inv s → step s = Continue s' → Inv s') →
  ∀ fuel s r, Inv s → while fuel step s = Done r →
    ∃ s0, Inv s0 ∧ step s0 = Break r.
Proof.
  intros Hstep fuel. induction fuel as [|fuel IH]; intros s r Hi; [done|].
  simpl. destruct (step s) as [s'|s'|e] eqn:Hs; [|intros [= <-]; eauto|done].
  apply IH. eauto.
Qed.

Lemma while_reaches (fuel : nat) (s0 s r : St) :
  reaches step s0 s → while fuel step s0 = Done r →
  ∃ fuel', while fuel' step s = Done r.
Proof.
  intros Hr Hw. induction Hr as [|s s' _ [fuel' IH] Hs]; [eauto|].
  destruct fuel' as [|fuel']; [done|].
  rewrite (while_continue _ _ _ Hs) in IH. eauto.
Qed.

(** With fuel above a measure that its turns decrease, a loop is not
    cut by its fuel. *)
Lemma while_fuel (Inv : St → Prop) (measure : St → nat) :
  (∀ s s', Inv s → step s = Continue s' →
     Inv s' ∧ (measure s' < measure s)%nat) →
  ∀ fuel s, Inv s → (measure s < fuel)%nat → while fuel step s ≠ OutOfFuel.
Proof.
  intros Hstep fuel. induction fuel as [|fuel IH]; intros s Hi Hm; [lia|].
  simpl. destruct (step s) as [s'|s'|e] eqn:Hs; [|done..].
  destruct (Hstep s s' Hi Hs) as [Hi' Hm']. apply IH; [done | lia].
Qed.
End While.

(** ** Both passes of the decoder end without raising *)

Ltac bool_cases :=
  repeat match goal with
  | H : (_ <? _) = true |- _ => apply Z.ltb_lt in H
  | H : (_ <? _) = false |- _ => apply Z.ltb_ge in H
  | H : (_ <=? _) = true |- _ => apply Z.leb_le in H
  | H : (_ <=? _) = false |- _ => apply Z.leb_gt in H
  end.

Lemma pass1_step_progress (data : list byte) (code_end : Z)
    (st : pass1_state) :
  0 <= p1_pos st →
  match pass1_step data code_end st with
  | Continue st' => p1_pos st < p1_pos st' ∧ p1_pos st < len data
  | Break st' => st' = st
  | Throw _ => False
  end.
Proof.
  intros Hpos. unfold pass1_step.
  destruct (p1_pos st <? code_end) eqn:Hc; simpl; [|done].
  destruct (len data <=? p1_pos st) eqn:Hl; [done|]. bool_cases.
  destruct (data_at_is_Some data (p1_pos st)) as [b Hb]; [lia|]. rewrite Hb.
  destruct (HCB_LAST_OPCODE <? byte_val b) eqn:Ho; [simpl; lia|]. bool_cases.
  pose proof (byte_val_range b) as Hbr.
  destruct (get_opcode_info_known (byte_val b)) as [[name arg] Hi]; [lia|].
  rewrite Hi.
  destruct (bool_decide (name = "initstack"%string)); destruct arg; simpl;
    try lia.
  all: try (unfold collect_target;
    destruct (p1_pos st + 1 + 4 <=? len data) eqn:H4; [|simpl; lia];
    destruct (is_jump_or_call name); [|simpl; lia]; bool_cases;
    destruct (unpack_u32_is_Some data (p1_pos st + 1)) as [t Ht]; [lia..|];
    rewrite Ht; simpl;
    match goal with |- context [if ?c then _ else _] => destruct c end;
    simpl; lia).
  all: destruct (p1_pos st + 1 <? len data) eqn:Hs; [|simpl; lia]; bool_cases;
    destruct (data_at_is_Some data (p1_pos st + 1)) as [l Hl']; [lia|];
    rewrite Hl'; simpl; pose proof (byte_val_range l); lia.
Qed.

Lemma pass1_total (data : list byte) (code_end : Z) :
  4 <= len data → ∃ st, pass1 data code_end = Done st.
Proof.
  intros Hlen. unfold pass1.
  apply (while_total _ (λ st, 0 <= p1_pos st)
           (λ st, Z.to_nat (len data - p1_pos st))).
  - intros s Hs. pose proof (pass1_step_progress data code_end s Hs) as Hp.
    destruct (pass1_step data code_end s); [|done..]. lia.
  - simpl. lia.
  - unfold len in *. simpl. lia.
Qed.

Lemma unpack_i16_is_Some (data : list byte) (pos : Z) :
  0 <= pos → pos + 2 <= len data → is_Some (unpack_i16 data pos).
Proof.
  intros Hp Hl. unfold unpack_i16.
  pose proof (slice_length data pos 2 Hp ltac:(lia) Hl) as Hs.
  unfold len in Hs.
  destruct (slice data pos (pos + 2)) as [|b0 [|b1 [|b2 r]]];
    simpl in Hs; try lia.
  eauto.
Qed.

Lemma unpack_i8_is_Some (data : list byte) (pos : Z) :
  0 <= pos < len data → is_Some (unpack_i8 data pos).
Proof.
  intros Hp. unfold unpack_i8.
  destruct (data_at_is_Some data pos Hp) as [b ->]. simpl. eauto.
Qed.

Lemma unpack_i32_is_Some (data : list byte) (pos : Z) :
  0 <= pos → pos + 4 <= len data → is_Some (unpack_i32 data pos).
Proof.
  intros Hp Hl. unfold unpack_i32.
  destruct (unpack_u32_is_Some data pos Hp Hl) as [v ->]. simpl. eauto.
Qed.

Section DecoderTotal.
Context `{Runtime}.

Lemma pass2_step_progress (data : list byte) (code_end : Z)
    (functions : gmap Z Z) (labels : gmap Z text) (st : pass2_state) :
  0 <= p2_pos st →
  match pass2_step data code_end functions labels st with
  | Continue st' => p2_pos st < p2_pos st' ∧ p2_pos st < len data
  | Break _ => True
  | Throw _ => False
  end.
Proof.
  intros Hpos. unfold pass2_step.
  destruct (p2_pos st <? code_end) eqn:Hc; simpl; [|done].
  destruct (len data <=? p2_pos st) eqn:Hl; [done|]. bool_cases.
  destruct (emit_markers _ _ _ _ _) as [lines cf].
  destruct (data_at_is_Some data (p2_pos st)) as [b Hb]; [lia|]. rewrite Hb.
  destruct (HCB_LAST_OPCODE <? byte_val b) eqn:Ho; [simpl; lia|]. bool_cases.
  pose proof (byte_val_range b) as Hbr.
  destruct (get_opcode_info_known (byte_val b)) as [[name arg] Hi]; [lia|].
  rewrite Hi. destruct arg; simpl.
  - lia.
  - destruct (len data <? p2_pos st + 1 + 4) eqn:H4; [done|]. bool_cases.
    destruct (unpack_u32_is_Some data (p2_pos st + 1)) as [v ->]; [lia..|].
    simpl. lia.
  - destruct (len data <? p2_pos st + 1 + 4) eqn:H4; [done|]. bool_cases.
    destruct (unpack_i32_is_Some data (p2_pos st + 1)) as [v ->]; [lia..|].
    simpl. lia.
  - destruct (len data <? p2_pos st + 1 + 2) eqn:H2; [done|]. bool_cases.
    destruct (unpack_i16_is_Some data (p2_pos st + 1)) as [v ->]; [lia..|].
    simpl. lia.
  - destruct (len data <=? p2_pos st + 1) eqn:H1; [done|]. bool_cases.
    destruct (unpack_i8_is_Some data (p2_pos st + 1)) as [v ->]; [lia|].
    simpl. lia.
  - destruct (len data <? p2_pos st + 1 + 2) eqn:H2; [done|]. bool_cases.
    destruct (unpack_i8_is_Some data (p2_pos st + 1)) as [v ->]; [lia|].
    destruct (unpack_i8_is_Some data (p2_pos st + 1 + 1)) as [w ->]; [lia|].
    simpl. lia.
  - destruct (len data <=? p2_pos st + 1) eqn:H1; [done|]. bool_cases.
    destruct (data_at_is_Some data (p2_pos st + 1)) as [l ->]; [lia|].
    destruct (len data <? _) eqn:Hs; [done|]. simpl.
    pose proof (byte_val_range l). lia.
Qed.

Lemma pass2_total (data : list byte) (code_end : Z)
    (functions : gmap Z Z) (labels : gmap Z text) :
  4 <= len data → ∃ st, pass2 data code_end functions labels = Done st.
Proof.
  intros Hlen. unfold pass2.
  apply (while_total _ (λ st, 0 <= p2_pos st)
           (λ st, Z.to_nat (len data - p2_pos st))).
  - intros s Hs.
    pose proof (pass2_step_progress data code_end functions labels s Hs)
      as Hp.
    destruct (pass2_step data code_end functions labels s); [|done..]. lia.
  - simpl. lia.
  - unfold len in *. simpl. lia.
Qed.

(** The decoder on a file of at least four bytes, step by step. *)
Lemma hcb_decode_runs (data : list byte) :
  4 <= len data →
  ∃ entry_point st1 st2,
    unpack_u32 data 0 = Some entry_point
    ∧ pass1 data entry_point = Done st1
    ∧ pass2 data entry_point (p1_functions st1) (p1_labels st1) = Done st2
    ∧ hcb_decode data
      = Done (Decoded (p2_lines st2 ++ trailer entry_point) (p2_strings st2)
                (Z.of_nat (size (p1_functions st1)), len (p2_strings st2))).
Proof.
  intros Hlen.
  destruct (unpack_u32_is_Some data 0) as [entry_point He]; [lia..|].
  destruct (pass1_total data entry_point Hlen) as [st1 H1].
  destruct (pass2_total data entry_point (p1_functions st1) (p1_labels st1)
              Hlen) as [st2 H2].
  exists entry_point, st1, st2. repeat split; try done.
  unfold hcb_decode. destruct (Z.ltb_spec (len data) 4); [lia|].
  by rewrite He, H1, H2.
Qed.

End DecoderTotal.

(** ** Unknown opcodes *)

(** C8: at a position of the code segment that holds a byte above
    [HCB_LAST_OPCODE], the table has no definition, and the first pass,
    the second pass and the traversal of the rebuilder all take the byte
    as a one-byte instruction: no exception, no argument read, the cursor
    moves on by exactly one byte and the loop goes on (the rebuilder
    copies the byte). *)
Theorem unknown_opcode_is_one_byte `{Runtime} (data : list byte)
    (code_end pos : Z) (b : byte) :
  data_at data pos = Some b →
  HCB_LAST_OPCODE < byte_val b →
  pos < code_end →
  get_opcode_info (byte_val b) = None
  ∧ (∀ func_num functions labels,
       pass1_step data code_end (Pass1 pos func_num functions labels)
       = Continue (Pass1 (pos + 1) func_num functions labels))
  ∧ (∀ functions labels lines strings string_id current_func,
       pass2_step data code_end functions labels
         (Pass2 pos lines strings string_id current_func)
       = Continue
           (Pass2 (pos + 1)
              (emit_markers functions labels pos lines current_func).1
              strings string_id
              (emit_markers functions labels pos lines current_func).2))
  ∧ (∀ replacements new_code messages,
       rebuild_step data code_end replacements (Rebuild pos new_code messages)
       = Continue (Rebuild (pos + 1) (new_code ++ [b]) messages)).
Proof.
  intros Hb Ho Hc. pose proof (data_at_Some_lt _ _ _ Hb) as Hl.
  split; [by apply get_opcode_info_unknown|].
  assert (Hc' : (pos <? code_end) = true) by by apply Z.ltb_lt.
  assert (Hl' : (len data <=? pos) = false) by by apply Z.leb_gt.
  assert (Ho' : (HCB_LAST_OPCODE <? byte_val b) = true) by by apply Z.ltb_lt.
  split; [|split].
  - intros. unfold pass1_step. simpl. by rewrite Hc', Hl', Hb, Ho'.
  - intros. unfold pass2_step. simpl. rewrite Hc', Hl'. simpl.
    destruct (emit_markers _ _ _ _ _) as [l c]. by rewrite Hb, Ho'.
  - intros. unfold rebuild_step. simpl. by rewrite Hc', Hb, Ho'.
Qed.

Lemma unknown_opcode_is_one_byte_witness :
  let data := [x06; x00; x00; x00; xff; x04] in
  data_at data 4 = Some xff
  ∧ HCB_LAST_OPCODE < byte_val xff
  ∧ get_opcode_info (byte_val xff) = None
  ∧ pass1_step data 6 (Pass1 4 0 ∅ ∅) = Continue (Pass1 5 0 ∅ ∅)
  ∧ rebuild_step data 6 {[ 4 := lit "a" ]} (Rebuild 4 [] [])
    = Continue (Rebuild 5 [xff] []).
Proof.
  intros data.
  assert (H1 : data_at data 4 = Some xff) by reflexivity.
  assert (H2 : HCB_LAST_OPCODE < byte_val xff) by reflexivity.
  assert (H3 : 4 < 6) by lia.
  destruct (unknown_opcode_is_one_byte (H := ascii_runtime) data 6 4 xff
              H1 H2 H3) as (Hi & Hp1 & _ & Hr).
  exact (conj H1 (conj H2 (conj Hi
           (conj (Hp1 0 ∅ ∅) (Hr {[ 4 := lit "a" ]} [] []))))).
Defined.

(** ** Malformed files *)

(** C6, as the code has it: the decoder fails, with nothing written,
    exactly on a file of fewer than four bytes; on every other file,
    also one whose entry point is 4 or less, it writes a listing. *)
Theorem hcb_decode_fails_iff_too_small `{Runtime} (data : list byte) :
  (len data < 4 ∧ hcb_decode data = Raise ValueError)
  ∨ (4 <= len data ∧ ∃ d, hcb_decode data = Done d).
Proof.
  destruct (Z.lt_ge_cases (len data) 4) as [Hs|Hl].
  - left. split; [done|]. unfold hcb_decode.
    destruct (Z.ltb_spec (len data) 4); [done | lia].
  - right. split; [done|].
    destruct (hcb_decode_runs data Hl) as (e & st1 & st2 & _ & _ & _ & Hd).
    eauto.
Qed.

(** C6 fails as stated: a file whose entry point is 4, or 0, is decoded
    and its listing, the entry point info alone, is written. *)
Lemma hcb_decode_small_entry_point_written :
  hcb_decode [x04; x00; x00; x00]
  = Done (Decoded [ []; lit "# ENTRY_POINT: 0x00000004" ] [] (0, 0))
  ∧ hcb_decode [x00; x00; x00; x00]
    = Done (Decoded [ []; lit "# ENTRY_POINT: 0x00000000" ] [] (0, 0)).
Proof. split; vm_compute; reflexivity. Qed.

(** ** Rebuilding without replacements *)

(** C3: with no replacement, the rebuilder writes the bytes of the
    original file, whatever they are. *)
Theorem hcb_rebuild_empty `{Runtime} (data : list byte) :
  hcb_rebuild data ∅ = Done (Rebuilt data []).
Proof. reflexivity. Qed.

(** ** The escaping of the strings file *)

Lemma str_replace_1_cons (c : Z) (new : text) (x : Z) (s : text) :
  str_replace [c] new (x :: s)
  = (if c =? x then new else [x]) ++ str_replace [c] new s.
Proof.
  unfold str_replace. simpl. rewrite andb_true_r. by destruct (c =? x).
Qed.

Lemma str_replace_1_app (c : Z) (new u v : text) :
  str_replace [c] new (u ++ v) = str_replace [c] new u ++ str_replace [c] new v.
Proof.
  induction u as [|x u IH]; [done|].
  rewrite <- app_comm_cons, !str_replace_1_cons, IH. by rewrite app_assoc.
Qed.

(** The replacement of a pattern of two characters, one character of the
    text at a time. *)
Lemma str_replace_2_cons (a b : Z) (new : text) (x : Z) (s : text) :
  str_replace [a; b] new (x :: s)
  = if (a =? x) && bool_decide (head s = Some b)
    then new ++ str_replace [a; b] new (tail s)
    else x :: str_replace [a; b] new s.
Proof.
  unfold str_replace. simpl. destruct (a =? x); simpl; [|done].
  destruct s as [|y s]; simpl; [done|]. rewrite andb_true_r.
  destruct (Z.eqb_spec b y) as [->|Hne].
  - by rewrite bool_decide_eq_true_2.
  - rewrite bool_decide_eq_false_2; [done|]. congruence.
Qed.

(** The escaping of the strings file, one character at a time. *)
Lemma escapeForTable_cons (c : Z) (t : text) :
  escapeForTable (c :: t)
  = (if c =? BACKSLASH then [BACKSLASH; BACKSLASH]
     else if c =? LF then [BACKSLASH; CHAR_n]
     else if c =? CR then [BACKSLASH; CHAR_r]
     else [c]) ++ escapeForTable t.
Proof.
  unfold escapeForTable. rewrite str_replace_1_cons, !str_replace_1_app.
  f_equal. rewrite (Z.eqb_sym BACKSLASH c).
  destruct (Z.eqb_spec c BACKSLASH) as [->|Hb]; [done|].
  rewrite str_replace_1_cons, (Z.eqb_sym LF c), app_nil_r.
  destruct (Z.eqb_spec c LF) as [->|Hl]; [done|].
  rewrite str_replace_1_cons, (Z.eqb_sym CR c), app_nil_r.
  by destruct (Z.eqb_spec c CR) as [->|Hr].
Qed.

(** The first character of an escaped text is a backslash, or the first
    character of the text. *)
Lemma escapeForTable_head (t : text) (d : Z) :
  d ≠ BACKSLASH → head t ≠ Some d → head (escapeForTable t) ≠ Some d.
Proof.
  intros Hd Ht. destruct t as [|c t]; [done|].
  rewrite escapeForTable_cons. simpl in Ht.
  destruct (c =? BACKSLASH); [simpl; congruence|].
  destruct (c =? LF); [simpl; congruence|].
  destruct (c =? CR); [simpl; congruence|]. done.
Qed.

Lemma plain_backslashes_cons (c : Z) (t : text) :
  plain_backslashes (c :: t) = true →
  plain_backslashes t = true
  ∧ (c = BACKSLASH → head t ≠ Some CHAR_n ∧ head t ≠ Some CHAR_r).
Proof.
  simpl. intros [Hc Ht]%andb_true_iff. split; [done|]. intros ->.
  destruct t as [|d t]; [done|]. simpl in *.
  change (BACKSLASH =? BACKSLASH) with true in Hc. simpl in Hc.
  apply negb_true_iff, orb_false_iff in Hc as [Hn Hr].
  apply Z.eqb_neq in Hn, Hr. split; congruence.
Qed.

(** The first replacement of the unescaping undoes the escaping of the
    newlines, and of nothing else, when no backslash of the text is
    followed by [n]. *)
Lemma unescape_n_escape_cons (c : Z) (t : text) :
  (c = BACKSLASH → head t ≠ Some CHAR_n) →
  str_replace [BACKSLASH; CHAR_n] [LF] (escapeForTable (c :: t))
  = (if c =? BACKSLASH then [BACKSLASH; BACKSLASH]
     else if c =? LF then [LF]
     else if c =? CR then [BACKSLASH; CHAR_r]
     else [c])
    ++ str_replace [BACKSLASH; CHAR_n] [LF] (escapeForTable t).
Proof.
  intros Hp. rewrite escapeForTable_cons.
  destruct (Z.eqb_spec c BACKSLASH) as [->|Hb].
  { simpl. rewrite str_replace_2_cons. simpl.
    rewrite str_replace_2_cons. simpl.
    rewrite bool_decide_eq_false_2; [done|].
    apply escapeForTable_head; [done | by apply Hp]. }
  destruct (Z.eqb_spec c LF) as [->|Hl].
  { simpl. by rewrite str_replace_2_cons. }
  destruct (Z.eqb_spec c CR) as [->|Hr].
  { simpl. rewrite str_replace_2_cons. simpl.
    by rewrite str_replace_2_cons. }
  simpl. rewrite str_replace_2_cons.
  by rewrite (proj2 (Z.eqb_neq BACKSLASH c)).
Qed.

Lemma unescape_n_escape_head (t : text) (d : Z) :
  plain_backslashes t = true → d ≠ BACKSLASH → d ≠ LF →
  head t ≠ Some d →
  head (str_replace [BACKSLASH; CHAR_n] [LF] (escapeForTable t)) ≠ Some d.
Proof.
  intros Hp Hd Hl Ht. destruct t as [|c t]; [done|].
  apply plain_backslashes_cons in Hp as [_ Hc].
  rewrite unescape_n_escape_cons by (intros; by apply Hc).
  simpl in Ht.
  destruct (c =? BACKSLASH); [simpl; congruence|].
  destruct (c =? LF); [simpl; congruence|].
  destruct (c =? CR); [simpl; congruence|]. done.
Qed.

(** The second replacement undoes the escaping of the carriage returns,
    when no backslash of the text is followed by [r] either. *)
Lemma unescape_r_escape_cons (c : Z) (t : text) :
  plain_backslashes (c :: t) = true →
  str_replace [BACKSLASH; CHAR_r] [CR]
    (str_replace [BACKSLASH; CHAR_n] [LF] (escapeForTable (c :: t)))
  = (if c =? BACKSLASH then [BACKSLASH; BACKSLASH] else [c])
    ++ str_replace [BACKSLASH; CHAR_r] [CR]
         (str_replace [BACKSLASH; CHAR_n] [LF] (escapeForTable t)).
Proof.
  intros Hp. apply plain_backslashes_cons in Hp as [Hp Hc].
  rewrite unescape_n_escape_cons by (intros; by apply Hc).
  destruct (Z.eqb_spec c BACKSLASH) as [->|Hb].
  { simpl. rewrite str_replace_2_cons. simpl.
    rewrite str_replace_2_cons. simpl.
    rewrite bool_decide_eq_false_2; [done|].
    apply unescape_n_escape_head; [done..|]. by apply Hc. }
  destruct (Z.eqb_spec c LF) as [->|Hl].
  { simpl. by rewrite str_replace_2_cons. }
  destruct (Z.eqb_spec c CR) as [->|Hr].
  { simpl. by rewrite str_replace_2_cons. }
  simpl. rewrite str_replace_2_cons.
  by rewrite (proj2 (Z.eqb_neq BACKSLASH c)).
Qed.

(** The round trip of the strings file is the identity on every text in
    which no backslash is followed by [n] or by [r]. *)
Lemma unescape_escape_plain (t : text) :
  plain_backslashes t = true → unescapeFromTable (escapeForTable t) = t.
Proof.
  unfold unescapeFromTable. induction t as [|c t IH]; intros Hp; [done|].
  rewrite unescape_r_escape_cons by done.
  apply plain_backslashes_cons in Hp as [Hp _]. specialize (IH Hp).
  destruct (Z.eqb_spec c BACKSLASH) as [->|Hb].
  - simpl. rewrite str_replace_2_cons. simpl. by rewrite IH.
  - simpl. rewrite str_replace_2_cons.
    rewrite (proj2 (Z.eqb_neq BACKSLASH c)) by done. simpl. by rewrite IH.
Qed.

(** C2: the round trip is not the identity: the text of a backslash and
    an [n] is written to the strings file as two backslashes and an [n],
    which the first replacement of the unescaping, of backslash-[n] by a
    newline, reads as a backslash and a newline. *)
Theorem unescape_escape_backslash_n :
  escapeForTable [BACKSLASH; CHAR_n] = [BACKSLASH; BACKSLASH; CHAR_n]
  ∧ unescapeFromTable (escapeForTable [BACKSLASH; CHAR_n]) = [BACKSLASH; LF]
  ∧ unescapeFromTable (escapeForTable [BACKSLASH; CHAR_n])
    ≠ [BACKSLASH; CHAR_n].
Proof. repeat split. vm_compute. discriminate. Qed.

(** ** The first pass: functions and labels *)

Lemma unpack_u32_Some_le (data : list byte) (pos v : Z) :
  unpack_u32 data pos = Some v → pos + 4 <= len data.
Proof.
  unfold unpack_u32, slice, len.
  destruct (take _ _) as [|b0 [|b1 [|b2 [|b3 [|b4 r]]]]] eqn:Ht; try done.
  intros _. apply (f_equal length) in Ht.
  rewrite length_take, length_drop in Ht. simpl in Ht. lia.
Qed.

Lemma is_jump_or_call_not_initstack (name : string) :
  is_jump_or_call name = true → name ≠ "initstack"%string.
Proof.
  intros Hj ->. vm_compute in Hj. discriminate.
Qed.

Lemma pass1_step_break (data : list byte) (code_end : Z)
    (st st' : pass1_state) :
  pass1_step data code_end st = Break st' → st' = st.
Proof.
  unfold pass1_step.
  repeat (match goal with
          | |- context [match ?x with _ => _ end] => destruct x
          end; simpl; try done; try congruence).
Qed.

Lemma collect_target_ok (data : list byte) (code_end : Z) (name : string)
    (pos : Z) (functions : gmap Z Z) (labels labels' : gmap Z text) :
  collect_target data code_end name pos functions labels = Some labels' →
  (∀ a l, labels !! a = Some l → 0 <= a < code_end ∧ l = label_name a) →
  ∀ a l, labels' !! a = Some l → 0 <= a < code_end ∧ l = label_name a.
Proof.
  unfold collect_target. intros Hc Hl.
  destruct (pos + 4 <=? len data); [|by injection Hc as <-].
  destruct (is_jump_or_call name); [|by injection Hc as <-].
  destruct (unpack_u32 data pos) as [target|] eqn:Hu; [|done]. simpl in Hc.
  destruct (target <? code_end) eqn:Ht; simpl in Hc;
    [|by injection Hc as <-].
  destruct (bool_decide (labels !! target = None)); simpl in Hc;
    [|by injection Hc as <-].
  destruct (bool_decide (functions !! target = None)); simpl in Hc;
    [|by injection Hc as <-].
  injection Hc as <-. intros a l.
  rewrite lookup_insert. case_decide as Ha.
  - intros [= <-]. subst a. apply unpack_u32_range in Hu. bool_cases.
    split; [lia | done].
  - apply Hl.
Qed.

Lemma pass1_step_maps_ok (data : list byte) (code_end : Z)
    (st st' : pass1_state) :
  pass1_maps_ok data code_end st →
  pass1_step data code_end st = Continue st' →
  pass1_maps_ok data code_end st'.
Proof.
  intros [Hl Hf]. unfold pass1_step.
  destruct (negb _); [done|]. destruct (len data <=? _); [done|].
  destruct (data_at data (p1_pos st)) as [b|] eqn:Hb; [|done].
  destruct (HCB_LAST_OPCODE <? byte_val b) eqn:Ho.
  { intros [= <-]. by split. }
  destruct (get_opcode_info (byte_val b)) as [[name arg]|]; [|done].
  bool_cases.
  assert (Hf' : ∀ a n,
    (if bool_decide (name = "initstack"%string)
     then (<[p1_pos st := p1_func_num st]> (p1_functions st),
           p1_func_num st + 1)
     else (p1_functions st, p1_func_num st)).1 !! a = Some n →
    ∃ b, data_at data a = Some b ∧ byte_val b <= HCB_LAST_OPCODE).
  { intros a n. destruct (bool_decide _); simpl; [|apply Hf].
    rewrite lookup_insert. case_decide as Ha; [|apply Hf].
    intros _. subst a. eauto. }
  destruct (if bool_decide _ then _ else _) as [functions func_num].
  simpl in Hf'.
  destruct arg; simpl.
  2: { destruct (collect_target _ _ _ _ _ _) as [labels'|] eqn:Hc; [|done].
       intros [= <-]. split; simpl; [|done].
       by eapply collect_target_ok. }
  6: { destruct (_ <? len data);
         [destruct (data_at data (p1_pos st + 1)); [|done]|];
         intros [= <-]; by split. }
  all: intros [= <-]; by split.
Qed.

Lemma pass1_maps_ok_end (data : list byte) (code_end : Z) (st : pass1_state) :
  pass1 data code_end = Done st → pass1_maps_ok data code_end st.
Proof.
  intros Hp.
  assert (Hi : pass1_maps_ok data code_end pass1_init)
    by (split; intros a x; simpl; by rewrite lookup_empty).
  destruct (while_invariant (pass1_step data code_end)
              (pass1_maps_ok data code_end)
              (pass1_step_maps_ok data code_end)
              _ _ _ Hi Hp) as (s0 & Hs0 & Hb).
  by apply pass1_step_break in Hb as ->.
Qed.

(** C5, as the code has it: at a [jmp], [jmpcond] or [call] whose four
    argument bytes decode to [target], the first pass allocates a new
    label at [target] if and only if [target] is below the entry point
    and is neither a label nor a function recorded so far; it tests no
    lower bound.  So every label of the first pass is below the entry
    point (and named after its address), while it may be below 4. *)
Theorem pass1_label_allocation (data : list byte) (code_end pos : Z)
    (b : byte) (name : string) (target func_num : Z)
    (functions : gmap Z Z) (labels : gmap Z text) :
  pos < code_end →
  data_at data pos = Some b →
  get_opcode_info (byte_val b) = Some (name, OPARG_X32) →
  is_jump_or_call name = true →
  unpack_u32 data (pos + 1) = Some target →
  pass1_step data code_end (Pass1 pos func_num functions labels)
  = Continue
      (Pass1 (pos + 5) func_num functions
         (if bool_decide (target < code_end ∧ labels !! target = None
                          ∧ functions !! target = None)
          then <[target := label_name target]> labels
          else labels))
  ∧ (∀ st a l,
       pass1 data code_end = Done st → p1_labels st !! a = Some l →
       0 <= a < code_end ∧ l = label_name a).
Proof.
  intros Hc Hb Hi Hj Hu. split.
  - pose proof (data_at_Some_lt _ _ _ Hb) as Hl.
    pose proof (unpack_u32_Some_le _ _ _ Hu) as Hl4.
    unfold pass1_step. simpl.
    rewrite (proj2 (Z.ltb_lt pos code_end)) by done. simpl.
    rewrite (proj2 (Z.leb_gt (len data) pos)) by done. rewrite Hb.
    assert (Ho : (HCB_LAST_OPCODE <? byte_val b) = false).
    { unfold get_opcode_info in Hi. by destruct (HCB_LAST_OPCODE <? _). }
    rewrite Ho, Hi.
    rewrite bool_decide_eq_false_2
      by by apply is_jump_or_call_not_initstack.
    unfold collect_target.
    rewrite (proj2 (Z.leb_le (pos + 1 + 4) (len data))) by lia.
    rewrite Hj, Hu. simpl.
    replace (pos + 1 + 4) with (pos + 5) by lia.
    destruct (Z.ltb_spec target code_end) as [Ht|Ht]; simpl;
      repeat case_bool_decide; simpl; try done; exfalso; intuition lia.
  - intros st a l Hp Hl. by apply (pass1_maps_ok_end _ _ _ Hp).
Qed.

Lemma pass1_label_allocation_witness :
  let data :=
    [x0d; x00; x00; x00; x06; x09; x00; x00; x00; x04; x04; x04; x04] in
  data_at data 4 = Some x06
  ∧ get_opcode_info (byte_val x06) = Some ("jmp"%string, OPARG_X32)
  ∧ unpack_u32 data 5 = Some 9
  ∧ pass1_step data 13 (Pass1 4 0 ∅ ∅)
    = Continue (Pass1 9 0 ∅ (<[9 := label_name 9]> ∅)).
Proof.
  intros data.
  assert (H1 : 4 < 13) by lia.
  assert (H2 : data_at data 4 = Some x06) by reflexivity.
  assert (H3 : get_opcode_info (byte_val x06)
               = Some ("jmp"%string, OPARG_X32)) by reflexivity.
  assert (H4 : is_jump_or_call "jmp" = true) by reflexivity.
  assert (H5 : unpack_u32 data (4 + 1) = Some 9) by reflexivity.
  exact (conj H2 (conj H3 (conj H5
           (proj1 (pass1_label_allocation data 13 4 x06 "jmp" 9 0 ∅ ∅
                     H1 H2 H3 H4 H5))))).
Defined.

(** C5 fails as stated: a [jmp] to address 0 gets a label, below the
    code segment, which starts at 4. *)
Lemma pass1_label_below_code_segment :
  ∃ st,
    pass1 [x09; x00; x00; x00; x06; x00; x00; x00; x00] 9 = Done st
    ∧ unpack_u32 [x09; x00; x00; x00; x06; x00; x00; x00; x00] 0 = Some 9
    ∧ p1_labels st !! 0 = Some (lit "label_00000000")
    ∧ 0 < 4.
Proof.
  eexists. split; [vm_compute; reflexivity|].
  split; [reflexivity|]. split; [vm_compute; reflexivity | lia].
Qed.

(** ** The second pass: lines *)

Section Listing.
Context `{Runtime}.






End Listing.


(** Two files that differ in a byte above [HCB_LAST_OPCODE] only: the
    listing is the same, and shows nothing of the byte. *)
Example listing_hides_unknown_bytes :
  hcb_decode [x06; x00; x00; x00; xff; x04]
  = Done (Decoded [lit "  ret"; []; lit "# ENTRY_POINT: 0x00000006"] []
            (0, 0))
  ∧ hcb_decode [x06; x00; x00; x00; xfe; x04]
    = hcb_decode [x06; x00; x00; x00; xff; x04].
Proof. split; vm_compute; reflexivity. Qed.


(** A [pushint] whose four bytes the file ends before: the [ret] before
    it and the entry point info are written. *)
Example truncated_pushint_listing :
  hcb_decode [x0a; x00; x00; x00; x04; x0a; x01]
  = Done (Decoded [lit "  ret"; []; lit "# ENTRY_POINT: 0x0000000A"] []
            (0, 0))
  ∧ reaches (pass2_step [x0a; x00; x00; x00; x04; x0a; x01] 10 ∅ ∅)
      pass2_init (Pass2 5 [lit "  ret"] [] 0 (-1))
  ∧ truncated_at [x0a; x00; x00; x00; x04; x0a; x01] 5.
Proof.
  split; [vm_compute; reflexivity|]. split.
  - eapply reaches_turn; [apply reaches_start|]. vm_compute. reflexivity.
  - exists x0a, "pushint"%string, OPARG_I32, 4.
    split; [reflexivity|]. split; [reflexivity|]. split; [reflexivity|].
    vm_compute. reflexivity.
Qed.

(** ** The rebuilder: the operand written for a string *)

Lemma last_app_singleton {A} (l : list A) (x : A) : last (l ++ [x]) = Some x.
Proof. by rewrite last_snoc. Qed.

Lemma last_Some_split {A} (l : list A) (x : A) :
  last l = Some x → ∃ l', l = l' ++ [x].
Proof.
  intros Hl. destruct l as [|y l] using rev_ind; [done|].
  rewrite last_snoc in Hl. injection Hl as ->. eauto.
Qed.

(** After line 446 the new string ends with a null byte: the encoded
    text itself when that ends with one, else the encoded text and a
    null byte. *)
Lemma ensure_nul_split (new_str : list byte) :
  ∃ content,
    ensure_nul new_str = content ++ [x00]
    ∧ (last new_str = Some x00 → content ++ [x00] = new_str)
    ∧ (last new_str ≠ Some x00 → content = new_str).
Proof.
  unfold ensure_nul. case_bool_decide as Hl.
  - destruct (last_Some_split _ _ Hl) as [content ->].
    exists content. by repeat split.
  - exists new_str. by repeat split.
Qed.

(** Lines 448-456 on a string that ends with a null byte, for an
    original length of at least one. *)
Lemma fit_length_terminated (content : list byte) (old_str_len : Z) :
  1 <= old_str_len →
  let operand := fit_length (content ++ [x00]) old_str_len in
  len operand = old_str_len
  ∧ last operand = Some x00
  ∧ (len content + 1 < old_str_len →
     operand
     = content
         ++ replicate (Z.to_nat (old_str_len - (len content + 1))) x20
         ++ [x00])
  ∧ (old_str_len < len content + 1 →
     operand = take (Z.to_nat (old_str_len - 1)) content ++ [x00])
  ∧ (len content + 1 = old_str_len → operand = content ++ [x00]).
Proof.
  intros HL. unfold fit_length. rewrite len_app.
  change (len [x00]) with 1.
  destruct (Z.ltb_spec (len content + 1) old_str_len) as [Hs|Hs].
  - unfold slice_to. simpl. rewrite length_app. simpl.
    replace (length content + 1 - Z.to_nat (- (-1)))%nat
      with (length content) by lia.
    rewrite take_app_length.
    repeat split; try lia.
    + unfold len in *.
      rewrite !length_app, length_replicate. simpl. lia.
    + by rewrite app_assoc, last_snoc.
  - destruct (Z.ltb_spec old_str_len (len content + 1)) as [Hg|Hg].
    + unfold slice_to.
      destruct (Z.ltb_spec (old_str_len - 1) 0) as [?|_]; [lia|].
      rewrite take_app_le by (unfold len in *; lia).
      repeat split; try lia.
      * unfold len in *. rewrite length_app, length_take. simpl. lia.
      * by rewrite last_snoc.
    + repeat split; try lia.
      * unfold len in *. rewrite length_app. simpl. lia.
      * by rewrite last_snoc.
Qed.

Lemma fit_length_ensure_nul_len (new_str : list byte) (old_str_len : Z) :
  1 <= old_str_len → len (fit_length (ensure_nul new_str) old_str_len)
                     = old_str_len.
Proof.
  intros HL. destruct (ensure_nul_split new_str) as (content & -> & _).
  by apply fit_length_terminated.
Qed.

(** The only opcode with a string argument is [0x0E], [pushstring]. *)
Lemma string_opcode (b : byte) (name : string) :
  get_opcode_info (byte_val b) = Some (name, OPARG_STRING) → b = x0e.
Proof.
  intros Hi. pose proof (byte_val_range b) as Hr.
  assert (Hv : byte_val b = 14).
  { unfold get_opcode_info in Hi.
    destruct (Z.ltb_spec HCB_LAST_OPCODE (byte_val b)) as [?|Hk]; [done|].
    unfold HCB_LAST_OPCODE in Hk.
    assert (∃ n, (n < 40)%nat ∧ byte_val b = Z.of_nat n) as (n & Hn & Hb)
      by (exists (Z.to_nat (byte_val b)); lia).
    rewrite Hb in Hi |- *. clear Hb Hk Hr.
    do 40 (destruct n as [|n]; [by vm_compute in Hi|]). lia. }
  pose proof (byte_of_Z_val b) as Hb. rewrite Hv in Hb.
  by injection Hb as <-.
Qed.

Lemma byte_val_0 (l : byte) : byte_val l = 0 → l = x00.
Proof.
  intros Hv. pose proof (byte_of_Z_val l) as Hb. rewrite Hv in Hb.
  by injection Hb as <-.
Qed.

Lemma slice_cons (data : list byte) (a c : Z) (b : byte) :
  0 <= a → a < c → data_at data a = Some b →
  slice data a c = b :: slice data (a + 1) c.
Proof.
  unfold slice, data_at. intros Ha Hc Hb.
  rewrite (drop_S _ _ _ Hb).
  replace (Z.to_nat (c - a)) with (S (Z.to_nat (c - (a + 1)))) by lia.
  replace (Z.to_nat (a + 1)) with (S (Z.to_nat a)) by lia. done.
Qed.

Section RebuiltStrings.
Context `{Runtime}.

(** The turn of the rebuilder at a [pushstring]. *)
Lemma rebuild_step_string (data : list byte) (code_end : Z)
    (replacements : gmap Z text) (pos : Z) (new_code : list byte)
    (messages : list message) (b l : byte) (name : string) :
  pos < code_end →
  data_at data pos = Some b →
  get_opcode_info (byte_val b) = Some (name, OPARG_STRING) →
  data_at data (pos + 1) = Some l →
  rebuild_step data code_end replacements (Rebuild pos new_code messages)
  = let r := replace_string replacements pos (byte_val l)
               (slice data (pos + 1 + 1) (pos + 1 + 1 + byte_val l))
               messages in
    match byte_of_Z (len r.1) with
    | Some l' =>
        Continue (Rebuild (pos + 1 + 1 + byte_val l)
                    ((new_code ++ [b]) ++ l' :: r.1) r.2)
    | None => Throw ValueError
    end.
Proof.
  intros Hc Hb Hi Hl. unfold rebuild_step. simpl.
  rewrite (proj2 (Z.ltb_lt _ _) Hc), Hb. simpl.
  assert (Ho : (HCB_LAST_OPCODE <? byte_val b) = false).
  { unfold get_opcode_info in Hi. by destruct (HCB_LAST_OPCODE <? _). }
  rewrite Ho, Hi, Hl.
  by destruct (replace_string _ _ _ _ _) as [new_str messages'].
Qed.


(** When the text of a replacement does not encode, and the original
    string is whole and ends with a null byte, the instruction is
    written as it was and the message names the address and the problem
    characters. *)
Lemma encoding_failure_keeps_terminated_string (data : list byte)
    (code_end : Z) (replacements : gmap Z text) (pos : Z)
    (new_code : list byte) (messages : list message) (b l : byte)
    (name : string) (t : text) (s e : nat) :
  0 <= pos < code_end →
  data_at data pos = Some b →
  get_opcode_info (byte_val b) = Some (name, OPARG_STRING) →
  data_at data (pos + 1) = Some l →
  replacements !! pos = Some t →
  cp932_encode t = inr (s, e) →
  pos + 2 + byte_val l <= len data →
  last (slice data (pos + 2) (pos + 2 + byte_val l)) = Some x00 →
  rebuild_step data code_end replacements (Rebuild pos new_code messages)
  = Continue
      (Rebuild (pos + 2 + byte_val l)
         (new_code ++ slice data pos (pos + 2 + byte_val l))
         (messages ++ [KeepingOriginal pos (take (e - s) (drop s t))])).
Proof.
  intros Hc Hb Hi Hl Hr He Hlen Hlast.
  pose proof (byte_val_range l) as HL.
  rewrite (rebuild_step_string _ _ _ _ _ _ _ _ _ (proj2 Hc) Hb Hi Hl).
  unfold replace_string. rewrite Hr, He. simpl.
  replace (pos + 1 + 1) with (pos + 2) by lia.
  pose proof (slice_length data (pos + 2) (byte_val l)
                ltac:(lia) ltac:(lia) Hlen) as Hs.
  unfold ensure_nul. rewrite bool_decide_eq_true_2 by done.
  unfold fit_length. rewrite Hs, !Z.ltb_irrefl, Hs, byte_of_Z_val.
  rewrite (slice_cons data pos _ b) by (done || lia).
  rewrite (slice_cons data (pos + 1) _ l) by (done || lia).
  replace (pos + 1 + 1) with (pos + 2) by lia.
  by rewrite <- app_assoc.
Qed.

End RebuiltStrings.


(** The scenario of the spec: the string "abc" and its null byte,
    replaced by "xy": "xy", one space, the null byte. *)
Example replaced_string_padded :
  hcb_rebuild [x0a; x00; x00; x00; x0e; x04; x61; x62; x63; x00]
    {[ 4 := lit "xy" ]}
  = Done (Rebuilt [x0a; x00; x00; x00; x0e; x04; x78; x79; x20; x00] []).
Proof. vm_compute. reflexivity. Qed.


(** C7: a string that does not end with a null byte, and a replacement
    whose text (U+00F1) does not encode: the message is there, but the
    last byte of the original string is overwritten with a null byte. *)
Theorem encoding_failure_overwrites_last_byte :
  cp932_encode [0xF1] = inr (0%nat, 1%nat)
  ∧ hcb_rebuild [x07; x00; x00; x00; x0e; x01; x61] {[ 4 := [0xF1] ]}
    = Done (Rebuilt [x07; x00; x00; x00; x0e; x01; x00]
              [KeepingOriginal 4 [0xF1]])
  ∧ [x07; x00; x00; x00; x0e; x01; x00]
    ≠ [x07; x00; x00; x00; x0e; x01; x61].
Proof. repeat split; try (vm_compute; reflexivity). discriminate. Qed.

(** ** The rebuilder: the length of the file *)

Lemma instr_size_pos (data : list byte) (pos size : Z) :
  instr_size data pos = Some size → 1 <= size.
Proof.
  unfold instr_size. destruct (data_at data pos) as [b|]; [|done]. simpl.
  destruct (HCB_LAST_OPCODE <? byte_val b); [intros [= <-]; lia|].
  destruct (get_opcode_info (byte_val b)) as [[name arg]|]; [|done]. simpl.
  destruct arg; simpl; try (intros [= <-]; lia).
  destruct (data_at data (pos + 1)) as [l|]; [|done]. simpl.
  intros [= <-]. pose proof (byte_val_range l). lia.
Qed.

Lemma tiles_le (fuel : nat) (data : list byte) (pos code_end : Z) :
  tiles fuel data pos code_end = true → pos <= code_end.
Proof.
  destruct fuel as [|fuel]; [done|]. simpl.
  destruct (Z.eqb_spec pos code_end); [lia|].
  destruct (Z.ltb_spec code_end pos); [done | lia].
Qed.

Lemma replaces_no_empty_string_lookup (data : list byte)
    (replacements : gmap Z text) (addr : Z) (t : text) :
  replaces_no_empty_string data replacements = true →
  replacements !! addr = Some t →
  empty_string_at data addr = false.
Proof.
  unfold replaces_no_empty_string. rewrite forallb_forall. intros Hall Hl.
  apply negb_true_iff, (Hall (addr, t)).
  by apply list_elem_of_In, elem_of_map_to_list.
Qed.

Section RebuiltLength.
Context `{Runtime}.

Lemma replace_string_len (replacements : gmap Z text) (old_addr : Z)
    (old_str_len : Z) (old_str : list byte) (messages : list message) :
  len old_str = old_str_len →
  (is_Some (replacements !! old_addr) → 1 <= old_str_len) →
  len (replace_string replacements old_addr old_str_len old_str messages).1
  = old_str_len.
Proof.
  intros Ho HL. unfold replace_string.
  destruct (replacements !! old_addr) as [t|]; [|done].
  specialize (HL ltac:(eauto)).
  destruct (cp932_encode t) as [encoded|[s e]]; simpl;
    by apply fit_length_ensure_nul_len.
Qed.




End RebuiltLength.



(** Other files the rebuilder does not keep the length of: an entry
    point below 4 (the header is written and the whole file appended),
    and an entry point beyond the end of the file (the traversal raises
    IndexError and nothing is written). *)
Example hcb_rebuild_malformed_entry_point :
  hcb_rebuild [x00; x00; x00; x00] {[ 4 := lit "a" ]}
  = Done (Rebuilt [x00; x00; x00; x00; x00; x00; x00; x00] [])
  ∧ hcb_rebuild [x08; x00; x00; x00; x04] {[ 4 := lit "a" ]}
    = Raise IndexError.
Proof. split; vm_compute; reflexivity. Qed.

(** ** The rebuilder: strings without replacement *)

Lemma slice_nil (data : list byte) (a : Z) : slice data a a = [].
Proof. unfold slice. by rewrite Z.sub_diag. Qed.

Lemma slice_app (data : list byte) (a b c : Z) :
  0 <= a <= b → b <= c →
  slice data a b ++ slice data b c = slice data a c.
Proof.
  intros Hab Hbc. unfold slice.
  replace (Z.to_nat b) with (Z.to_nat a + Z.to_nat (b - a))%nat by lia.
  rewrite <- drop_drop, take_take_drop. f_equal. lia.
Qed.

Lemma replaces_no_string_lookup (data : list byte)
    (replacements : gmap Z text) (addr : Z) :
  replaces_no_string data replacements = true →
  data_at data addr = Some x0e →
  replacements !! addr = None.
Proof.
  unfold replaces_no_string. rewrite forallb_forall. intros Hall Hd.
  destruct (replacements !! addr) as [t|] eqn:Hl; [|done].
  assert (Hin : In (addr, t) (map_to_list replacements))
    by by apply list_elem_of_In, elem_of_map_to_list.
  apply Hall, negb_true_iff in Hin. simpl in Hin.
  by rewrite bool_decide_eq_true_2 in Hin.
Qed.

Section Untouched.
Context `{Runtime}.

(** A turn of the rebuilder at an instruction that lies in the file,
    and is no string with a replacement, copies the instruction. *)
Lemma rebuild_step_copies (data : list byte) (code_end : Z)
    (replacements : gmap Z text) (pos : Z) (new_code : list byte)
    (messages : list message) (size : Z) :
  0 <= pos < code_end →
  instr_size data pos = Some size →
  pos + size <= len data →
  (data_at data pos = Some x0e → replacements !! pos = None) →
  rebuild_step data code_end replacements (Rebuild pos new_code messages)
  = Continue (Rebuild (pos + size)
                (new_code ++ slice data pos (pos + size)) messages).
Proof.
  intros Hp Hs Hl Hr. unfold instr_size in Hs.
  destruct (data_at data pos) as [b|] eqn:Hb; [|done]. simpl in Hs.
  assert (Hsl : ∀ n, 0 <= n →
    (new_code ++ [b]) ++ slice data (pos + 1) (pos + 1 + n)
    = new_code ++ slice data pos (pos + (1 + n))).
  { intros n Hn. rewrite (slice_cons data pos _ b) by (done || lia).
    rewrite <- app_assoc. simpl. do 3 f_equal. lia. }
  destruct (HCB_LAST_OPCODE <? byte_val b) eqn:Ho.
  { injection Hs as <-. unfold rebuild_step. simpl.
    rewrite (proj2 (Z.ltb_lt _ _) (proj2 Hp)), Hb, Ho. simpl.
    by rewrite (slice_cons data pos _ b), slice_nil by (done || lia). }
  destruct (get_opcode_info (byte_val b)) as [[name arg]|] eqn:Hi; [|done].
  simpl in Hs. destruct arg; simpl in Hs.
  1-6: injection Hs as <-; unfold rebuild_step; simpl;
    rewrite (proj2 (Z.ltb_lt _ _) (proj2 Hp)), Hb, Ho, Hi; simpl.
  - by rewrite Z.add_0_r, (slice_cons data pos _ b), slice_nil
      by (done || lia).
  - by rewrite Hsl, Z.add_assoc by lia.
  - by rewrite Hsl, Z.add_assoc by lia.
  - by rewrite Hsl, Z.add_assoc by lia.
  - destruct (data_at_is_Some data (pos + 1)) as [a Ha]; [lia|]. rewrite Ha.
    rewrite (slice_cons data pos _ b) by (done || lia).
    rewrite (slice_cons data (pos + 1) _ a) by (done || lia).
    replace (pos + (1 + 1)) with (pos + 1 + 1) by lia.
    by rewrite slice_nil, <- app_assoc.
  - by rewrite Hsl, Z.add_assoc by lia.
  - destruct (data_at data (pos + 1)) as [l|] eqn:Hl1; [|done].
    simpl in Hs. injection Hs as <-.
    pose proof (byte_val_range l) as HL.
    rewrite (rebuild_step_string _ _ _ _ _ _ _ _ _ (proj2 Hp) Hb Hi Hl1).
    pose proof Hi as Hi'. apply string_opcode in Hi' as ->.
    unfold replace_string. rewrite (Hr eq_refl). simpl.
    rewrite slice_length, byte_of_Z_val by lia.
    rewrite (slice_cons data pos _ x0e) by (done || lia).
    rewrite (slice_cons data (pos + 1) _ l) by (done || lia).
    replace (pos + (2 + byte_val l)) with (pos + 1 + 1 + byte_val l) by lia.
    by rewrite <- app_assoc.
Qed.

Lemma rebuild_loop_copies (data : list byte) (code_end : Z)
    (replacements : gmap Z text) :
  code_end <= len data →
  replaces_no_string data replacements = true →
  ∀ fuel pos new_code messages,
    0 <= pos →
    tiles fuel data pos code_end = true →
    while fuel (rebuild_step data code_end replacements)
      (Rebuild pos new_code messages)
    = Done (Rebuild code_end (new_code ++ slice data pos code_end) messages).
Proof.
  intros Hce Hrep fuel.
  induction fuel as [|fuel IH]; intros pos new_code messages Hp Ht; [done|].
  simpl in Ht.
  destruct (Z.eqb_spec pos code_end) as [->|Hne].
  { rewrite slice_nil, app_nil_r. apply while_break.
    unfold rebuild_step. simpl. by rewrite Z.ltb_irrefl. }
  destruct (Z.ltb_spec code_end pos) as [?|Hlt]; [done|].
  destruct (instr_size data pos) as [size|] eqn:Hs; [|done].
  pose proof (tiles_le _ _ _ _ Ht) as Hle.
  pose proof (instr_size_pos _ _ _ Hs) as Hsz.
  rewrite (while_continue _ _ _ _
             (rebuild_step_copies data code_end replacements pos new_code
                messages size ltac:(lia) Hs ltac:(lia)
                (replaces_no_string_lookup _ _ _ Hrep))).
  rewrite IH by (done || lia).
  by rewrite <- app_assoc, slice_app by lia.
Qed.

(** The traversal of the rebuilder re-serializes a well-formed file
    unchanged when no replacement is at the address of a [pushstring]. *)
Lemma hcb_rebuild_untouched_strings (data : list byte)
    (replacements : gmap Z text) :
  well_formed data = true →
  replaces_no_string data replacements = true →
  hcb_rebuild data replacements = Done (Rebuilt data []).
Proof.
  intros Hwf Hrep. unfold hcb_rebuild.
  case_bool_decide as He; [done|].
  unfold well_formed in Hwf.
  destruct (unpack_u32 data 0) as [entry_point|] eqn:Hu; [|done].
  apply andb_true_iff in Hwf as [[H4 Hl]%andb_true_iff Ht]. bool_cases.
  rewrite (rebuild_loop_copies data entry_point replacements Hl Hrep
             (length data) 4 [] [] ltac:(lia) Ht).
  rewrite (pack_unpack_header _ _ Hu). simpl. do 2 f_equal.
  unfold slice. change (Z.to_nat 4) with 4%nat.
  rewrite app_assoc, take_take_drop.
  replace (4 + Z.to_nat (entry_point - 4))%nat with (Z.to_nat entry_point)
    by lia.
  apply take_drop.
Qed.

End Untouched.

Lemma hcb_rebuild_untouched_strings_witness :
  let data := [x0a; x00; x00; x00; x0e; x04; x61; x62; x63; x00] in
  let replacements : gmap Z text := {[ 6 := lit "xy" ]} in
  well_formed data = true
  ∧ replaces_no_string data replacements = true
  ∧ hcb_rebuild data replacements = Done (Rebuilt data []).
Proof.
  intros data replacements.
  assert (H1 : well_formed data = true) by (vm_compute; reflexivity).
  assert (H2 : replaces_no_string data replacements = true)
    by (vm_compute; reflexivity).
  exact (conj H1 (conj H2
           (hcb_rebuild_untouched_strings (H := ascii_runtime)
              data replacements H1 H2))).
Defined.

Lemma unescape_escape_plain_witness :
  plain_backslashes (lit "C:\bin" ++ [LF]) = true
  ∧ unescapeFromTable (escapeForTable (lit "C:\bin" ++ [LF]))
    = lit "C:\bin" ++ [LF].
Proof.
  assert (H1 : plain_backslashes (lit "C:\bin" ++ [LF]) = true)
    by reflexivity.
  exact (conj H1 (unescape_escape_plain (lit "C:\bin" ++ [LF]) H1)).
Defined.

Lemma encoding_failure_keeps_terminated_string_witness :
  let data := [x0a; x00; x00; x00; x0e; x04; x61; x62; x63; x00] in
  cp932_encode [0xF1] = inr (0%nat, 1%nat)
  ∧ last (slice data (4 + 2) (4 + 2 + byte_val x04)) = Some x00
  ∧ rebuild_step data 10 {[ 4 := [0xF1] ]} (Rebuild 4 [] [])
    = Continue
        (Rebuild (4 + 2 + byte_val x04)
           ([] ++ slice data 4 (4 + 2 + byte_val x04))
           ([] ++ [KeepingOriginal 4 (take (1 - 0) (drop 0 [0xF1]))])).
Proof.
  intros data.
  assert (H1 : 0 <= 4 < 10) by lia.
  assert (H2 : data_at data 4 = Some x0e) by reflexivity.
  assert (H3 : get_opcode_info (byte_val x0e)
               = Some ("pushstring"%string, OPARG_STRING)) by reflexivity.
  assert (H4 : data_at data (4 + 1) = Some x04) by reflexivity.
  assert (H5 : ({[ 4 := [0xF1] ]} : gmap Z text) !! 4 = Some [0xF1])
    by (vm_compute; reflexivity).
  assert (H6 : cp932_encode [0xF1] = inr (0%nat, 1%nat)) by reflexivity.
  assert (H7 : 4 + 2 + byte_val x04 <= len data)
    by (vm_compute; discriminate).
  assert (H8 : last (slice data (4 + 2) (4 + 2 + byte_val x04)) = Some x00)
    by reflexivity.
  exact (conj H6 (conj H8
           (encoding_failure_keeps_terminated_string (H := ascii_runtime)
              data 10 {[ 4 := [0xF1] ]} 4 [] [] x0e x04 "pushstring"
              [0xF1] 0 1 H1 H2 H3 H4 H5 H6 H7 H8))).
Defined.

(** ** The scenarios of the specification *)

(** A function of three instructions. *)
Example scenario_function :
  hcb_decode [x0a; x00; x00; x00; x01; x02; x03; x0c; x05; x04]
  = Done (Decoded
            [ lit "# ===== FUNCTION 0 =====";
              lit "  initstack 2, 3";
              lit "  pushint 5";
              lit "  ret";
              [];
              lit "# ENTRY_POINT: 0x0000000A" ]
            [] (1, 0)).
Proof. vm_compute. reflexivity. Qed.

(** A string: its line, its record and its line of the strings file. *)
Example scenario_string :
  ∃ d,
    hcb_decode [x0a; x00; x00; x00; x0e; x04; x61; x62; x63; x00] = Done d
    ∧ listing d
      = [ [32; 32] ++ lit "pushstring " ++ [QUOTE] ++ lit "abc" ++ [QUOTE]
            ++ lit "  ; [STR_0000]";
          [];
          lit "# ENTRY_POINT: 0x0000000A" ]
    ∧ strings_list d = [(0, 4, lit "abc")]
    ∧ strings_file d = lit "0000|0x00000004|abc" ++ [LF].
Proof. eexists. repeat split; vm_compute; reflexivity. Qed.

(** A jump forward: the label is known when the jump is written. *)
Example scenario_forward_jump :
  hcb_decode [x0a; x00; x00; x00; x06; x09; x00; x00; x00; x04]
  = Done (Decoded
            [ lit "  jmp label_00000009";
              lit "label_00000009:";
              lit "  ret";
              [];
              lit "# ENTRY_POINT: 0x0000000A" ]
            [] (0, 0)).
Proof. vm_compute. reflexivity. Qed.

(** ** The fuel of the rebuilder *)

Section RebuilderFuel.
Context `{Runtime}.

Lemma rebuild_step_progress (data : list byte) (code_end : Z)
    (replacements : gmap Z text) (st st' : rebuild_state) :
  rebuild_step data code_end replacements st = Continue st' →
  rb_pos st < rb_pos st' ∧ rb_pos st < len data.
Proof.
  unfold rebuild_step. destruct (negb _); [done|].
  destruct (data_at data (rb_pos st)) as [b|] eqn:Hb; [|done].
  apply data_at_Some_lt in Hb.
  destruct (HCB_LAST_OPCODE <? byte_val b); [intros [= <-]; simpl; lia|].
  destruct (get_opcode_info (byte_val b)) as [[name arg]|]; [|done].
  destruct arg; simpl; try (intros [= <-]; simpl; lia).
  - destruct (data_at data (rb_pos st + 1)); [|done].
    intros [= <-]. simpl. lia.
  - destruct (data_at data (rb_pos st + 1)) as [l|]; [|done].
    destruct (replace_string _ _ _ _ _) as [new_str messages].
    destruct (byte_of_Z _); [|done].
    intros [= <-]. simpl. pose proof (byte_val_range l). lia.
Qed.

(** The traversal of the rebuilder is never cut by its fuel: it ends, or
    raises as the source does. *)
Lemma hcb_rebuild_fuel (data : list byte) (replacements : gmap Z text) :
  hcb_rebuild data replacements ≠ OutOfFuel.
Proof.
  unfold hcb_rebuild. case_bool_decide; [done|].
  destruct (unpack_u32 data 0) as [entry_point|] eqn:Hu; [|done].
  apply unpack_u32_Some_le in Hu.
  pose proof (while_fuel (rebuild_step data entry_point replacements)
                (λ _, True) (λ st, Z.to_nat (len data - rb_pos st))) as Hf.
  destruct (while _ _ _) eqn:Hw; [by destruct (pack_u32 _) | done |].
  exfalso. revert Hw. apply Hf; [|done|unfold len in *; simpl; lia].
  intros s s' _ Hs. apply rebuild_step_progress in Hs. split; [done | lia].
Qed.

End RebuilderFuel.

(** ** The opcode table, by code and by name *)

(** The entry of the table at an index has that index as its opcode,
    so that [HCB_OPCODES[opcode]] is the definition of [opcode]. *)
Lemma HCB_OPCODES_index (n : nat) (d : Z * string * oparg) :
  HCB_OPCODES !! n = Some d → d.1.1 = Z.of_nat n.
Proof.
  intros Hd. assert (Hn : (n < 40)%nat) by by apply lookup_lt_Some in Hd.
  do 40 (destruct n as [|n]; [by injection Hd as <-|]). lia.
Qed.

(** The two lookups of the table agree: the candidates that
    [get_opcode_by_name] lists for a name are exactly the opcodes whose
    [get_opcode_info] has that name, each with its argument type. *)
Theorem get_opcode_by_name_info (name : string) (opcode : Z) (arg : oparg) :
  0 <= opcode →
  (opcode, arg) ∈ get_opcode_by_name name
  ↔ get_opcode_info opcode = Some (name, arg).
Proof.
  intros Hop. unfold get_opcode_by_name, get_opcode_info.
  rewrite list_elem_of_fmap. split.
  - intros ([[op nm] a] & [= -> ->] & [Hn Hd]%list_elem_of_filter).
    simpl in Hn. subst nm.
    apply list_elem_of_lookup in Hd as [n Hd].
    pose proof (HCB_OPCODES_index _ _ Hd) as Hi. simpl in Hi. subst op.
    assert (Hn : (n < 40)%nat) by by apply lookup_lt_Some in Hd.
    destruct (Z.ltb_spec HCB_LAST_OPCODE (Z.of_nat n)) as [Hl|_];
      [unfold HCB_LAST_OPCODE in Hl; lia|].
    by rewrite Nat2Z.id, Hd.
  - destruct (Z.ltb_spec HCB_LAST_OPCODE opcode) as [?|_]; [done|].
    destruct (HCB_OPCODES !! Z.to_nat opcode) as [[[op nm] a]|] eqn:Hd;
      [|done].
    intros [= <- <-]. exists (op, nm, a).
    pose proof (HCB_OPCODES_index _ _ Hd) as Hi. simpl in Hi.
    split; [simpl; f_equal; lia|].
    apply list_elem_of_filter. split; [done|].
    by eapply list_elem_of_lookup_2.
Qed.

Lemma get_opcode_by_name_info_witness :
  0 <= 0x0B
  ∧ ((0x0B, OPARG_I16) ∈ get_opcode_by_name "pushint"
     ↔ get_opcode_info 0x0B = Some ("pushint"%string, OPARG_I16)).
Proof.
  assert (H1 : 0 <= 0x0B) by lia.
  exact (conj H1 (get_opcode_by_name_info "pushint" 0x0B OPARG_I16 H1)).
Defined.

(** ** The strings of the decoder *)

Section DecodedStrings.
Context `{Runtime}.

Lemma pass2_step_break_strings (data : list byte) (code_end : Z)
    (functions : gmap Z Z) (labels : gmap Z text) (st st' : pass2_state) :
  pass2_step data code_end functions labels st = Break st' →
  p2_strings st' = p2_strings st.
Proof.
  unfold pass2_step. destruct (negb _); [by intros [= <-]|].
  destruct (len data <=? _); [by intros [= <-]|].
  destruct (emit_markers _ _ _ _ _) as [l c].
  destruct (data_at data (p2_pos st)) as [b|]; [|done].
  destruct (HCB_LAST_OPCODE <? byte_val b); [done|].
  destruct (get_opcode_info _) as [[name arg]|]; [|done].
  destruct arg; simpl;
    repeat (match goal with
            | |- context [match ?x with _ => _ end] => destruct x
            end; simpl; try done);
    by intros [= <-].
Qed.

Lemma pass2_step_strings_ok (data : list byte) (code_end : Z)
    (functions : gmap Z Z) (labels : gmap Z text) (st st' : pass2_state) :
  pass2_strings_ok data code_end st →
  pass2_step data code_end functions labels st = Continue st' →
  pass2_strings_ok data code_end st'.
Proof.
  intros (Hpos & Hid & Hrec & Hinc). unfold pass2_step.
  destruct (p2_pos st <? code_end) eqn:Hc; simpl; [|done].
  destruct (len data <=? _); [done|]. bool_cases.
  destruct (emit_markers _ _ _ _ _) as [lines c].
  destruct (data_at data (p2_pos st)) as [b|] eqn:Hb; [|done].
  assert (Hkeep : ∀ pos',
    p2_pos st < pos' →
    pass2_strings_ok data code_end
      (Pass2 pos' lines (p2_strings st) (p2_string_id st) c)).
  { intros pos' Hp. split; [simpl; lia|]. split; [done|].
    split; [|done]. intros i r Hr. simpl.
    destruct (Hrec i r Hr) as (? & ? & ? & ? & ?).
    repeat split; try done; lia. }
  destruct (HCB_LAST_OPCODE <? byte_val b).
  { intros [= <-]. apply Hkeep. lia. }
  destruct (get_opcode_info _) as [[name arg]|] eqn:Hi; [|done].
  destruct arg; simpl.
  1-6: repeat (match goal with
               | |- context [match ?x with _ => _ end] => destruct x
               end; simpl; try done);
       intros [= <-];
       (split; [simpl; lia|]); (split; [done|]); (split; [|done]);
       intros i r Hr; simpl;
       destruct (Hrec i r Hr) as (? & ? & ? & ? & ?);
       repeat split; try done; lia.
  destruct (len data <=? _); [done|].
  destruct (data_at data (p2_pos st + 1)) as [l|] eqn:Hl; [|done].
  destruct (len data <? _); [done|].
  intros [= <-]. pose proof (byte_val_range l) as HL.
  pose proof Hi as Hop. apply string_opcode in Hop. subst b.
  split; [simpl; lia|]. split.
  { simpl. rewrite len_app, Hid. change (len [_]) with 1. done. }
  split.
  - intros i r. simpl. intros Hr.
    apply lookup_app_Some in Hr as [Hr|[Hge Hr]].
    + destruct (Hrec i r Hr) as (? & ? & ? & ? & ?).
      repeat split; try done; lia.
    + apply list_lookup_singleton_Some in Hr as [Hi0 <-]. simpl.
      split; [unfold len in Hid; lia|].
      split; [lia|]. split; [lia|]. split; [done|].
      exists l. split; [done|].
      by replace (p2_pos st + 2) with (p2_pos st + 1 + 1) by lia.
  - intros i j r r' Hij. simpl. intros Hr Hr'.
    apply lookup_app_Some in Hr' as [Hr'|[Hge Hr']].
    + apply lookup_lt_Some in Hr' as Hlt.
      rewrite lookup_app_l in Hr by lia. exact (Hinc i j r r' Hij Hr Hr').
    + apply list_lookup_singleton_Some in Hr' as [Hj0 <-]. simpl.
      rewrite lookup_app_l in Hr by lia.
      destruct (Hrec i r Hr) as (? & ? & ?). lia.
Qed.

(** The strings that the decoder extracts, in their order: the record at
    index [i] has the id [i]; its address is that of a [pushstring] of
    the code segment, and its text the string of that instruction,
    decoded and without its final null characters; and the addresses grow
    with the ids. *)
Theorem hcb_decode_strings_ordered (data : list byte) (d : decoded)
    (entry_point : Z) :
  hcb_decode data = Done d →
  unpack_u32 data 0 = Some entry_point →
  ∀ i r,
    strings_list d !! i = Some r →
    r.1.1 = Z.of_nat i
    ∧ 4 <= r.1.2 < entry_point
    ∧ data_at data r.1.2 = Some x0e
    ∧ (∃ l, data_at data (r.1.2 + 1) = Some l
            ∧ r.2 = rstrip_nul
                      (cp932_decode
                         (slice data (r.1.2 + 2) (r.1.2 + 2 + byte_val l))))
    ∧ ∀ j r', (i < j)%nat → strings_list d !! j = Some r' → r.1.2 < r'.1.2.
Proof.
  intros Hd He. unfold hcb_decode in Hd.
  destruct (len data <? 4); [done|]. rewrite He in Hd.
  destruct (pass1 data entry_point) as [st1| |]; [|done..].
  destruct (pass2 data entry_point _ _) as [st2| |] eqn:H2; [|done..].
  injection Hd as <-. simpl.
  assert (Hinit : pass2_strings_ok data entry_point pass2_init).
  { split; [simpl; lia|]. split; [done|]. split; intros *; by simpl. }
  destruct (while_invariant _ _
              (pass2_step_strings_ok data entry_point (p1_functions st1)
                 (p1_labels st1)) _ _ _ Hinit H2)
    as (s0 & (_ & _ & Hrec & Hinc) & Hb).
  rewrite (pass2_step_break_strings _ _ _ _ _ _ Hb).
  intros i r Hr. destruct (Hrec i r Hr) as (? & ? & ? & ? & ?).
  repeat split; try done; try lia.
  intros j r' Hij Hr'. exact (Hinc i j r r' Hij Hr Hr').
Qed.

End DecodedStrings.

Lemma hcb_decode_strings_ordered_witness :
  let data := [x0e; x00; x00; x00; x0e; x02; x61; x00;
               x04; x0e; x03; x62; x63; x00] in
  let d := Decoded
             [ [32; 32] ++ lit "pushstring " ++ [QUOTE] ++ lit "a"
                 ++ [QUOTE] ++ lit "  ; [STR_0000]";
               lit "  ret";
               [32; 32] ++ lit "pushstring " ++ [QUOTE] ++ lit "bc"
                 ++ [QUOTE] ++ lit "  ; [STR_0001]";
               [];
               lit "# ENTRY_POINT: 0x0000000E" ]
             [(0, 4, lit "a"); (1, 9, lit "bc")] (0, 2) in
  hcb_decode data = Done d
  ∧ unpack_u32 data 0 = Some 14
  ∧ ∀ i r,
      strings_list d !! i = Some r →
      r.1.1 = Z.of_nat i
      ∧ 4 <= r.1.2 < 14
      ∧ data_at data r.1.2 = Some x0e
      ∧ (∃ l, data_at data (r.1.2 + 1) = Some l
              ∧ r.2 = rstrip_nul
                        (cp932_decode
                           (slice data (r.1.2 + 2)
                              (r.1.2 + 2 + byte_val l))))
      ∧ ∀ j r', (i < j)%nat → strings_list d !! j = Some r' →
                r.1.2 < r'.1.2.
Proof.
  intros data d.
  assert (H1 : hcb_decode data = Done d) by (vm_compute; reflexivity).
  assert (H2 : unpack_u32 data 0 = Some 14) by reflexivity.
  exact (conj H1 (conj H2
           (hcb_decode_strings_ordered (H := ascii_runtime) data d 14
              H1 H2))).
Defined.

(** ** The two extractions of the strings *)

Section ExtractedStrings.
Context `{Runtime}.

(** At an instruction that lies in the file, the second pass of the
    decoder and the extraction go on alike. *)
Lemma pass2_extract_step (data : list byte) (code_end : Z)
    (functions : gmap Z Z) (labels : gmap Z text) (pos : Z)
    (lines : list text) (strings : list (Z * Z * text))
    (string_id current_func size : Z) :
  0 <= pos < code_end →
  instr_size data pos = Some size →
  pos + size <= len data →
  ∃ lines' strings' string_id' current_func',
    pass2_step data code_end functions labels
      (Pass2 pos lines strings string_id current_func)
    = Continue (Pass2 (pos + size) lines' strings' string_id' current_func')
    ∧ extract_step data code_end (Extract pos strings string_id)
      = Continue (Extract (pos + size) strings' string_id').
Proof.
  intros Hp Hs Hl. unfold instr_size in Hs.
  destruct (data_at data pos) as [b|] eqn:Hb; [|done]. simpl in Hs.
  pose proof (data_at_Some_lt _ _ _ Hb) as Hlt.
  unfold pass2_step, extract_step. simpl.
  rewrite (proj2 (Z.ltb_lt _ _) (proj2 Hp)), (proj2 (Z.leb_gt _ _) Hlt).
  simpl. destruct (emit_markers _ _ _ _ _) as [lines0 cf0]. rewrite Hb.
  destruct (HCB_LAST_OPCODE <? byte_val b) eqn:Ho.
  { injection Hs as <-. by eexists _, _, _, _. }
  destruct (get_opcode_info (byte_val b)) as [[name arg]|] eqn:Hi; [|done].
  simpl in Hs. destruct arg; simpl in Hs.
  1-6: injection Hs as <-.
  - rewrite Z.add_0_r. by eexists _, _, _, _.
  - rewrite (proj2 (Z.ltb_ge _ _)) by lia.
    destruct (unpack_u32_is_Some data (pos + 1)) as [v ->]; [lia..|].
    rewrite Z.add_assoc. by eexists _, _, _, _.
  - rewrite (proj2 (Z.ltb_ge _ _)) by lia.
    destruct (unpack_i32_is_Some data (pos + 1)) as [v ->]; [lia..|].
    rewrite Z.add_assoc. by eexists _, _, _, _.
  - rewrite (proj2 (Z.ltb_ge _ _)) by lia.
    destruct (unpack_i16_is_Some data (pos + 1)) as [v ->]; [lia..|].
    rewrite Z.add_assoc. by eexists _, _, _, _.
  - rewrite (proj2 (Z.leb_gt _ _)) by lia.
    destruct (unpack_i8_is_Some data (pos + 1)) as [v ->]; [lia|].
    rewrite Z.add_assoc. by eexists _, _, _, _.
  - rewrite (proj2 (Z.ltb_ge _ _)) by lia.
    destruct (unpack_i8_is_Some data (pos + 1)) as [v ->]; [lia|].
    destruct (unpack_i8_is_Some data (pos + 1 + 1)) as [w ->]; [lia|].
    rewrite Z.add_assoc. by eexists _, _, _, _.
  - destruct (data_at data (pos + 1)) as [l|] eqn:Hl1; [|done].
    simpl in Hs. injection Hs as <-.
    pose proof (data_at_Some_lt _ _ _ Hl1) as Hlt1.
    rewrite (proj2 (Z.leb_gt (len data) (pos + 1))) by lia.
    rewrite (proj2 (Z.ltb_ge (len data) (pos + 1 + 1 + byte_val l))) by lia.
    replace (pos + (2 + byte_val l)) with (pos + 1 + 1 + byte_val l) by lia.
    by eexists _, _, _, _.
Qed.

Lemma pass2_extract_loop (data : list byte) (code_end : Z)
    (functions : gmap Z Z) (labels : gmap Z text) :
  code_end <= len data →
  ∀ fuel pos lines strings string_id current_func,
    0 <= pos →
    tiles fuel data pos code_end = true →
    ∃ st2 ste,
      while fuel (pass2_step data code_end functions labels)
        (Pass2 pos lines strings string_id current_func) = Done st2
      ∧ while fuel (extract_step data code_end)
          (Extract pos strings string_id) = Done ste
      ∧ ex_strings ste = p2_strings st2.
Proof.
  intros Hce fuel.
  induction fuel as [|fuel IH];
    intros pos lines strings string_id current_func Hp Ht; [done|].
  simpl in Ht.
  destruct (Z.eqb_spec pos code_end) as [->|Hne].
  { exists (Pass2 code_end lines strings string_id current_func),
      (Extract code_end strings string_id).
    split; [|split; [|done]]; apply while_break.
    - unfold pass2_step. simpl. by rewrite Z.ltb_irrefl.
    - unfold extract_step. simpl. by rewrite Z.ltb_irrefl. }
  destruct (Z.ltb_spec code_end pos) as [?|Hlt]; [done|].
  destruct (instr_size data pos) as [size|] eqn:Hs; [|done].
  pose proof (tiles_le _ _ _ _ Ht) as Hle.
  pose proof (instr_size_pos _ _ _ Hs) as Hsz.
  destruct (pass2_extract_step data code_end functions labels pos lines
              strings string_id current_func size)
    as (lines' & strings' & sid' & cf' & H2 & He); [lia | done | lia |].
  destruct (IH (pos + size) lines' strings' sid' cf' ltac:(lia) Ht)
    as (st2 & ste & Hw2 & Hwe & Heq).
  exists st2, ste.
  by rewrite (while_continue _ _ _ _ H2), (while_continue _ _ _ _ He).
Qed.

(** On a well-formed file, [hcb_extract_strings] extracts the strings
    that [hcb_decode] extracts: the same ids, addresses and texts, in the
    same order. *)
Theorem hcb_extract_strings_as_decode (data : list byte) :
  well_formed data = true →
  ∃ d,
    hcb_decode data = Done d
    ∧ hcb_extract_strings data = Done (strings_list d).
Proof.
  intros Hwf. unfold well_formed in Hwf.
  destruct (unpack_u32 data 0) as [entry_point|] eqn:Hu; [|done].
  apply andb_true_iff in Hwf as [[H4 Hl]%andb_true_iff Ht]. bool_cases.
  destruct (hcb_decode_runs data ltac:(lia))
    as (e & st1 & st2 & He & H1 & H2 & Hd).
  rewrite Hu in He. injection He as <-.
  destruct (pass2_extract_loop data entry_point (p1_functions st1)
              (p1_labels st1) Hl (length data) 4 [] [] 0 (-1)
              ltac:(lia) Ht) as (st2' & ste & Hw2 & Hwe & Heq).
  unfold pass2, pass2_init in H2. rewrite Hw2 in H2. injection H2 as ->.
  eexists. split; [exact Hd|].
  unfold hcb_extract_strings. by rewrite Hu, Hwe, Heq.
Qed.

End ExtractedStrings.

Lemma hcb_extract_strings_as_decode_witness :
  let data := [x0e; x00; x00; x00; x0e; x02; x61; x00;
               x04; x0e; x03; x62; x63; x00] in
  well_formed data = true
  ∧ ∃ d,
      hcb_decode data = Done d
      ∧ hcb_extract_strings data = Done (strings_list d).
Proof.
  intros data.
  assert (H1 : well_formed data = true) by (vm_compute; reflexivity).
  exact (conj H1
           (hcb_extract_strings_as_decode (H := ascii_runtime) data H1)).
Defined.

(** Where the file ends before the argument of an instruction, the
    decoder stops and writes what it has; the extraction, which tests no
    length, raises at a missing length byte or opcode. *)
Example hcb_extract_strings_truncated :
  hcb_extract_strings [x06; x00; x00; x00; x0e]
  = Raise IndexError
  ∧ hcb_decode [x06; x00; x00; x00; x0e]
    = Done (Decoded [ []; lit "# ENTRY_POINT: 0x00000006" ] [] (0, 0))
  ∧ hcb_extract_strings [x01; x00] = Raise StructError.
Proof. repeat split; vm_compute; reflexivity. Qed.

(** ** The rebuilder: what it leaves as it is *)

Lemma instr_from_ge (data : list byte) (start a : Z) :
  instr_from data start a → start <= a.
Proof.
  induction 1 as [|a size _ IH Hs]; [lia|].
  apply instr_size_pos in Hs. lia.
Qed.

Lemma instr_from_first (data : list byte) (start a : Z) :
  instr_from data start a →
  a = start
  ∨ ∃ size, instr_size data start = Some size
            ∧ instr_from data (start + size) a.
Proof.
  induction 1 as [|a size _ [->|(s0 & Hs0 & IH)] Hs]; [by left|..].
  - right. exists size. split; [done|]. constructor.
  - right. exists s0. split; [done|]. by econstructor.
Qed.

Lemma instr_from_trans (data : list byte) (start a b : Z) :
  instr_from data start a → instr_from data a b → instr_from data start b.
Proof. intros Ha. induction 1; [done|]. by econstructor. Qed.

Lemma slice_lookup (data : list byte) (a c : Z) (i : nat) :
  0 <= a → Z.of_nat i < c - a →
  slice data a c !! i = data_at data (a + Z.of_nat i).
Proof.
  intros Ha Hi. unfold slice, data_at.
  rewrite lookup_take_lt by lia. rewrite lookup_drop. f_equal. lia.
Qed.

Lemma slice_app_r (l k : list byte) (a c : Z) :
  len l <= a → a <= c →
  slice (l ++ k) a c = slice k (a - len l) (c - len l).
Proof.
  intros Hl Hc. unfold slice, len in *.
  rewrite drop_app_ge by lia. f_equal; [lia|]. f_equal. lia.
Qed.

Lemma slice_app_l (l k : list byte) (c : Z) :
  c = len l → slice (l ++ k) 0 c = l.
Proof.
  intros ->. unfold slice, len. rewrite drop_0, Z.sub_0_r, Nat2Z.id.
  by rewrite take_app_length.
Qed.

Section Frame.
Context `{Runtime}.

(** A turn of the rebuilder at an instruction that lies in the file
    writes a chunk of the size of the instruction, with its opcode and,
    for a string, its length byte; the chunk is the instruction itself
    unless this is a string with a replacement. *)
Lemma rebuild_step_frame (data : list byte) (code_end : Z)
    (replacements : gmap Z text) (pos : Z) (new_code : list byte)
    (messages : list message) (size : Z) :
  0 <= pos < code_end →
  instr_size data pos = Some size →
  pos + size <= len data →
  (is_Some (replacements !! pos) → empty_string_at data pos = false) →
  ∃ chunk messages',
    rebuild_step data code_end replacements (Rebuild pos new_code messages)
    = Continue (Rebuild (pos + size) (new_code ++ chunk) messages')
    ∧ len chunk = size
    ∧ chunk !! 0%nat = data_at data pos
    ∧ (data_at data pos = Some x0e →
       chunk !! 1%nat = data_at data (pos + 1))
    ∧ (replacements !! pos = None ∨ data_at data pos ≠ Some x0e →
       chunk = slice data pos (pos + size)).
Proof.
  intros Hp Hs Hl Hr. pose proof (instr_size_pos _ _ _ Hs) as Hsz.
  destruct (decide (data_at data pos = Some x0e
                    ∧ is_Some (replacements !! pos))) as [[Hb Hsome]|Hno].
  - pose proof Hs as Hs'. unfold instr_size in Hs'. rewrite Hb in Hs'.
    simpl in Hs'.
    destruct (data_at data (pos + 1)) as [l|] eqn:Hl1; [|done].
    change (Some (2 + byte_val l) = Some size) in Hs'. injection Hs' as <-.
    pose proof (byte_val_range l) as HL.
    assert (HL1 : 1 <= byte_val l).
    { specialize (Hr Hsome).
      destruct (Z.eq_dec (byte_val l) 0) as [H0|]; [|lia].
      apply byte_val_0 in H0 as ->. unfold empty_string_at in Hr.
      rewrite bool_decide_eq_true_2 in Hr; done. }
    rewrite (rebuild_step_string data code_end replacements pos new_code
               messages x0e l "pushstring" (proj2 Hp) Hb eq_refl Hl1).
    simpl.
    set (r := replace_string replacements pos (byte_val l)
                (slice data (pos + 1 + 1) (pos + 1 + 1 + byte_val l))
                messages).
    assert (Hlen : len r.1 = byte_val l).
    { apply replace_string_len; [|done]. apply slice_length; lia. }
    rewrite Hlen, byte_of_Z_val.
    exists (x0e :: l :: r.1), r.2.
    replace (pos + 1 + 1 + byte_val l) with (pos + (2 + byte_val l)) by lia.
    split; [by rewrite <- app_assoc|].
    split.
    { change (x0e :: l :: r.1) with ([x0e; l] ++ r.1).
      rewrite len_app, Hlen. change (len [x0e; l]) with 2. lia. }
    split; [done|]. split; [done|].
    intros [Hnone|Hne]; [|done]. rewrite Hnone in Hsome.
    by destruct Hsome.
  - assert (Hc : data_at data pos = Some x0e → replacements !! pos = None).
    { intros Hb. destruct (replacements !! pos) eqn:E; [|done].
      destruct Hno. eauto. }
    exists (slice data pos (pos + size)), messages.
    split; [by apply rebuild_step_copies|].
    split; [apply slice_length; lia|].
    split; [rewrite slice_lookup by lia; f_equal; lia|].
    split; [|done]. intros Hb.
    rewrite slice_lookup; [done | lia |].
    unfold instr_size in Hs. rewrite Hb in Hs. simpl in Hs.
    destruct (data_at data (pos + 1)) as [l|]; [|done].
    change (Some (2 + byte_val l) = Some size) in Hs. injection Hs as <-.
    pose proof (byte_val_range l). simpl. lia.
Qed.

End Frame.

Lemma slice_app_within (l k : list byte) (a c : Z) :
  0 <= a <= c → c <= len l → slice (l ++ k) a c = slice l a c.
Proof.
  intros Ha Hc. unfold slice, len in *.
  rewrite drop_app_le by lia. rewrite take_app_le; [done|].
  rewrite length_drop. lia.
Qed.

(** The size of an instruction is read from its opcode and, for a
    string, from its length byte. *)
Lemma instr_size_ext (data data' : list byte) (a : Z) :
  data_at data' a = data_at data a →
  (data_at data a = Some x0e → data_at data' (a + 1) = data_at data (a + 1)) →
  instr_size data' a = instr_size data a.
Proof.
  intros Ha Hn. unfold instr_size. rewrite Ha.
  destruct (data_at data a) as [b|]; [|done]. simpl.
  destruct (HCB_LAST_OPCODE <? byte_val b); [done|].
  destruct (get_opcode_info (byte_val b)) as [[name arg]|] eqn:Hi; [|done].
  simpl. destruct arg; simpl; try done.
  apply string_opcode in Hi as ->. by rewrite Hn.
Qed.

Section FrameLoop.
Context `{Runtime}.

Lemma rebuild_loop_frame (data : list byte) (code_end : Z)
    (replacements : gmap Z text) :
  code_end <= len data →
  replaces_no_empty_string data replacements = true →
  ∀ fuel pos new_code messages,
    0 <= pos →
    tiles fuel data pos code_end = true →
    ∃ rest messages',
      while fuel (rebuild_step data code_end replacements)
        (Rebuild pos new_code messages)
      = Done (Rebuild code_end (new_code ++ rest) messages')
      ∧ len rest = code_end - pos
      ∧ ∀ a size,
          instr_from data pos a → a < code_end →
          instr_size data a = Some size →
          a + size <= code_end
          ∧ slice rest (a - pos) (a - pos + size) !! 0%nat = data_at data a
          ∧ (data_at data a = Some x0e →
             slice rest (a - pos) (a - pos + size) !! 1%nat
             = data_at data (a + 1))
          ∧ (replacements !! a = None ∨ data_at data a ≠ Some x0e →
             slice rest (a - pos) (a - pos + size)
             = slice data a (a + size)).
Proof.
  intros Hce Hrep fuel.
  induction fuel as [|fuel IH]; intros pos new_code messages Hp Ht; [done|].
  simpl in Ht.
  destruct (Z.eqb_spec pos code_end) as [->|Hne].
  { exists [], messages. rewrite app_nil_r. split.
    - apply while_break. unfold rebuild_step. simpl.
      by rewrite Z.ltb_irrefl.
    - split; [unfold len; simpl; lia|].
      intros a size Ha Hlt _. apply instr_from_ge in Ha. lia. }
  destruct (Z.ltb_spec code_end pos) as [?|Hlt]; [done|].
  destruct (instr_size data pos) as [size0|] eqn:Hs0; [|done].
  pose proof (tiles_le _ _ _ _ Ht) as Hle.
  pose proof (instr_size_pos _ _ _ Hs0) as Hsz.
  destruct (rebuild_step_frame data code_end replacements pos new_code
              messages size0)
    as (chunk & msgs0 & Hstep & Hlen & Hc0 & Hc1 & Hcs);
    [lia | done | lia | |].
  { intros [t Hl]. by eapply replaces_no_empty_string_lookup. }
  destruct (IH (pos + size0) (new_code ++ chunk) msgs0 ltac:(lia) Ht)
    as (rest & msgs' & Hw & Hrl & Hfacts).
  exists (chunk ++ rest), msgs'. split.
  { by rewrite (while_continue _ _ _ _ Hstep), Hw, app_assoc. }
  split; [rewrite len_app; lia|].
  intros a size Ha Halt Hs.
  destruct (instr_from_first _ _ _ Ha) as [->|(s0 & Hs0' & Ha')].
  - rewrite Hs0 in Hs. injection Hs as <-.
    rewrite Z.sub_diag, slice_app_l by lia. repeat split; try done; lia.
  - rewrite Hs0 in Hs0'. injection Hs0' as <-.
    pose proof (instr_from_ge _ _ _ Ha') as Hge.
    pose proof (instr_size_pos _ _ _ Hs) as Hsz'.
    rewrite slice_app_r by lia. rewrite Hlen.
    replace (a - pos - size0) with (a - (pos + size0)) by lia.
    replace (a - pos + size - size0) with (a - (pos + size0) + size) by lia.
    by apply Hfacts.
Qed.

(** The rebuilder changes the operands of the strings that have a
    replacement, and nothing else.  For a well-formed file and
    replacements none of which is for a string of length zero: the bytes
    from the entry point on are those of the original; every instruction
    of the original is an instruction of the rebuilt file, at the same
    address, with the same opcode and the same size; and an instruction
    that is no string with a replacement is written byte for byte. *)
Theorem hcb_rebuild_frame (data : list byte) (replacements : gmap Z text)
    (entry_point : Z) :
  well_formed data = true →
  replaces_no_empty_string data replacements = true →
  unpack_u32 data 0 = Some entry_point →
  ∃ r,
    hcb_rebuild data replacements = Done r
    ∧ drop (Z.to_nat entry_point) (output_data r)
      = drop (Z.to_nat entry_point) data
    ∧ ∀ a size,
        instr_from data 4 a → a < entry_point →
        instr_size data a = Some size →
        instr_from (output_data r) 4 a
        ∧ instr_size (output_data r) a = Some size
        ∧ data_at (output_data r) a = data_at data a
        ∧ (replacements !! a = None ∨ data_at data a ≠ Some x0e →
           slice (output_data r) a (a + size) = slice data a (a + size)).
Proof.
  intros Hwf Hrep Hu. unfold hcb_rebuild.
  case_bool_decide as He.
  { eexists. split; [done|]. split; [done|]. simpl. by intros a size. }
  unfold well_formed in Hwf. rewrite Hu in *.
  apply andb_true_iff in Hwf as [[H4 Hl]%andb_true_iff Ht]. bool_cases.
  destruct (rebuild_loop_frame data entry_point replacements Hl Hrep
              (length data) 4 [] [] ltac:(lia) Ht)
    as (rest & msgs & -> & Hrl & Hfacts).
  rewrite (pack_unpack_header _ _ Hu). simpl.
  eexists. split; [done|]. simpl.
  set (out := take 4 data ++ rest ++ drop (Z.to_nat entry_point) data).
  assert (Hh : len (take 4 data) = 4)
    by (unfold len in *; rewrite length_take; lia).
  split.
  { unfold out. rewrite app_assoc. apply drop_app_length'.
    unfold len in *. rewrite length_app. lia. }
  assert (Hslice : ∀ a size,
    4 <= a → 1 <= size → a + size <= entry_point →
    slice out a (a + size) = slice rest (a - 4) (a - 4 + size)).
  { intros a size Ha Hsz Hae. unfold out.
    rewrite slice_app_r by lia. rewrite Hh.
    rewrite slice_app_within by lia. f_equal. lia. }
  assert (Hlen_out : len out = len data).
  { unfold out. rewrite !len_app, Hh, Hrl. unfold len.
    rewrite length_drop. unfold len in *. lia. }
  assert (Hrow : ∀ a size,
    instr_from data 4 a → a < entry_point →
    instr_size data a = Some size →
    a + size <= entry_point
    ∧ data_at out a = data_at data a
    ∧ instr_size out a = Some size
    ∧ (replacements !! a = None ∨ data_at data a ≠ Some x0e →
       slice out a (a + size) = slice data a (a + size))).
  { intros a size Ha Hlt Hs.
    pose proof (instr_from_ge _ _ _ Ha) as Hge.
    pose proof (instr_size_pos _ _ _ Hs) as Hsz.
    destruct (Hfacts a size Ha Hlt Hs) as (Hae & Hc0 & Hc1 & Hcs).
    pose proof (Hslice a size Hge Hsz Hae) as Hsl.
    rewrite <- Hsl in Hc0, Hc1, Hcs.
    rewrite slice_lookup in Hc0 by lia.
    rewrite Z.add_0_r in Hc0.
    split; [done|]. split; [done|]. split; [|done].
    rewrite <- Hs. apply instr_size_ext; [done|].
    intros Hb. specialize (Hc1 Hb).
    rewrite slice_lookup in Hc1; [done | lia |].
    unfold instr_size in Hs. rewrite Hb in Hs. simpl in Hs.
    destruct (data_at data (a + 1)) as [l|]; [|done].
    change (Some (2 + byte_val l) = Some size) in Hs. injection Hs as <-.
    pose proof (byte_val_range l). simpl. lia. }
  assert (Hwalk : ∀ a,
    instr_from data 4 a → a <= entry_point → instr_from out 4 a).
  { induction 1 as [|a size Ha IH Hs]; [constructor|]. intros Hae.
    pose proof (instr_size_pos _ _ _ Hs) as Hsz.
    destruct (Hrow a size Ha ltac:(lia) Hs) as (_ & _ & Hso & _).
    econstructor; [apply IH; lia | done]. }
  intros a size Ha Hlt Hs.
  destruct (Hrow a size Ha Hlt Hs) as (_ & Hb & Hso & Hcs).
  split; [apply Hwalk; [done | lia]|]. by repeat split.
Qed.

End FrameLoop.

Lemma hcb_rebuild_frame_witness :
  let data := [x0b; x00; x00; x00; x0e; x04; x61; x62; x63; x00; x04] in
  let replacements : gmap Z text := {[ 4 := lit "xy" ]} in
  well_formed data = true
  ∧ replaces_no_empty_string data replacements = true
  ∧ unpack_u32 data 0 = Some 11
  ∧ ∃ r,
      hcb_rebuild data replacements = Done r
      ∧ drop (Z.to_nat 11) (output_data r) = drop (Z.to_nat 11) data
      ∧ ∀ a size,
          instr_from data 4 a → a < 11 →
          instr_size data a = Some size →
          instr_from (output_data r) 4 a
          ∧ instr_size (output_data r) a = Some size
          ∧ data_at (output_data r) a = data_at data a
          ∧ (replacements !! a = None ∨ data_at data a ≠ Some x0e →
             slice (output_data r) a (a + size) = slice data a (a + size)).
Proof.
  intros data replacements.
  assert (H1 : well_formed data = true) by (vm_compute; reflexivity).
  assert (H2 : replaces_no_empty_string data replacements = true)
    by (vm_compute; reflexivity).
  assert (H3 : unpack_u32 data 0 = Some 11) by reflexivity.
  exact (conj H1 (conj H2 (conj H3
           (hcb_rebuild_frame (H := ascii_runtime) data replacements 11
              H1 H2 H3)))).
Defined.

(** ** The two passes of the decoder together *)

(** A relation that the turns of a loop keep holds between a state the
    loop goes through and the state it ends in. *)
Lemma while_preserves {St : Type} (step : St → step_result St)
    (R : St → St → Prop) :
  (∀ s, R s s) →
  (∀ s s' r, step s = Continue s' → R s' r → R s r) →
  (∀ s r, step s = Break r → R s r) →
  ∀ fuel s r, while fuel step s = Done r → R s r.
Proof.
  intros Hrefl Hcont Hbreak fuel.
  induction fuel as [|fuel IH]; intros s r; [done|]. simpl.
  destruct (step s) as [s'|s'|e] eqn:Hs; [|intros [= <-]; eauto|done].
  intros Hw. eapply Hcont; eauto.
Qed.

Lemma collect_target_grows (data : list byte) (code_end : Z) (name : string)
    (pos : Z) (functions : gmap Z Z) (labels labels' : gmap Z text) :
  collect_target data code_end name pos functions labels = Some labels' →
  dom labels ⊆ dom labels'.
Proof.
  unfold collect_target.
  destruct (pos + 4 <=? len data); [|by intros [= <-]].
  destruct (is_jump_or_call name); [|by intros [= <-]].
  destruct (unpack_u32 data pos) as [target|]; [|done]. simpl.
  destruct (_ && _); intros [= <-]; [|done].
  rewrite dom_insert_L. apply union_subseteq_r.
Qed.

(** The first pass only adds to its maps. *)
Lemma pass1_step_grows (data : list byte) (code_end : Z)
    (s s' : pass1_state) :
  pass1_step data code_end s = Continue s' →
  dom (p1_labels s) ⊆ dom (p1_labels s')
  ∧ dom (p1_functions s) ⊆ dom (p1_functions s').
Proof.
  unfold pass1_step. destruct (negb _); [done|].
  destruct (len data <=? _); [done|].
  destruct (data_at data (p1_pos s)) as [b|]; [|done].
  destruct (HCB_LAST_OPCODE <? byte_val b); [by intros [= <-]|].
  destruct (get_opcode_info (byte_val b)) as [[name arg]|]; [|done].
  assert (Hf : dom (p1_functions s)
    ⊆ dom (if bool_decide (name = "initstack"%string)
           then (<[p1_pos s := p1_func_num s]> (p1_functions s),
                 p1_func_num s + 1)
           else (p1_functions s, p1_func_num s)).1).
  { destruct (bool_decide _); simpl; [|done]. rewrite dom_insert_L.
    apply union_subseteq_r. }
  destruct (if bool_decide _ then _ else _) as [functions func_num].
  simpl in Hf. destruct arg; simpl.
  2: { destruct (collect_target _ _ _ _ _ _) as [labels'|] eqn:Hc; [|done].
       intros [= <-]. simpl. split; [|done].
       by eapply collect_target_grows. }
  6: { destruct (_ <? len data);
         [destruct (data_at data (p1_pos s + 1)); [|done]|];
         by intros [= <-]. }
  all: by intros [= <-].
Qed.

Lemma pass1_reaches_grows (data : list byte) (code_end : Z)
    (s final : pass1_state) :
  reaches (pass1_step data code_end) pass1_init s →
  pass1 data code_end = Done final →
  dom (p1_labels s) ⊆ dom (p1_labels final)
  ∧ dom (p1_functions s) ⊆ dom (p1_functions final).
Proof.
  intros Hr Hp. destruct (while_reaches _ _ _ _ _ Hr Hp) as [fuel Hw].
  revert Hw.
  apply (while_preserves (pass1_step data code_end)
           (λ s r, dom (p1_labels s) ⊆ dom (p1_labels r)
                   ∧ dom (p1_functions s) ⊆ dom (p1_functions r))).
  - done.
  - intros s0 s' r Hs [Hl Hf].
    destruct (pass1_step_grows _ _ _ _ Hs) as [Hl' Hf'].
    split; etrans; done.
  - intros s0 r Hb. by apply pass1_step_break in Hb as ->.
Qed.

Section TwoPasses.
Context `{Runtime}.

(** Where the second pass goes on, the first pass goes on to the same
    address. *)
Lemma pass2_pass1_step (data : list byte) (code_end : Z)
    (functions : gmap Z Z) (labels : gmap Z text) (st st' : pass2_state)
    (s : pass1_state) :
  p1_pos s = p2_pos st →
  pass2_step data code_end functions labels st = Continue st' →
  ∃ s', pass1_step data code_end s = Continue s' ∧ p1_pos s' = p2_pos st'.
Proof.
  intros Hpos. unfold pass2_step, pass1_step. rewrite Hpos.
  destruct (negb _); [done|]. destruct (len data <=? _); [done|].
  destruct (emit_markers _ _ _ _ _) as [lines c].
  destruct (data_at data (p2_pos st)) as [b|]; [|done].
  destruct (HCB_LAST_OPCODE <? byte_val b).
  { intros [= <-]. by eexists. }
  destruct (get_opcode_info (byte_val b)) as [[name arg]|]; [|done].
  destruct (if bool_decide _ then _ else _) as [fs fn].
  destruct arg; simpl.
  - intros [= <-]. by eexists.
  - destruct (len data <? _) eqn:H4; [done|]. bool_cases.
    destruct (unpack_u32 data (p2_pos st + 1)) as [v|] eqn:Hv; [|done].
    intros [= <-]. unfold collect_target. rewrite Hv. simpl.
    repeat (match goal with
            | |- context [if ?x then _ else _] => destruct x
            end; simpl); by eexists.
  - destruct (len data <? _); [done|].
    destruct (unpack_i32 data _); [|done]. intros [= <-]. by eexists.
  - destruct (len data <? _); [done|].
    destruct (unpack_i16 data _); [|done]. intros [= <-]. by eexists.
  - destruct (len data <=? _); [done|].
    destruct (unpack_i8 data _); [|done]. intros [= <-]. by eexists.
  - destruct (len data <? _); [done|].
    destruct (unpack_i8 data _); [|done].
    destruct (unpack_i8 data _); [|done]. intros [= <-]. by eexists.
  - destruct (len data <=? p2_pos st + 1) eqn:H1; [done|]. bool_cases.
    rewrite (proj2 (Z.ltb_lt _ _)) by lia.
    destruct (data_at data (p2_pos st + 1)) as [l|]; [|done].
    destruct (len data <? _); [done|]. intros [= <-]. simpl.
    eexists. split; [done|]. simpl. lia.
Qed.

Lemma pass2_reaches_pass1 (data : list byte) (code_end : Z)
    (functions : gmap Z Z) (labels : gmap Z text) (st : pass2_state) :
  reaches (pass2_step data code_end functions labels) pass2_init st →
  ∃ s, reaches (pass1_step data code_end) pass1_init s
       ∧ p1_pos s = p2_pos st.
Proof.
  induction 1 as [|st st' _ (s & Hr & Hp) Hs].
  - exists pass1_init. split; [constructor | done].
  - destruct (pass2_pass1_step _ _ _ _ _ _ _ Hp Hs) as (s' & Hs' & Hp').
    exists s'. split; [by econstructor | done].
Qed.

End TwoPasses.

Lemma pass1_step_jump_target (data : list byte) (code_end : Z)
    (s : pass1_state) (b : byte) (name : string) (target : Z) :
  p1_pos s < code_end →
  data_at data (p1_pos s) = Some b →
  get_opcode_info (byte_val b) = Some (name, OPARG_X32) →
  is_jump_or_call name = true →
  unpack_u32 data (p1_pos s + 1) = Some target →
  target < code_end →
  ∃ s',
    pass1_step data code_end s = Continue s'
    ∧ (target ∈ dom (p1_labels s') ∨ target ∈ dom (p1_functions s')).
Proof.
  intros Hc Hb Hi Hj Hu Ht.
  pose proof (data_at_Some_lt _ _ _ Hb) as Hl.
  pose proof (unpack_u32_Some_le _ _ _ Hu) as Hl4.
  unfold pass1_step.
  rewrite (proj2 (Z.ltb_lt _ _) Hc). simpl.
  rewrite (proj2 (Z.leb_gt _ _) Hl), Hb.
  assert (Ho : (HCB_LAST_OPCODE <? byte_val b) = false).
  { unfold get_opcode_info in Hi. by destruct (HCB_LAST_OPCODE <? _). }
  rewrite Ho, Hi.
  rewrite bool_decide_eq_false_2 by by apply is_jump_or_call_not_initstack.
  unfold collect_target.
  rewrite (proj2 (Z.leb_le _ _)) by lia. rewrite Hj, Hu. simpl.
  rewrite (proj2 (Z.ltb_lt _ _) Ht). simpl.
  destruct (p1_labels s !! target) as [l|] eqn:El; simpl.
  { eexists. split; [done|]. left. simpl. apply elem_of_dom. eauto. }
  destruct (p1_functions s !! target) as [n|] eqn:Ef; simpl.
  { eexists. split; [done|]. right. simpl. apply elem_of_dom. eauto. }
  eexists. split; [done|]. left. simpl. rewrite dom_insert_L.
  apply elem_of_union_l, elem_of_singleton. done.
Qed.

Section JumpLines.
Context `{Runtime}.

(** The two passes name every jump target: the line of a [jmp] or
    [jmpcond] that the second pass decodes, and whose target is below the
    entry point, shows the label of the target, named after its address,
    or else the function that starts there; it never shows the target as
    a raw address. *)
Theorem jump_line_names_target (data : list byte) (code_end : Z)
    (st1 : pass1_state) (st : pass2_state) (b : byte) (name : string)
    (target : Z) :
  pass1 data code_end = Done st1 →
  reaches (pass2_step data code_end (p1_functions st1) (p1_labels st1))
    pass2_init st →
  p2_pos st < code_end →
  data_at data (p2_pos st) = Some b →
  get_opcode_info (byte_val b) = Some (name, OPARG_X32) →
  name ∈ ["jmp"; "jmpcond"]%string →
  unpack_u32 data (p2_pos st + 1) = Some target →
  target < code_end →
  ∃ line,
    pass2_step data code_end (p1_functions st1) (p1_labels st1) st
    = Continue
        (Pass2 (p2_pos st + 5)
           ((emit_markers (p1_functions st1) (p1_labels st1) (p2_pos st)
               (p2_lines st) (p2_current_func st)).1 ++ [line])
           (p2_strings st) (p2_string_id st)
           (emit_markers (p1_functions st1) (p1_labels st1) (p2_pos st)
              (p2_lines st) (p2_current_func st)).2)
    ∧ (line = lit "  " ++ lit name ++ lit " " ++ label_name target
       ∨ ∃ n, p1_labels st1 !! target = None
              ∧ p1_functions st1 !! target = Some n
              ∧ line = function_operand name n).
Proof.
  intros Hp Hr Hc Hb Hi Hn Hu Ht.
  assert (Hj : is_jump_or_call name = true).
  { apply bool_decide_eq_true. rewrite !elem_of_cons in Hn |- *.
    destruct Hn as [->|[->|Hn]]; [by left | by right; left |].
    by right; right; right. }
  destruct (pass2_reaches_pass1 _ _ _ _ _ Hr) as (s & Hrs & Hps).
  rewrite <- Hps in Hc, Hb, Hu.
  destruct (pass1_step_jump_target data code_end s b name target
              Hc Hb Hi Hj Hu Ht) as (s' & Hs' & Hin).
  destruct (pass1_reaches_grows data code_end s' st1
              (reaches_turn _ _ _ _ Hrs Hs') Hp) as [Hgl Hgf].
  assert (Hin' : target ∈ dom (p1_labels st1)
                 ∨ target ∈ dom (p1_functions st1))
    by (destruct Hin as [Hd|Hd]; [left; by apply Hgl | right; by apply Hgf]).
  destruct (pass1_maps_ok_end _ _ _ Hp) as [Hlab _].
  rewrite Hps in Hc, Hb, Hu.
  pose proof (data_at_Some_lt _ _ _ Hb) as Hl.
  pose proof (unpack_u32_Some_le _ _ _ Hu) as Hl4.
  unfold pass2_step.
  rewrite (proj2 (Z.ltb_lt _ _) Hc). simpl.
  rewrite (proj2 (Z.leb_gt _ _) Hl).
  destruct (emit_markers _ _ _ _ _) as [lines c]. rewrite Hb.
  assert (Ho : (HCB_LAST_OPCODE <? byte_val b) = false).
  { unfold get_opcode_info in Hi. by destruct (HCB_LAST_OPCODE <? _). }
  rewrite Ho, Hi. simpl.
  rewrite (proj2 (Z.ltb_ge _ _)) by lia. rewrite Hu.
  replace (p2_pos st + 1 + 4) with (p2_pos st + 5) by lia.
  eexists. split; [done|].
  unfold x32_line. rewrite bool_decide_eq_true_2 by done.
  destruct (p1_labels st1 !! target) as [l|] eqn:El.
  { left. by destruct (Hlab _ _ El) as [_ ->]. }
  destruct (p1_functions st1 !! target) as [n|] eqn:Ef.
  { right. by exists n. }
  exfalso. destruct Hin' as [Hd|Hd]; apply elem_of_dom in Hd as [? Hd];
    congruence.
Qed.

End JumpLines.

Lemma jump_line_names_target_witness :
  let data := [x0a; x00; x00; x00; x06; x09; x00; x00; x00; x04] in
  let st1 := Pass1 10 0 ∅ (<[9 := label_name 9]> ∅) in
  pass1 data 10 = Done st1
  ∧ data_at data 4 = Some x06
  ∧ unpack_u32 data 5 = Some 9
  ∧ ∃ line,
      pass2_step data 10 (p1_functions st1) (p1_labels st1) pass2_init
      = Continue
          (Pass2 (4 + 5)
             ((emit_markers (p1_functions st1) (p1_labels st1) 4 [] (-1)).1
                ++ [line])
             [] 0
             (emit_markers (p1_functions st1) (p1_labels st1) 4 [] (-1)).2)
      ∧ (line = lit "  " ++ lit "jmp" ++ lit " " ++ label_name 9
         ∨ ∃ n, p1_labels st1 !! 9 = None
                ∧ p1_functions st1 !! 9 = Some n
                ∧ line = function_operand "jmp" n).
Proof.
  intros data st1.
  assert (H1 : pass1 data 10 = Done st1) by (vm_compute; reflexivity).
  assert (H2 : reaches (pass2_step data 10 (p1_functions st1)
                          (p1_labels st1)) pass2_init pass2_init)
    by constructor.
  assert (H3 : p2_pos pass2_init < 10) by (simpl; lia).
  assert (H4 : data_at data (p2_pos pass2_init) = Some x06) by reflexivity.
  assert (H5 : get_opcode_info (byte_val x06)
               = Some ("jmp"%string, OPARG_X32)) by reflexivity.
  assert (H6 : "jmp"%string ∈ ["jmp"; "jmpcond"]%string)
    by (apply list_elem_of_here).
  assert (H7 : unpack_u32 data (p2_pos pass2_init + 1) = Some 9)
    by reflexivity.
  assert (H8 : 9 < 10) by lia.
  exact (conj H1 (conj H4 (conj H7
           (jump_line_names_target (H := ascii_runtime) data 10 st1
              pass2_init x06 "jmp" 9 H1 H2 H3 H4 H5 H6 H7 H8)))).
Defined.

(** ** The functions of the decoder *)

(** The only opcode named [initstack] is [0x01]. *)
Lemma initstack_opcode (b : byte) (arg : oparg) :
  get_opcode_info (byte_val b) = Some ("initstack"%string, arg) → b = x01.
Proof.
  intros Hi. pose proof (byte_val_range b) as Hr.
  assert (Hv : byte_val b = 1).
  { unfold get_opcode_info in Hi.
    destruct (Z.ltb_spec HCB_LAST_OPCODE (byte_val b)) as [?|Hk]; [done|].
    unfold HCB_LAST_OPCODE in Hk.
    assert (∃ n, (n < 40)%nat ∧ byte_val b = Z.of_nat n) as (n & Hn & Hb)
      by (exists (Z.to_nat (byte_val b)); lia).
    rewrite Hb in Hi |- *. clear Hb Hk Hr.
    do 40 (destruct n as [|n]; [by vm_compute in Hi|]). lia. }
  pose proof (byte_of_Z_val b) as Hb. rewrite Hv in Hb.
  by injection Hb as <-.
Qed.

Lemma pass1_functions_ok_later (data : list byte) (st : pass1_state)
    (pos : Z) (labels : gmap Z text) :
  pass1_functions_ok data st → p1_pos st <= pos →
  pass1_functions_ok data
    (Pass1 pos (p1_func_num st) (p1_functions st) labels).
Proof.
  intros (H4 & Hn & Hf & Ho & Ha) Hp.
  split; [simpl; lia|]. split; [done|]. split; [|by split].
  intros a n Hl. simpl. destruct (Hf a n Hl) as (? & ? & ?).
  repeat split; try done; lia.
Qed.

Lemma pass1_functions_ok_mark (data : list byte) (st : pass1_state)
    (pos : Z) (labels : gmap Z text) :
  pass1_functions_ok data st → p1_pos st < pos →
  data_at data (p1_pos st) = Some x01 →
  pass1_functions_ok data
    (Pass1 pos (p1_func_num st + 1)
       (<[p1_pos st := p1_func_num st]> (p1_functions st)) labels).
Proof.
  intros (H4 & Hn & Hf & Ho & Ha) Hp Hb.
  assert (Hfresh : p1_functions st !! p1_pos st = None).
  { destruct (p1_functions st !! p1_pos st) as [n|] eqn:E; [|done].
    destruct (Hf _ _ E). lia. }
  split; [simpl; lia|]. split.
  { simpl. rewrite map_size_insert_None by done. lia. }
  split; [|split].
  - intros a n. simpl. rewrite lookup_insert. case_decide as Hd.
    + intros [= <-]. subst a. repeat split; try done; lia.
    + intros Hl. destruct (Hf a n Hl) as (? & ? & ?).
      repeat split; try done; lia.
  - intros a a' n n'. simpl. rewrite !lookup_insert.
    repeat case_decide; subst.
    + intros _ _ ?. lia.
    + intros [= <-] Hl ?. destruct (Hf _ _ Hl). lia.
    + intros Hl [= <-] _. destruct (Hf _ _ Hl). lia.
    + apply Ho.
  - intros n. simpl. intros Hr.
    destruct (Z.eq_dec n (p1_func_num st)) as [->|Hne].
    + exists (p1_pos st). by rewrite lookup_insert_eq.
    + destruct (Ha n ltac:(lia)) as [a Hl]. exists a.
      rewrite lookup_insert_ne; [done|]. intros <-. congruence.
Qed.

Lemma pass1_step_functions_ok (data : list byte) (code_end : Z)
    (st st' : pass1_state) :
  pass1_functions_ok data st →
  pass1_step data code_end st = Continue st' →
  pass1_functions_ok data st'.
Proof.
  intros Hok. unfold pass1_step.
  destruct (negb _); [done|]. destruct (len data <=? _); [done|].
  destruct (data_at data (p1_pos st)) as [b|] eqn:Hb; [|done].
  destruct (HCB_LAST_OPCODE <? byte_val b).
  { intros [= <-]. apply pass1_functions_ok_later; [done | lia]. }
  destruct (get_opcode_info (byte_val b)) as [[name arg]|] eqn:Hi; [|done].
  assert (Hany : ∀ pos labels, p1_pos st < pos →
    pass1_functions_ok data
      (Pass1 pos
         (if bool_decide (name = "initstack"%string)
          then (<[p1_pos st := p1_func_num st]> (p1_functions st),
                p1_func_num st + 1)
          else (p1_functions st, p1_func_num st)).2
         (if bool_decide (name = "initstack"%string)
          then (<[p1_pos st := p1_func_num st]> (p1_functions st),
                p1_func_num st + 1)
          else (p1_functions st, p1_func_num st)).1 labels)).
  { intros pos labels Hp. case_bool_decide as Hn; simpl.
    - subst name. apply initstack_opcode in Hi as ->.
      by apply pass1_functions_ok_mark.
    - apply pass1_functions_ok_later; [done | lia]. }
  destruct (if bool_decide _ then _ else _) as [functions func_num].
  simpl in Hany. destruct arg; simpl.
  2: { destruct (collect_target _ _ _ _ _ _); [|done].
       intros [= <-]. apply Hany. lia. }
  6: { destruct (_ <? len data);
         [destruct (data_at data (p1_pos st + 1)) as [l|]; [|done]|];
         intros [= <-]; apply Hany; [pose proof (byte_val_range l)|]; lia. }
  all: intros [= <-]; apply Hany; lia.
Qed.

(** The functions that the first pass finds are numbered from 0, without
    a gap, in the order of their addresses; each starts at an [initstack]
    byte of the code segment; and the number of functions that
    [hcb_decode] returns is the number of those indices. *)
Theorem pass1_functions_numbered (data : list byte) (code_end : Z)
    (st : pass1_state) :
  pass1 data code_end = Done st →
  p1_func_num st = Z.of_nat (size (p1_functions st))
  ∧ (∀ a n, p1_functions st !! a = Some n →
       4 <= a < code_end ∧ 0 <= n < p1_func_num st
       ∧ data_at data a = Some x01)
  ∧ (∀ a a' n n',
       p1_functions st !! a = Some n → p1_functions st !! a' = Some n' →
       a < a' → n < n')
  ∧ (∀ n, 0 <= n < p1_func_num st → ∃ a, p1_functions st !! a = Some n).
Proof.
  intros Hp.
  assert (Hinit : pass1_functions_ok data pass1_init
                  ∧ ∀ a n, p1_functions pass1_init !! a = Some n →
                           a < code_end).
  { split; [|intros a n; simpl; by rewrite lookup_empty].
    split; [simpl; lia|]. split; [done|].
    split; [intros a n; simpl; by rewrite lookup_empty|].
    split; [intros a a' n n'; simpl; by rewrite lookup_empty|].
    intros n. simpl. lia. }
  destruct (while_invariant (pass1_step data code_end)
              (λ s, pass1_functions_ok data s
                    ∧ ∀ a n, p1_functions s !! a = Some n → a < code_end))
    with (fuel := length data) (s := pass1_init) (r := st)
    as (s0 & [(H4 & Hn & Hf & Ho & Ha) Hlt] & Hb); [|done|done|].
  { intros s s' [Hok Hlt] Hs. split; [by eapply pass1_step_functions_ok|].
    intros a n Hl.
    destruct (pass1_step_functions_ok _ _ _ _ Hok Hs) as (_ & _ & Hf' & _).
    destruct (Hf' a n Hl) as ([_ Ha] & _).
    destruct (p1_functions s !! a) as [m|] eqn:E; [by eapply Hlt|].
    revert Hs Hl E. unfold pass1_step.
    destruct (p1_pos s <? code_end) eqn:Hc; simpl; [|done]. bool_cases.
    destruct (len data <=? _); [done|].
    destruct (data_at data (p1_pos s)) as [b|]; [|done].
    destruct (HCB_LAST_OPCODE <? byte_val b);
      [intros [= <-]; simpl; congruence|].
    destruct (get_opcode_info (byte_val b)) as [[name arg]|]; [|done].
    assert (Hnew : ∀ m', (if bool_decide (name = "initstack"%string)
          then (<[p1_pos s := p1_func_num s]> (p1_functions s),
                p1_func_num s + 1)
          else (p1_functions s, p1_func_num s)).1 !! a = Some m' →
          p1_functions s !! a = None → a < code_end).
    { intros m'. destruct (bool_decide _); simpl; [|congruence].
      rewrite lookup_insert. case_decide; [subst; lia | congruence]. }
    destruct (if bool_decide _ then _ else _) as [functions func_num].
    simpl in Hnew. destruct arg; simpl.
    2: { destruct (collect_target _ _ _ _ _ _); [|done].
         intros [= <-]. simpl. apply Hnew. }
    6: { destruct (_ <? len data);
           [destruct (data_at data (p1_pos s + 1)); [|done]|];
           intros [= <-]; simpl; apply Hnew. }
    all: intros [= <-]; simpl; apply Hnew. }
  apply pass1_step_break in Hb as ->.
  split; [done|]. split; [|by split].
  intros a n Hl. destruct (Hf a n Hl) as (? & ? & ?).
  specialize (Hlt a n Hl). repeat split; try done; lia.
Qed.

Lemma pass1_functions_numbered_witness :
  let data := [x0b; x00; x00; x00; x01; x00; x00; x04;
               x01; x00; x00] in
  let st := Pass1 11 2 (<[8 := 1]> (<[4 := 0]> ∅)) ∅ in
  pass1 data 11 = Done st
  ∧ p1_func_num st = Z.of_nat (size (p1_functions st))
  ∧ (∀ a n, p1_functions st !! a = Some n →
       4 <= a < 11 ∧ 0 <= n < p1_func_num st
       ∧ data_at data a = Some x01)
  ∧ (∀ a a' n n',
       p1_functions st !! a = Some n → p1_functions st !! a' = Some n' →
       a < a' → n < n')
  ∧ (∀ n, 0 <= n < p1_func_num st → ∃ a, p1_functions st !! a = Some n).
Proof.
  intros data st.
  assert (H1 : pass1 data 11 = Done st) by (vm_compute; reflexivity).
  exact (conj H1 (pass1_functions_numbered data 11 st H1)).
Defined.

(** ** Format detection by magic bytes *)

Lemma startswith_app (data magic : list byte) :
  startswith data magic = true → ∃ rest, data = magic ++ rest.
Proof.
  unfold startswith. intros Hs%bool_decide_eq_true.
  exists (drop (length magic) data). by rewrite <- Hs at 1; rewrite take_drop.
Qed.

(** The magics exclude each other, so that the order of the table does
    not matter: data that starts with a magic of the table gets the
    extension of that magic. *)
Theorem detect_extension_magic (data magic : list byte) (ext : text) :
  (magic, ext) ∈ MAGIC_EXTENSIONS →
  startswith data magic = true →
  detect_extension data = ext.
Proof.
  intros Hin [rest ->]%startswith_app.
  unfold MAGIC_EXTENSIONS in Hin. rewrite !elem_of_cons in Hin.
  destruct Hin as [Hm|[Hm|[Hm|[Hm|[Hm|Hm]]]]];
    [injection Hm as -> ->; reflexivity.. | by apply elem_of_nil in Hm].
Qed.

Lemma detect_extension_magic_witness :
  ([x89; x50; x4e; x47], lit ".png") ∈ MAGIC_EXTENSIONS
  ∧ startswith [x89; x50; x4e; x47; x0d; x0a] [x89; x50; x4e; x47] = true
  ∧ detect_extension [x89; x50; x4e; x47; x0d; x0a] = lit ".png".
Proof.
  assert (H1 : ([x89; x50; x4e; x47], lit ".png") ∈ MAGIC_EXTENSIONS)
    by (unfold MAGIC_EXTENSIONS; rewrite !elem_of_cons; tauto).
  assert (H2 : startswith [x89; x50; x4e; x47; x0d; x0a]
                 [x89; x50; x4e; x47] = true) by reflexivity.
  exact (conj H1 (conj H2
           (detect_extension_magic [x89; x50; x4e; x47; x0d; x0a]
              [x89; x50; x4e; x47] (lit ".png") H1 H2))).
Defined.

(** ** The archive: what is packed is extracted *)

Lemma pack_u32_length (v : Z) (bs : list byte) :
  pack_u32 v = Some bs → len bs = 4.
Proof.
  unfold pack_u32. destruct (_ && _); [|done].
  destruct (byte_of_Z (v mod 256)); [|done].
  destruct (byte_of_Z (v / 256 mod 256)); [|done].
  destruct (byte_of_Z (v / 65536 mod 256)); [|done].
  destruct (byte_of_Z (v / 16777216 mod 256)); [|done].
  by intros [= <-].
Qed.

(** What [struct.pack] has written, [struct.unpack] reads. *)
Lemma unpack_pack_u32 (v : Z) (bs pre post : list byte) :
  pack_u32 v = Some bs →
  unpack_u32 (pre ++ bs ++ post) (len pre) = Some v.
Proof.
  unfold pack_u32.
  destruct ((0 <=? v) && (v <? 4294967296)) eqn:Hr; [|done].
  apply andb_true_iff in Hr as [H0 H1]. bool_cases.
  destruct (byte_of_Z (v mod 256)) as [b0|] eqn:E0; [|done].
  destruct (byte_of_Z (v / 256 mod 256)) as [b1|] eqn:E1; [|done].
  destruct (byte_of_Z (v / 65536 mod 256)) as [b2|] eqn:E2; [|done].
  destruct (byte_of_Z (v / 16777216 mod 256)) as [b3|] eqn:E3; [|done].
  intros [= <-].
  apply byte_of_Z_Some in E0, E1, E2, E3.
  unfold unpack_u32, slice, len.
  rewrite Nat2Z.id, drop_app_length.
  replace (Z.to_nat (Z.of_nat (length pre) + 4 - Z.of_nat (length pre)))
    with 4%nat by lia.
  simpl. f_equal. rewrite E0, E1, E2, E3.
  pose proof (Z.div_mod v 256 ltac:(lia)) as D0.
  pose proof (Z.div_mod (v / 256) 256 ltac:(lia)) as D1.
  pose proof (Z.div_mod (v / 256 / 256) 256 ltac:(lia)) as D2.
  rewrite !Z.div_div in D1, D2 by lia.
  change (256 * 256) with 65536 in *.
  replace (v / 65536 / 256) with (v / 16777216) in D2
    by (rewrite Z.div_div by lia; done).
  assert (v / 16777216 < 256) by (apply Z.div_lt_upper_bound; lia).
  assert (0 <= v / 16777216) by (apply Z.div_pos; lia).
  rewrite (Z.mod_small (v / 16777216) 256) by lia.
  clear E0 E1 E2 E3.
  set (q1 := v / 256) in *. set (q2 := v / 65536) in *.
  set (q3 := v / 16777216) in *. set (m0 := v mod 256) in *.
  set (m1 := q1 mod 256) in *. set (m2 := q2 mod 256) in *.
  clearbody q1 q2 q3 m0 m1 m2. lia.
Qed.

Lemma pack_III_length (e : Z * Z * Z) (bs : list byte) :
  pack_III e = Some bs → len bs = 12.
Proof.
  unfold pack_III.
  destruct (pack_u32 e.1.1) as [a|] eqn:Ea; [|done].
  destruct (pack_u32 e.1.2) as [b|] eqn:Eb; [|done].
  destruct (pack_u32 e.2) as [c|] eqn:Ec; [|done].
  intros [= <-]. apply pack_u32_length in Ea, Eb, Ec.
  rewrite !len_app. lia.
Qed.

Lemma unpack_pack_III (e : Z * Z * Z) (bs pre post : list byte) :
  pack_III e = Some bs →
  unpack_u32 (pre ++ bs ++ post) (len pre) = Some e.1.1
  ∧ unpack_u32 (pre ++ bs ++ post) (len pre + 4) = Some e.1.2
  ∧ unpack_u32 (pre ++ bs ++ post) (len pre + 8) = Some e.2.
Proof.
  unfold pack_III.
  destruct (pack_u32 e.1.1) as [a|] eqn:Ea; [|done].
  destruct (pack_u32 e.1.2) as [b|] eqn:Eb; [|done].
  destruct (pack_u32 e.2) as [c|] eqn:Ec; [|done].
  intros [= <-].
  pose proof (pack_u32_length _ _ Ea) as La.
  pose proof (pack_u32_length _ _ Eb) as Lb.
  split; [|split].
  - rewrite <- !app_assoc. by apply unpack_pack_u32.
  - replace (len pre + 4) with (len (pre ++ a)) by (rewrite len_app; lia).
    replace (pre ++ (a ++ b ++ c) ++ post)
      with ((pre ++ a) ++ b ++ c ++ post) by by rewrite <- !app_assoc.
    by apply unpack_pack_u32.
  - replace (len pre + 8) with (len (pre ++ a ++ b))
      by (rewrite !len_app; lia).
    replace (pre ++ (a ++ b ++ c) ++ post)
      with ((pre ++ a ++ b) ++ c ++ post) by by rewrite <- !app_assoc.
    by apply unpack_pack_u32.
Qed.

(** A table of packed entries is read back. *)
Lemma read_entries_packed (entries : list (Z * Z * Z))
    (bs : list (list byte)) :
  Forall2 (λ e b, pack_III e = Some b) entries bs →
  ∀ pre post,
    read_entries (length entries) (pre ++ concat bs ++ post) (len pre)
    = Some entries.
Proof.
  induction 1 as [|e b entries bs He _ IH]; intros pre post; [done|].
  simpl. rewrite <- app_assoc.
  destruct (unpack_pack_III e b pre (concat bs ++ post) He)
    as (-> & -> & ->).
  simpl.
  replace (len pre + 12) with (len (pre ++ b))
    by (rewrite len_app, (pack_III_length _ _ He); lia).
  replace (pre ++ b ++ concat bs ++ post)
    with ((pre ++ b) ++ concat bs ++ post) by by rewrite <- app_assoc.
  rewrite IH. by destruct e as [[? ?] ?].
Qed.

Lemma read_name_terminated (name rest : list byte) :
  x00 ∉ name → read_name (name ++ x00 :: rest) = name.
Proof.
  induction name as [|b name IH]; intros Hn; [done|]. simpl.
  apply not_elem_of_cons in Hn as [Hb Hn].
  rewrite bool_decide_eq_false_2 by done. by rewrite IH.
Qed.

(** *** The file written *)

Lemma wf_write_end (out : wfile) (b : list byte) :
  wf_pos out = len (wf_data out) →
  wf_write out b = WFile (wf_data out ++ b) (len (wf_data out ++ b)).
Proof.
  intros Hp. unfold wf_write. rewrite Hp, len_app. unfold len.
  rewrite Nat2Z.id, firstn_all, drop_ge by lia. by rewrite app_nil_r.
Qed.

Lemma total_len_concat (items : list (list byte)) :
  total_len items = len (concat items).
Proof.
  induction items as [|x items IH]; [done|]. simpl.
  rewrite len_app, <- IH. done.
Qed.

Lemma write_names_from (start : Z) (names : list (list byte)) :
  ∀ (out : wfile) (acc : list Z),
    wf_pos out = len (wf_data out) →
    foldl (λ st name,
             (wf_write st.1 name, st.2 ++ [wf_pos st.1 - start]))
      (out, acc) names
    = (WFile (wf_data out ++ concat names)
         (len (wf_data out ++ concat names)),
       acc ++ offsets_from (wf_pos out - start) names).
Proof.
  induction names as [|x names IH]; intros out acc Hp; simpl.
  { rewrite !app_nil_r, <- Hp. by destruct out. }
  rewrite (wf_write_end _ _ Hp), IH by done. simpl.
  rewrite <- !app_assoc. simpl. do 3 f_equal.
  rewrite Hp, len_app. f_equal. lia.
Qed.

Lemma offsets_from_length (start : Z) (items : list (list byte)) :
  length (offsets_from start items) = length items.
Proof.
  revert start. induction items as [|x items IH]; intros start; [done|].
  simpl. by rewrite IH.
Qed.

Lemma entries_from_length (name_offsets : list Z) (file_offset : Z)
    (files : list (text * list byte)) :
  length name_offsets = length files →
  length (entries_from name_offsets file_offset files) = length files.
Proof.
  revert name_offsets file_offset.
  induction files as [|f files IH]; intros [|n ns] foff Hl; try done.
  simpl. rewrite IH; [done|]. simpl in Hl. lia.
Qed.

Lemma write_files_from (name_offsets : list Z)
    (files : list (text * list byte)) :
  ∀ (i : nat) (out : wfile) (acc : list (Z * Z * Z)),
    wf_pos out = len (wf_data out) →
    length (drop i name_offsets) = length files →
    write_files i files name_offsets out acc
    = Some (WFile (wf_data out ++ concat (snd <$> files))
              (len (wf_data out ++ concat (snd <$> files))),
            acc ++ entries_from (drop i name_offsets) (wf_pos out) files).
Proof.
  induction files as [|f files IH]; intros i out acc Hp Hl; simpl.
  { rewrite !app_nil_r, <- Hp.
    destruct (drop i name_offsets); destruct out; simpl;
      by rewrite app_nil_r. }
  destruct (name_offsets !! i) as [n|] eqn:Hn.
  2: { apply lookup_ge_None in Hn. rewrite length_drop in Hl.
       simpl in Hl. lia. }
  simpl. rewrite (drop_S _ _ _ Hn) in Hl |- *. simpl in Hl.
  rewrite (wf_write_end _ _ Hp), IH by (done || lia). simpl.
  rewrite <- !app_assoc. simpl. do 4 f_equal.
  rewrite Hp, len_app. done.
Qed.

Lemma write_table_over (entries : list (Z * Z * Z)) :
  ∀ (pre mid post : list byte) (out : wfile),
    write_table entries (WFile (pre ++ mid ++ post) (len pre)) = Some out →
    len mid = 12 * len entries →
    ∃ bs,
      Forall2 (λ e b, pack_III e = Some b) entries bs
      ∧ wf_data out = pre ++ concat bs ++ post.
Proof.
  induction entries as [|e entries IH]; intros pre mid post out; simpl.
  { intros [= <-] Hm. exists []. split; [constructor|]. simpl.
    destruct mid; [done|]. unfold len in Hm. simpl in Hm. lia. }
  destruct (pack_III e) as [b|] eqn:He; [|done]. simpl.
  pose proof (pack_III_length _ _ He) as Hb.
  intros Hw Hm.
  assert (Hstep : wf_write (WFile (pre ++ mid ++ post) (len pre)) b
                  = WFile ((pre ++ b) ++ drop 12 mid ++ post)
                      (len (pre ++ b))).
  { unfold wf_write. simpl. rewrite len_app. f_equal.
    unfold len in *. rewrite Nat2Z.id, take_app_length.
    rewrite <- app_assoc. do 2 f_equal.
    replace (Z.to_nat (Z.of_nat (length pre) + Z.of_nat (length b)))
      with (length pre + 12)%nat by lia.
    rewrite drop_app_add'; [|done].
    rewrite drop_app_le; [done|]. simpl in Hm. lia. }
  rewrite Hstep in Hw.
  destruct (IH _ _ _ _ Hw) as (bs & Hbs & Hd).
  { unfold len in *. rewrite length_drop. simpl in Hm. lia. }
  exists (b :: bs). split; [by constructor|]. simpl.
  by rewrite Hd, <- !app_assoc.
Qed.

Lemma imap_Forall2 {A B C} (R : A → B → Prop) (l : list A) (k : list B) :
  Forall2 R l k →
  ∀ (g : nat → A → C) (g' : nat → B → C),
    (∀ i x y, R x y → g i x = g' i y) →
    imap g l = imap g' k.
Proof.
  induction 1 as [|x y l k Hxy _ IH]; intros g g' Hg; [done|].
  simpl. f_equal; [by apply Hg|]. apply IH. intros i. apply Hg.
Qed.

Section ArchiveRoundTrip.
Context `{ArchiveRuntime}.

(** Where [entries_from] says they are, an archive has the names and the
    contents of its files. *)
Lemma entries_from_located (archive : list byte) (file_names_start : Z)
    (files : list (text * list byte)) :
  Forall (λ f, x00 ∉ shift_jis_encode (clean_name f.1)) files →
  ∀ (name_offset file_offset : Z) (PN RN PC RC : list byte),
    archive = PN ++ concat ((λ f, archive_name f.1) <$> files) ++ RN →
    len PN = file_names_start + name_offset →
    archive = PC ++ concat (snd <$> files) ++ RC →
    len PC = file_offset →
    Forall2
      (λ e f,
         e.2 = len f.2
         ∧ read_name (drop (Z.to_nat (file_names_start + e.1.1)) archive)
           = shift_jis_encode (clean_name f.1)
         ∧ slice archive e.1.2 (e.1.2 + e.2) = f.2)
      (entries_from
         (offsets_from name_offset ((λ f, archive_name f.1) <$> files))
         file_offset files)
      files.
Proof.
  induction 1 as [|f files Hf _ IH];
    intros noff foff PN RN PC RC HN HPN HC HPC; simpl; constructor.
  - simpl. split; [done|]. split.
    + rewrite <- HPN. unfold len. rewrite Nat2Z.id.
      rewrite HN at 1. rewrite drop_app_length. simpl.
      unfold archive_name at 1. rewrite <- !app_assoc. simpl.
      by apply read_name_terminated.
    + rewrite HC at 1. simpl. unfold slice.
      rewrite <- HPC. unfold len. rewrite Nat2Z.id, drop_app_length.
      replace (Z.to_nat _) with (length f.2) by lia.
      rewrite <- app_assoc. by rewrite take_app_length.
  - apply (IH _ _ (PN ++ archive_name f.1) RN (PC ++ f.2) RC).
    + rewrite HN at 1. simpl. by rewrite <- !app_assoc.
    + rewrite len_app. lia.
    + rewrite HC at 1. simpl. by rewrite <- !app_assoc.
    + rewrite len_app. lia.
Qed.

(** The archive that [bin_pack] writes has the table, the names and the
    contents that its three loops leave in the file. *)
Lemma bin_pack_layout (files : list (text * list byte))
    (archive : list byte) :
  bin_pack files = Done (Some archive) →
  ∃ h1 h2 bs,
    pack_u32 (len files) = Some h1
    ∧ pack_u32 (total_len ((λ f, archive_name f.1) <$> files)) = Some h2
    ∧ Forall2 (λ e b, pack_III e = Some b)
        (entries_from
           (offsets_from 0 ((λ f, archive_name f.1) <$> files))
           (8 + len files * 12
            + len (concat ((λ f, archive_name f.1) <$> files)))
           files)
        bs
    ∧ archive
      = (h1 ++ h2) ++ concat bs
          ++ concat ((λ f, archive_name f.1) <$> files)
          ++ concat (snd <$> files).
Proof.
  unfold bin_pack. case_bool_decide as Hne; [done|].
  destruct (pack_u32 (len files)) as [h1|] eqn:H1; [|done].
  destruct (pack_u32 (total_len _)) as [h2|] eqn:H2; [|done].
  pose proof (pack_u32_length _ _ H1) as L1.
  pose proof (pack_u32_length _ _ H2) as L2.
  set (names := (λ f, archive_name f.1) <$> files) in *.
  set (zeros := replicate (Z.to_nat (len files * 12)) x00).
  assert (Lz : len zeros = len files * 12).
  { unfold zeros, len. rewrite length_replicate. lia. }
  rewrite (wf_write_end (WFile [] 0) h1) by done. simpl.
  rewrite (wf_write_end (WFile h1 _) h2) by done. simpl.
  rewrite (wf_write_end (WFile (h1 ++ h2) _) zeros) by done. simpl.
  unfold write_names. rewrite write_names_from by done. simpl.
  rewrite write_files_from; simpl; [|done|].
  2: { rewrite drop_0, offsets_from_length. unfold names.
       by rewrite length_fmap. }
  rewrite drop_0.
  replace (len ((h1 ++ h2) ++ zeros) - (8 + len files * 12)) with 0
    by (rewrite !len_app; lia).
  set (entries := entries_from _ _ _).
  destruct (write_table entries _) as [out|] eqn:Hw; [|done].
  intros [= <-]. unfold wf_seek in Hw. simpl in Hw.
  replace 8 with (len (h1 ++ h2)) in Hw at 1 by (rewrite len_app; lia).
  rewrite <- !app_assoc in Hw.
  rewrite (app_assoc h1 h2) in Hw.
  apply write_table_over in Hw as (bs & Hbs & Hd).
  2: { rewrite Lz. unfold entries, len.
       rewrite entries_from_length; [lia|].
       rewrite offsets_from_length. unfold names. by rewrite length_fmap. }
  exists h1, h2, bs. split; [done|]. split; [done|]. split; [|done].
  unfold entries in Hbs.
  replace (len (((h1 ++ h2) ++ zeros) ++ concat names))
    with (8 + len files * 12 + len (concat names)) in Hbs
    by (rewrite !len_app; lia).
  done.
Qed.

Lemma packed_entries_length (entries : list (Z * Z * Z))
    (bs : list (list byte)) :
  Forall2 (λ e b, pack_III e = Some b) entries bs →
  len (concat bs) = 12 * len entries.
Proof.
  induction 1 as [|e b entries bs He _ IH]; [done|]. simpl.
  rewrite len_app, IH, (pack_III_length _ _ He). unfold len. simpl. lia.
Qed.

(** [bin_extract] after [bin_pack]: when [bin_pack] has written the
    archive of a folder, and no encoded name has a null byte,
    [bin_extract] on that archive gives the files of the folder again,
    in their order and with their contents; the name of the i-th is its
    number in four digits, an underscore, the name of the file after
    its own "NNNN_" prefix was cut and after a pass through Shift_JIS,
    and, with [auto_ext], the extension detected from the content. *)
Theorem bin_extract_bin_pack (files : list (text * list byte))
    (archive : list byte) (auto_ext : bool) :
  bin_pack files = Done (Some archive) →
  Forall (λ f, x00 ∉ shift_jis_encode (clean_name f.1)) files →
  bin_extract archive auto_ext
  = Done
      (imap
         (λ i f,
            (dec4 (Z.of_nat i) ++ lit "_"
               ++ shift_jis_decode (shift_jis_encode (clean_name f.1))
               ++ (if auto_ext then detect_extension f.2 else []),
             f.2))
         files).
Proof.
  intros Hpack Hnames.
  destruct (bin_pack_layout _ _ Hpack)
    as (h1 & h2 & bs & H1 & H2 & Hbs & Ha).
  pose proof (pack_u32_length _ _ H1) as L1.
  pose proof (pack_u32_length _ _ H2) as L2.
  pose proof (packed_entries_length _ _ Hbs) as Lb.
  set (names := (λ f, archive_name f.1) <$> files) in *.
  set (entries := entries_from _ _ _) in *.
  assert (Le : length entries = length files).
  { unfold entries. rewrite entries_from_length; [done|].
    rewrite offsets_from_length. unfold names. by rewrite length_fmap. }
  unfold bin_extract.
  assert (U1 : unpack_u32 archive 0 = Some (len files)).
  { rewrite Ha, <- app_assoc.
    exact (unpack_pack_u32 _ _ [] _ H1). }
  assert (U2 : unpack_u32 archive 4 = Some (total_len names)).
  { rewrite Ha, <- app_assoc, <- L1.
    exact (unpack_pack_u32 _ _ h1 _ H2). }
  rewrite U1, U2.
  assert (R : read_entries (Z.to_nat (len files)) archive 8 = Some entries).
  { unfold len. rewrite Nat2Z.id, <- Le, Ha.
    replace 8 with (len (h1 ++ h2)) by (rewrite len_app; lia).
    by apply read_entries_packed. }
  rewrite R. f_equal.
  assert (Hloc := entries_from_located archive (8 + len files * 12) files
                    Hnames 0 (8 + len files * 12 + len (concat names))
                    ((h1 ++ h2) ++ concat bs) (concat (snd <$> files))
                    ((h1 ++ h2) ++ concat bs ++ concat names) []).
  fold names entries in Hloc.
  eapply imap_Forall2.
  { apply Hloc.
    - by rewrite Ha, <- !app_assoc.
    - rewrite !len_app, Lb. unfold len in *. lia.
    - by rewrite Ha, <- !app_assoc, app_nil_r.
    - rewrite !len_app, Lb. unfold len in *. lia. }
  intros i [[name_offset offset] size] f (Hs & Hn & Hc). simpl in *.
  rewrite Hn, Hc.
  destruct auto_ext; [|by rewrite app_nil_r].
  by rewrite <- !app_assoc.
Qed.

End ArchiveRoundTrip.

Lemma bin_extract_bin_pack_witness :
  ∃ archive,
    bin_pack [(lit "0007_a", [x4f; x67; x67; x53]); (lit "b", [x02])]
    = Done (Some archive)
    ∧ bin_extract archive true
      = Done [(lit "0000_a.ogg", [x4f; x67; x67; x53]);
              (lit "0001_b", [x02])].
Proof.
  eexists. split; [vm_compute; reflexivity|].
  etrans.
  { apply (bin_extract_bin_pack
             [(lit "0007_a", [x4f; x67; x67; x53]); (lit "b", [x02])]
             _ true); [vm_compute; reflexivity|].
    repeat constructor; vm_compute; intros Hin;
      repeat (apply elem_of_cons in Hin as [Hin|Hin]; [done|]);
      by apply elem_of_nil in Hin. }
  vm_compute. reflexivity.
Defined.

(** ** The strings file, read back by the rebuilder *)

Lemma escapeForTable_no_newline (t : text) :
  Forall no_newline (escapeForTable t).
Proof.
  induction t as [|c t IH]; [constructor|].
  rewrite escapeForTable_cons. apply Forall_app. split; [|done].
  destruct (Z.eqb_spec c BACKSLASH); [by repeat constructor|].
  destruct (Z.eqb_spec c LF); [by repeat constructor|].
  destruct (Z.eqb_spec c CR); [by repeat constructor|].
  by repeat constructor.
Qed.

Lemma pretty_N_char_digit (x : N) :
  is_digit (Z.of_N (Ascii.N_of_ascii (pretty_N_char x))) = true.
Proof.
  destruct x as [|p]; [done|].
  do 4 (try destruct p as [p|p|]; try done).
Qed.

Lemma lit_String (a : Ascii.ascii) (s : string) :
  lit (String a s) = Z.of_N (Ascii.N_of_ascii a) :: lit s.
Proof. done. Qed.

Lemma pretty_N_go_digits (x : N) :
  ∀ s, Forall (λ c, is_digit c = true) (lit s) →
       Forall (λ c, is_digit c = true) (lit (pretty_N_go x s)).
Proof.
  induction (N.lt_wf_0 x) as [x _ IH]. intros s Hs.
  destruct (decide (x = 0)%N) as [->|Hx].
  { by rewrite pretty_N_go_0. }
  rewrite pretty_N_go_step by lia. apply IH.
  - apply N.div_lt; lia.
  - rewrite lit_String. constructor; [apply pretty_N_char_digit | done].
Qed.

Lemma pretty_N_go_length (x : N) :
  ∀ s, (length (lit s) <= length (lit (pretty_N_go x s)))%nat.
Proof.
  induction (N.lt_wf_0 x) as [x _ IH]. intros s.
  destruct (decide (x = 0)%N) as [->|Hx].
  { by rewrite pretty_N_go_0. }
  rewrite pretty_N_go_step by lia.
  etrans; [|apply IH; apply N.div_lt; lia].
  rewrite lit_String. simpl. lia.
Qed.

Lemma dec_digits (v : Z) :
  0 <= v → Forall (λ c, is_digit c = true) (dec v) ∧ dec v ≠ [].
Proof.
  intros Hv. unfold dec. destruct v as [|p|p]; [|clear Hv|lia].
  { split; [by repeat constructor | done]. }
  change (pretty (Z.pos p)) with (pretty_N_go (N.pos p) "").
  split; [apply pretty_N_go_digits; constructor|].
  rewrite pretty_N_go_step by lia. intros Hn.
  pose proof (pretty_N_go_length (N.pos p `div` 10)
                (String (pretty_N_char (N.pos p `mod` 10)) "")) as Hl.
  rewrite Hn, lit_String in Hl. simpl in Hl. lia.
Qed.

Lemma dec4_digits (v : Z) :
  0 <= v → Forall (λ c, is_digit c = true) (dec4 v) ∧ dec4 v ≠ [].
Proof.
  intros [Hd Hn]%dec_digits. unfold dec4. split.
  - apply Forall_app. split; [|done]. by apply Forall_replicate.
  - intros [_ Hv]%app_eq_nil. done.
Qed.

Lemma hex_digit_char (upper : bool) (d : Z) :
  0 <= d < 16 → is_hex_char (hex_digit upper d) = true.
Proof.
  intros Hd. unfold hex_digit, is_hex_char, is_digit.
  destruct (Z.ltb_spec d 10); destruct upper;
    rewrite !orb_true_iff, !andb_true_iff, !Z.leb_le; lia.
Qed.

Lemma hex_digits_chars (upper : bool) (n : nat) (v : Z) :
  Forall (λ c, is_hex_char c = true) (hex_digits upper n v).
Proof.
  revert v. induction n as [|n IH]; intros v; [constructor|]. simpl.
  apply Forall_app. split; [apply IH|]. repeat constructor.
  apply hex_digit_char. apply Z.mod_pos_bound. lia.
Qed.

Lemma is_digit_field_char (c : Z) : is_digit c = true → field_char c.
Proof.
  unfold is_digit, field_char, no_newline, BAR, HASH, LF, CR.
  intros [? ?]%andb_true_iff. bool_cases. lia.
Qed.

Lemma is_hex_char_field_char (c : Z) : is_hex_char c = true → field_char c.
Proof.
  unfold is_hex_char, is_digit, field_char, no_newline, BAR, HASH, LF, CR.
  rewrite !orb_true_iff, !andb_true_iff, !Z.leb_le. lia.
Qed.

Lemma file_lines_from_line (body rest : text) :
  Forall no_newline body →
  ∀ cur,
    file_lines_from cur (body ++ LF :: rest)
    = (cur ++ body ++ [LF]) :: file_lines_from [] rest.
Proof.
  induction 1 as [|c body [Hl Hr] _ IH]; intros cur; simpl.
  { done. }
  rewrite (proj2 (Z.eqb_neq c LF)), (proj2 (Z.eqb_neq c CR)) by done.
  rewrite IH. by rewrite <- app_assoc.
Qed.

Lemma lstrip_newlines_id (s : text) :
  Forall no_newline s → lstrip_newlines s = s.
Proof.
  intros Hs. destruct Hs as [|c s [Hl Hr] _]; [done|]. simpl.
  by rewrite (proj2 (Z.eqb_neq c LF)), (proj2 (Z.eqb_neq c CR)).
Qed.

Lemma rstrip_newlines_line (body : text) :
  Forall no_newline body → rstrip_newlines (body ++ [LF]) = body.
Proof.
  intros Hb. unfold rstrip_newlines. rewrite reverse_app. simpl.
  rewrite lstrip_newlines_id by (by apply Forall_reverse).
  apply reverse_involutive.
Qed.

Lemma split_bar_field (field rest : text) :
  Forall field_char field →
  split_bar (field ++ BAR :: rest) = Some (field, rest).
Proof.
  induction 1 as [|c field (Hb & _) _ IH]; [done|]. simpl.
  rewrite (proj2 (Z.eqb_neq c BAR)) by done. by rewrite IH.
Qed.

Lemma is_prefix_1 (a c : Z) (s : text) : is_prefix [a] (c :: s) = (a =? c).
Proof. simpl. apply andb_true_r. Qed.

Section ReadBack.
Context `{IntRuntime}.

Lemma strings_file_line_body (r : Z * Z * text) :
  ∃ body,
    strings_file_line r = body ++ [LF]
    ∧ body = dec4 r.1.1 ++ BAR :: (lit "0x" ++ hex8 true r.1.2)
               ++ BAR :: escapeForTable r.2
    ∧ (0 <= r.1.1 → Forall no_newline body).
Proof.
  eexists. split; [|split; [reflexivity|]].
  { unfold strings_file_line. rewrite <- !app_assoc. done. }
  intros Hr. apply Forall_app. split.
  { eapply Forall_impl; [apply (dec4_digits _ Hr)|].
    intros c Hc. by apply is_digit_field_char. }
  constructor; [done|]. apply Forall_app. split.
  { constructor; [done|]. constructor; [done|].
    eapply Forall_impl; [apply hex_digits_chars|].
    intros c Hc. by apply is_hex_char_field_char. }
  constructor; [done|]. apply escapeForTable_no_newline.
Qed.

Lemma parse_strings_file_line (r : Z * Z * text) :
  readable r →
  parse_strings_line (strings_file_line r)
  = Some (r.1.2, unescapeFromTable (escapeForTable r.2)).
Proof.
  intros (Hs & [sid Hi] & Ha).
  destruct (strings_file_line_body r) as (body & -> & Hb & Hn).
  specialize (Hn Hs). unfold parse_strings_line.
  rewrite rstrip_newlines_line by done.
  destruct (dec4_digits _ Hs) as [Hd Hne].
  assert (Hf : Forall field_char (dec4 r.1.1)).
  { eapply Forall_impl; [done|]. intros c Hc. by apply is_digit_field_char. }
  assert (Hx : Forall field_char (lit "0x" ++ hex8 true r.1.2)).
  { constructor; [done|]. constructor; [done|].
    eapply Forall_impl; [apply hex_digits_chars|].
    intros c Hc. by apply is_hex_char_field_char. }
  assert (Hhead : bool_decide (body = []) || is_prefix [HASH] body = false).
  { rewrite Hb. destruct (dec4 r.1.1) as [|c d]; [done|].
    apply Forall_cons in Hf as [(_ & Hh & _) _].
    rewrite bool_decide_eq_false_2 by done.
    rewrite <- app_comm_cons, is_prefix_1. apply Z.eqb_neq. congruence. }
  rewrite Hhead. unfold split_bar_2. rewrite Hb.
  rewrite (split_bar_field _ _ Hf), (split_bar_field _ _ Hx), Hi.
  change (is_prefix (lit "0x") (lit "0x" ++ hex8 true r.1.2)) with true.
  by rewrite Ha.
Qed.

Lemma file_lines_strings_file (rs : list (Z * Z * text)) :
  Forall readable rs →
  file_lines (concat (strings_file_line <$> rs)) = strings_file_line <$> rs.
Proof.
  unfold file_lines. induction 1 as [|r rs (Hs & _) _ IH]; [done|].
  rewrite fmap_cons. cbn [concat].
  destruct (strings_file_line_body r) as (body & -> & _ & Hn).
  rewrite <- app_assoc. cbn [app].
  rewrite file_lines_from_line by auto. by rewrite IH.
Qed.

(** The lines of the records, read back: every record gives its address
    a replacement, the text of the record after the escaping and the
    unescaping; a later record of the same address takes the place of an
    earlier one. *)
Lemma read_replacements_records (rs : list (Z * Z * text)) :
  Forall readable rs →
  read_replacements (concat (strings_file_line <$> rs))
  = foldl (λ replacements r,
             <[r.1.2 := unescapeFromTable (escapeForTable r.2)]>
               replacements)
      ∅ rs.
Proof.
  intros Hrs. unfold read_replacements.
  rewrite file_lines_strings_file by done.
  generalize (∅ : gmap Z text).
  induction Hrs as [|r rs Hr _ IH]; intros m; [done|]. simpl.
  rewrite (parse_strings_file_line _ Hr). apply IH.
Qed.

End ReadBack.

Lemma foldl_insert_lookup {A} (f : A → Z) (g : A → text) (rs : list A) :
  ∀ (m : gmap Z text) (a : Z) (t : text),
    foldl (λ m r, <[f r := g r]> m) m rs !! a = Some t →
    m !! a = Some t ∨ ∃ r, r ∈ rs ∧ f r = a ∧ g r = t.
Proof.
  induction rs as [|x rs IH]; intros m a t; simpl; [by left|].
  intros [Hm|(r & Hr & Hf & Hg)]%IH.
  - destruct (decide (f x = a)) as [Hx|Hx].
    + rewrite <- Hx, lookup_insert_eq in Hm. injection Hm as Hm.
      right. exists x. split; [by left | done].
    + rewrite lookup_insert_ne in Hm by done. by left.
  - right. exists r. split; [by right | done].
Qed.

Lemma foldl_insert_kept {A} (f : A → Z) (g : A → text) (rs : list A) :
  ∀ (m : gmap Z text) (a : Z) (t : text),
    m !! a = Some t →
    (∀ r, r ∈ rs → f r = a → g r = t) →
    foldl (λ m r, <[f r := g r]> m) m rs !! a = Some t.
Proof.
  induction rs as [|x rs IH]; intros m a t Hm Hrs; simpl; [done|].
  apply IH.
  - destruct (decide (f x = a)) as [Hx|Hx].
    + rewrite <- Hx, lookup_insert_eq. f_equal. apply Hrs; [by left|done].
    + by rewrite lookup_insert_ne.
  - intros r Hr. apply Hrs. by right.
Qed.

Lemma foldl_insert_elem {A} (f : A → Z) (g : A → text) (rs : list A) :
  (∀ r r', r ∈ rs → r' ∈ rs → f r = f r' → g r = g r') →
  ∀ (m : gmap Z text) (r : A),
    r ∈ rs → foldl (λ m r, <[f r := g r]> m) m rs !! f r = Some (g r).
Proof.
  induction rs as [|x rs IH]; intros Hinj m r Hr; simpl.
  { by apply elem_of_nil in Hr. }
  apply elem_of_cons in Hr as [->|Hr].
  - apply foldl_insert_kept; [by rewrite lookup_insert_eq|].
    intros r' Hr' Hf. apply Hinj; [by right | by left | done].
  - apply IH; [|done]. intros r1 r2 H1 H2. apply Hinj; by right.
Qed.

Section DecodedStringsFile.
Context `{Runtime} `{IntRuntime}.

Lemma hcb_decode_strings_increasing (data : list byte) (d : decoded) :
  hcb_decode data = Done d →
  ∀ i j r r', (i < j)%nat →
    strings_list d !! i = Some r → strings_list d !! j = Some r' →
    r.1.2 < r'.1.2.
Proof.
  intros Hd. unfold hcb_decode in Hd.
  destruct (len data <? 4); [done|].
  destruct (unpack_u32 data 0) as [entry_point|]; [|done].
  destruct (pass1 data entry_point) as [st1| |]; [|done..].
  destruct (pass2 data entry_point _ _) as [st2| |] eqn:H2; [|done..].
  injection Hd as <-. simpl.
  assert (Hinit : pass2_strings_ok data entry_point pass2_init).
  { split; [simpl; lia|]. split; [done|]. split; intros *; by simpl. }
  destruct (while_invariant _ _
              (pass2_step_strings_ok data entry_point (p1_functions st1)
                 (p1_labels st1)) _ _ _ Hinit H2)
    as (s0 & (_ & _ & _ & Hinc) & Hb).
  rewrite (pass2_step_break_strings _ _ _ _ _ _ Hb). exact Hinc.
Qed.

(** The strings file of the decoder, read back by the rebuilder (lines
    309-312 and 335-356): when [int] reads the ids and the addresses of
    the file, an address has a replacement exactly when the decoder
    listed a string at that address, and the replacement is the text of
    that string after the escaping and the unescaping. *)
Theorem read_replacements_strings_file (data : list byte) (d : decoded) :
  hcb_decode data = Done d →
  Forall readable (strings_list d) →
  ∀ addr t,
    read_replacements (strings_file d) !! addr = Some t
    ↔ ∃ sid str,
        (sid, addr, str) ∈ strings_list d
        ∧ t = unescapeFromTable (escapeForTable str).
Proof.
  intros Hd Hr addr t. unfold strings_file.
  rewrite (read_replacements_records _ Hr). split.
  - intros [Hm|([[sid a] str] & Hin & Ha & Ht)]%foldl_insert_lookup.
    { by rewrite lookup_empty in Hm. }
    simpl in *. subst a. by exists sid, str.
  - intros (sid & str & Hin & ->).
    apply (foldl_insert_elem (λ r : Z * Z * text, r.1.2)
             (λ r, unescapeFromTable (escapeForTable r.2))
             (strings_list d))
      with (r := (sid, addr, str)); [|done].
    intros r r' [i Hi]%list_elem_of_lookup [j Hj]%list_elem_of_lookup Hf.
    pose proof (hcb_decode_strings_increasing _ _ Hd) as Hinc.
    destruct (Nat.lt_trichotomy i j) as [Hlt|[->|Hlt]].
    + pose proof (Hinc _ _ _ _ Hlt Hi Hj). lia.
    + congruence.
    + pose proof (Hinc _ _ _ _ Hlt Hj Hi). lia.
Qed.

End DecodedStringsFile.

Section SameStrings.
Context `{Runtime}.

(** The operand written for a string whose replacement is the text that
    the string holds is the operand of the original. *)
Lemma replace_string_same (data : list byte) (replacements : gmap Z text)
    (pos : Z) (l : byte) (t : text) (messages : list message) :
  0 <= pos →
  pos + 2 + byte_val l <= len data →
  data_at data (pos + 1) = Some l →
  replacements !! pos = Some t →
  same_string data pos t →
  replace_string replacements pos (byte_val l)
    (slice data (pos + 2) (pos + 2 + byte_val l)) messages
  = (slice data (pos + 2) (pos + 2 + byte_val l), messages).
Proof.
  intros Hp Hlen Hl Hr (l' & body & Hl' & Hs & Hlast & He).
  assert (l' = l) as -> by congruence.
  pose proof (byte_val_range l) as HL.
  pose proof (slice_length data (pos + 2) (byte_val l)
                ltac:(lia) ltac:(lia) ltac:(lia)) as Hsl.
  rewrite Hs, len_app in Hsl. change (len [x00]) with 1 in Hsl.
  unfold replace_string. rewrite Hr, He, Hs. f_equal.
  unfold ensure_nul. rewrite bool_decide_eq_false_2 by done.
  pose proof (len_nonneg body) as Hb.
  destruct (fit_length_terminated body (byte_val l))
    as (_ & _ & _ & _ & Heq); [lia|].
  apply Heq. lia.
Qed.

(** A turn of the rebuilder at an instruction that lies in the file
    copies the instruction, when a replacement for it is the text that
    it holds. *)
Lemma rebuild_step_same (data : list byte) (code_end : Z)
    (replacements : gmap Z text) (pos : Z) (new_code : list byte)
    (messages : list message) (size : Z) :
  0 <= pos < code_end →
  instr_size data pos = Some size →
  pos + size <= len data →
  (∀ t, data_at data pos = Some x0e → replacements !! pos = Some t →
        same_string data pos t) →
  rebuild_step data code_end replacements (Rebuild pos new_code messages)
  = Continue (Rebuild (pos + size)
                (new_code ++ slice data pos (pos + size)) messages).
Proof.
  intros Hp Hs Hl Hsame.
  destruct (replacements !! pos) as [t|] eqn:Hr.
  2: { apply rebuild_step_copies; try done. }
  destruct (decide (data_at data pos = Some x0e)) as [Hb|Hb].
  2: { apply rebuild_step_copies; try done. }
  specialize (Hsame t Hb eq_refl).
  unfold instr_size in Hs. rewrite Hb in Hs. simpl in Hs.
  destruct (data_at data (pos + 1)) as [l|] eqn:Hl1; [|done].
  simpl in Hs. injection Hs as <-.
  pose proof (byte_val_range l) as HL.
  rewrite (rebuild_step_string _ _ _ _ _ _ x0e l "pushstring"
             (proj2 Hp) Hb eq_refl Hl1).
  replace (pos + 1 + 1) with (pos + 2) by lia.
  rewrite (replace_string_same data replacements pos l t messages)
    by (done || lia).
  simpl. rewrite slice_length, byte_of_Z_val by lia.
  rewrite (slice_cons data pos _ x0e) by (done || lia).
  rewrite (slice_cons data (pos + 1) _ l) by (done || lia).
  replace (pos + (2 + byte_val l)) with (pos + 2 + byte_val l) by lia.
  replace (pos + 1 + 1) with (pos + 2) by lia.
  by rewrite <- app_assoc.
Qed.

Lemma rebuild_loop_same (data : list byte) (code_end : Z)
    (replacements : gmap Z text) :
  code_end <= len data →
  (∀ pos t, data_at data pos = Some x0e → replacements !! pos = Some t →
            same_string data pos t) →
  ∀ fuel pos new_code messages,
    0 <= pos →
    tiles fuel data pos code_end = true →
    while fuel (rebuild_step data code_end replacements)
      (Rebuild pos new_code messages)
    = Done (Rebuild code_end (new_code ++ slice data pos code_end) messages).
Proof.
  intros Hce Hrep fuel.
  induction fuel as [|fuel IH]; intros pos new_code messages Hp Ht; [done|].
  simpl in Ht.
  destruct (Z.eqb_spec pos code_end) as [->|Hne].
  { rewrite slice_nil, app_nil_r. apply while_break.
    unfold rebuild_step. simpl. by rewrite Z.ltb_irrefl. }
  destruct (Z.ltb_spec code_end pos) as [?|Hlt]; [done|].
  destruct (instr_size data pos) as [size|] eqn:Hs; [|done].
  pose proof (tiles_le _ _ _ _ Ht) as Hle.
  pose proof (instr_size_pos _ _ _ Hs) as Hsz.
  rewrite (while_continue _ _ _ _
             (rebuild_step_same data code_end replacements pos new_code
                messages size ltac:(lia) Hs ltac:(lia) (Hrep pos))).
  rewrite IH by (done || lia).
  by rewrite <- app_assoc, slice_app by lia.
Qed.

Lemma hcb_rebuild_same (data : list byte) (replacements : gmap Z text) :
  well_formed data = true →
  (∀ pos t, data_at data pos = Some x0e → replacements !! pos = Some t →
            same_string data pos t) →
  hcb_rebuild data replacements = Done (Rebuilt data []).
Proof.
  intros Hwf Hrep. unfold hcb_rebuild.
  case_bool_decide as He; [done|].
  unfold well_formed in Hwf.
  destruct (unpack_u32 data 0) as [entry_point|] eqn:Hu; [|done].
  apply andb_true_iff in Hwf as [[H4 Hl]%andb_true_iff Ht]. bool_cases.
  rewrite (rebuild_loop_same data entry_point replacements Hl Hrep
             (length data) 4 [] [] ltac:(lia) Ht).
  rewrite (pack_unpack_header _ _ Hu). simpl. do 2 f_equal.
  unfold slice. change (Z.to_nat 4) with 4%nat.
  rewrite app_assoc, take_take_drop.
  replace (4 + Z.to_nat (entry_point - 4))%nat with (Z.to_nat entry_point)
    by lia.
  apply take_drop.
Qed.

Context `{IntRuntime}.

(** The rebuilder on a strings file that was not edited (lines 335-470):
    for a well-formed file and the lines of records of which each text
    is the text of the string at its address (the operand there is the
    encoded text and one null byte) and is a text that the escaping and
    the unescaping give back, the rebuilt file is the original, byte
    for byte, and without a warning. *)
Theorem hcb_rebuild_unedited (data : list byte) (rs : list (Z * Z * text)) :
  well_formed data = true →
  Forall readable rs →
  Forall (λ r, unescapeFromTable (escapeForTable r.2) = r.2
               ∧ same_string data r.1.2 r.2) rs →
  hcb_rebuild data (read_replacements (concat (strings_file_line <$> rs)))
  = Done (Rebuilt data []).
Proof.
  intros Hwf Hr Hsame. rewrite (read_replacements_records _ Hr).
  apply hcb_rebuild_same; [done|].
  intros pos t _ [Hm|(r & Hin & <- & <-)]%foldl_insert_lookup.
  { by rewrite lookup_empty in Hm. }
  rewrite Forall_forall in Hsame. destruct (Hsame r Hin) as [-> Hs]. done.
Qed.

End SameStrings.

Lemma read_replacements_strings_file_witness :
  let data := [x0e; x00; x00; x00; x0e; x02; x61; x00;
               x04; x0e; x03; x62; x63; x00] in
  let d := Decoded
             [ [32; 32] ++ lit "pushstring " ++ [QUOTE] ++ lit "a"
                 ++ [QUOTE] ++ lit "  ; [STR_0000]";
               lit "  ret";
               [32; 32] ++ lit "pushstring " ++ [QUOTE] ++ lit "bc"
                 ++ [QUOTE] ++ lit "  ; [STR_0001]";
               [];
               lit "# ENTRY_POINT: 0x0000000E" ]
             [(0, 4, lit "a"); (1, 9, lit "bc")] (0, 2) in
  hcb_decode data = Done d
  ∧ Forall readable (strings_list d)
  ∧ strings_file d
    = lit "0000|0x00000004|a" ++ [LF] ++ lit "0001|0x00000009|bc" ++ [LF]
  ∧ (read_replacements (strings_file d) !! 9 = Some (lit "bc")
     ↔ ∃ sid str,
         (sid, 9, str) ∈ strings_list d
         ∧ lit "bc" = unescapeFromTable (escapeForTable str)).
Proof.
  intros data d.
  assert (H1 : hcb_decode data = Done d) by (vm_compute; reflexivity).
  assert (H2 : Forall readable (strings_list d)).
  { repeat constructor; simpl; try lia; try by eexists. }
  split; [done|]. split; [done|]. split; [by vm_compute|].
  exact (read_replacements_strings_file data d H1 H2 9 (lit "bc")).
Defined.

Lemma hcb_rebuild_unedited_witness :
  let data := [x0e; x00; x00; x00; x0e; x02; x61; x00;
               x04; x0e; x03; x62; x63; x00] in
  let rs := [(0, 4, lit "a"); (1, 9, lit "bc")] in
  well_formed data = true
  ∧ hcb_rebuild data
      (read_replacements
         (lit "0000|0x00000004|a" ++ [LF]
            ++ lit "0001|0x00000009|bc" ++ [LF]))
    = Done (Rebuilt data []).
Proof.
  intros data rs.
  assert (H1 : well_formed data = true) by (vm_compute; reflexivity).
  assert (H2 : Forall readable rs).
  { repeat constructor; simpl; try lia; try by eexists. }
  assert (H3 : Forall (λ r, unescapeFromTable (escapeForTable r.2) = r.2
                            ∧ same_string data r.1.2 r.2) rs).
  { repeat constructor; try (vm_compute; reflexivity).
    - exists x02, [x61]. by repeat split.
    - exists x03, [x62; x63]. by repeat split. }
  split; [done|].
  exact (hcb_rebuild_unedited data rs H1 H2 H3).
Defined.

(** A string with two null bytes at its end does not come back: the
    text has one character, the new string is shorter than the operand,
    and line 451 fills it with a space. *)
Example hcb_rebuild_unedited_two_nuls :
  let data := [x09; x00; x00; x00; x0e; x03; x61; x00; x00] in
  match hcb_decode data with
  | Done d => strings_list d = [(0, 4, lit "a")]
  | _ => False
  end
  ∧ hcb_rebuild data
      (read_replacements (lit "0000|0x00000004|a" ++ [LF]))
    = Done (Rebuilt [x09; x00; x00; x00; x0e; x03; x61; x20; x00] []).
Proof. split; vm_compute; reflexivity. Qed.

(** ** The parts of the strings file *)

Lemma py_sum_nonneg (sizes : list Z) :
  Forall (λ s, 0 <= s) sizes → 0 <= py_sum sizes.
Proof. induction 1; simpl; lia. Qed.

Lemma py_slice_within {A} (l : list A) (a b : Z) :
  0 <= a <= b → b <= len l →
  py_slice l a b = take (Z.to_nat (b - a)) (drop (Z.to_nat a) l).
Proof.
  intros Ha Hb. unfold py_slice, py_index.
  rewrite !(proj2 (Z.ltb_ge _ _)) by lia.
  by rewrite !Z.min_l by lia.
Qed.

(** The numbers of the parts follow each other, whatever the sizes. *)
Lemma split_loop_numbers (lines : list text) (split_sizes : list Z) :
  ∀ st,
    ∃ new,
      sp_parts (split_loop lines split_sizes st) = sp_parts st ++ new
      ∧ sp_part_num (split_loop lines split_sizes st)
        = sp_part_num st + len new
      ∧ part_number <$> new = seqZ (sp_part_num st) (len new)
      ∧ (length new <= length split_sizes)%nat.
Proof.
  induction split_sizes as [|size rest IH]; intros st; simpl.
  { exists []. rewrite app_nil_r. repeat split; [unfold len; simpl; lia|done]. }
  destruct (len lines <=? sp_current_pos st).
  { exists []. rewrite app_nil_r.
    repeat split; [unfold len; simpl; lia|simpl; lia]. }
  destruct (IH (Split (Z.min (sp_current_pos st + size) (len lines))
                  (sp_part_num st + 1)
                  (sp_parts st
                   ++ [Part (sp_part_num st) (sp_current_pos st)
                         (Z.min (sp_current_pos st + size) (len lines))
                         (py_slice lines (sp_current_pos st)
                            (Z.min (sp_current_pos st + size)
                               (len lines)))])))
    as (new & Hp & Hn & Hs & Hl).
  simpl in *. eexists (_ :: new). rewrite Hp, Hn, <- app_assoc.
  split; [done|]. split; [unfold len; simpl; lia|]. split; [|simpl; lia].
  rewrite fmap_cons. simpl. rewrite Hs.
  rewrite (seqZ_cons (sp_part_num st)) by (unfold len; simpl; lia).
  do 2 f_equal. unfold len. simpl. lia.
Qed.

(** The lines of the parts are the lines of the file, one part after
    the other, as far as the sizes go. *)
Lemma split_loop_lines (lines : list text) (split_sizes : list Z) :
  Forall (λ s, 0 <= s) split_sizes →
  ∀ st new,
    0 <= sp_current_pos st <= len lines →
    sp_parts (split_loop lines split_sizes st) = sp_parts st ++ new →
    sp_current_pos (split_loop lines split_sizes st)
    = Z.min (sp_current_pos st + py_sum split_sizes) (len lines)
    ∧ concat (part_lines <$> new)
      = take (Z.to_nat (py_sum split_sizes))
          (drop (Z.to_nat (sp_current_pos st)) lines).
Proof.
  induction 1 as [|size rest Hsize Hrest IH]; intros st new Hpos; simpl.
  { intros Hnew. rewrite <- (app_nil_r (sp_parts st)) in Hnew at 1.
    apply app_inv_head in Hnew as <-. split; [lia|done]. }
  pose proof (py_sum_nonneg _ Hrest) as Hsum.
  destruct (Z.leb_spec (len lines) (sp_current_pos st)) as [Hge|Hlt].
  { intros Hnew. rewrite <- (app_nil_r (sp_parts st)) in Hnew at 1.
    apply app_inv_head in Hnew as <-. split; [lia|]. simpl.
    rewrite drop_ge by (unfold len in *; lia). by rewrite take_nil. }
  set (end_pos := Z.min (sp_current_pos st + size) (len lines)).
  set (p := Part _ _ _ _).
  destruct (split_loop_numbers lines rest
              (Split end_pos (sp_part_num st + 1) (sp_parts st ++ [p])))
    as (new1 & Hp1 & _).
  intros Hnew. rewrite Hp1 in Hnew. simpl in Hnew.
  rewrite <- app_assoc in Hnew. apply app_inv_head in Hnew as <-.
  destruct (IH (Split end_pos (sp_part_num st + 1) (sp_parts st ++ [p]))
              new1) as [Hc Hl]; [simpl; lia|done|].
  simpl in Hc, Hl. rewrite Hc. split; [lia|].
  change ([p] ++ new1) with (p :: new1). rewrite fmap_cons.
  cbn [concat]. rewrite Hl. unfold p. cbn [part_lines].
  rewrite py_slice_within by lia.
  destruct (Z.le_gt_cases (sp_current_pos st + size) (len lines)) as [Hi|Ho].
  - replace end_pos with (sp_current_pos st + size) by lia.
    replace (Z.to_nat (sp_current_pos st + size))
      with (Z.to_nat (sp_current_pos st) + Z.to_nat size)%nat by lia.
    rewrite <- (drop_drop lines (Z.to_nat size)
                  (Z.to_nat (sp_current_pos st))).
    replace (sp_current_pos st + size - sp_current_pos st) with size by lia.
    rewrite take_take_drop. f_equal. lia.
  - replace end_pos with (len lines) by lia.
    rewrite (drop_ge lines (Z.to_nat (len lines)))
      by (unfold len; lia).
    rewrite take_nil, app_nil_r.
    rewrite !take_ge; [done|rewrite length_drop..]; unfold len in *; lia.
Qed.

(** split_strings.py and split_strings_ES.py, for sizes that are not
    negative: the files written are those of parts, numbered from 1, of
    which the lines, one part after the other, are the lines of the
    file as far as the sum of the sizes goes; none is lost or written
    twice.  The lines left are those beyond that sum, and the number
    returned is the number of the files written. *)
Theorem split_strings_partition (prefix : text) (lines : list text)
    (split_sizes : list Z) :
  Forall (λ s, 0 <= s) split_sizes →
  ∃ parts,
    SplitStrings.split_parts prefix lines split_sizes
    = (part_file (lit "L" ++ [237] ++ lit "neas") prefix <$> parts,
       Z.max (len lines - py_sum split_sizes) 0,
       len parts)
    ∧ concat (part_lines <$> parts)
      = take (Z.to_nat (py_sum split_sizes)) lines
    ∧ part_number <$> parts = seqZ 1 (len parts)
    ∧ (length parts <= length split_sizes)%nat.
Proof.
  intros Hs. unfold SplitStrings.split_parts.
  destruct (split_loop_numbers lines split_sizes (Split 0 1 []))
    as (parts & Hp & Hn & Hnum & Hlen).
  destruct (split_loop_lines lines split_sizes Hs (Split 0 1 []) parts)
    as [Hc Hl]; [simpl; unfold len; lia|done|].
  cbn [sp_parts sp_part_num sp_current_pos app] in *.
  exists parts. rewrite Hp, Hn, Hc.
  pose proof (py_sum_nonneg _ Hs).
  split; [do 2 f_equal; lia|]. by rewrite Hl.
Qed.

(** split_all.py, whatever the sizes: build.txt lists the files of the
    parts that were written, in their order. *)
Theorem split_all_build_lists_parts (lines : list text) (dir_name : text)
    (split_sizes : list Z) (prefix : text) :
  (SplitAll.split_strings lines dir_name split_sizes prefix).2
  = lit "# Build script para reconstruir" ++ [LF]
      ++ lit "# Usar: python fvp_tools.py hcb-merge " ++ dir_name
      ++ lit "/build.txt strings_merged.txt" ++ [LF]
      ++ lit "#" ++ [LF]
      ++ concat ((λ f, dir_name ++ lit "/" ++ f.1 ++ [LF])
                   <$> (SplitAll.split_strings lines dir_name split_sizes
                          prefix).1).
Proof.
  unfold SplitAll.split_strings, SplitAll.build_file.
  destruct (split_loop_numbers lines split_sizes (Split 0 1 []))
    as (parts & Hp & Hn & Hnum & _).
  cbn [sp_parts sp_part_num app] in Hp, Hn, Hnum. cbn [fst snd].
  rewrite Hp, Hn. do 9 f_equal.
  replace (1 + len parts - 1) with (len parts) by lia.
  rewrite <- Hnum, <- !list_fmap_compose. apply list_fmap_ext.
  intros i p _. simpl. by rewrite <- !app_assoc.
Qed.

Lemma split_strings_partition_witness :
  let lines := [lit "a" ++ [LF]; lit "b" ++ [LF]; lit "c" ++ [LF]] in
  let split_sizes := [2; 5; 1] in
  Forall (λ s, 0 <= s) split_sizes
  ∧ ∃ parts,
      SplitStrings.split_strings lines split_sizes
      = (part_file (lit "L" ++ [237] ++ lit "neas") (lit "strings_part")
           <$> parts,
         Z.max (len lines - py_sum split_sizes) 0,
         len parts)
      ∧ concat (part_lines <$> parts)
        = take (Z.to_nat (py_sum split_sizes)) lines
      ∧ part_number <$> parts = seqZ 1 (len parts)
      ∧ (length parts <= length split_sizes)%nat.
Proof.
  intros lines split_sizes.
  assert (Hs : Forall (λ s, 0 <= s) split_sizes)
    by (repeat constructor; lia).
  exact (conj Hs
           (split_strings_partition (lit "strings_part") lines split_sizes
              Hs)).
Defined.

(** Two parts for three lines: the third size is not reached. *)
Example split_strings_two_parts :
  SplitStrings.split_strings
    [lit "a" ++ [LF]; lit "b" ++ [LF]; lit "c" ++ [LF]] [2; 5; 1]
  = ([ (lit "strings_part01.txt",
        lit "# Parte 1 - L" ++ [237] ++ lit "neas 1 a 2" ++ [LF]
          ++ lit "# Total en esta parte: 2 strings" ++ [LF]
          ++ lit "# Formato: ID|ADDRESS|TEXT" ++ [LF]
          ++ lit "#" ++ [LF] ++ lit "a" ++ [LF] ++ lit "b" ++ [LF]);
       (lit "strings_part02.txt",
        lit "# Parte 2 - L" ++ [237] ++ lit "neas 3 a 3" ++ [LF]
          ++ lit "# Total en esta parte: 1 strings" ++ [LF]
          ++ lit "# Formato: ID|ADDRESS|TEXT" ++ [LF]
          ++ lit "#" ++ [LF] ++ lit "c" ++ [LF]) ],
     0, 2).
Proof. vm_compute. reflexivity. Qed.

(** A negative size moves the position back: the second line is
    written twice. *)
Example split_loop_negative_size :
  part_lines
    <$> sp_parts (split_loop [lit "a"; lit "b"; lit "c"] [2; -1; 2]
                    (Split 0 1 []))
  = [[lit "a"; lit "b"]; []; [lit "b"; lit "c"]].
Proof. vm_compute. reflexivity. Qed.

(** ** The archive: when the packer succeeds *)

Lemma pack_u32_is_Some (v : Z) :
  0 <= v < 4294967296 → is_Some (pack_u32 v).
Proof.
  intros Hv. unfold pack_u32.
  rewrite (proj2 (Z.leb_le 0 v)), (proj2 (Z.ltb_lt v _)) by lia. simpl.
  destruct (byte_of_Z_is_Some (v mod 256)) as [b0 ->];
    [apply Z.mod_pos_bound; lia|].
  destruct (byte_of_Z_is_Some (v / 256 mod 256)) as [b1 ->];
    [apply Z.mod_pos_bound; lia|].
  destruct (byte_of_Z_is_Some (v / 65536 mod 256)) as [b2 ->];
    [apply Z.mod_pos_bound; lia|].
  destruct (byte_of_Z_is_Some (v / 16777216 mod 256)) as [b3 ->];
    [apply Z.mod_pos_bound; lia|].
  simpl. eauto.
Qed.

Lemma pack_III_is_Some (e : Z * Z * Z) : u32_entry e → is_Some (pack_III e).
Proof.
  intros (Ha & Hb & Hc). unfold pack_III.
  destruct (pack_u32_is_Some _ Ha) as [a ->].
  destruct (pack_u32_is_Some _ Hb) as [b ->].
  destruct (pack_u32_is_Some _ Hc) as [c ->]. simpl. eauto.
Qed.

Lemma write_table_is_Some (entries : list (Z * Z * Z)) :
  Forall u32_entry entries → ∀ out, is_Some (write_table entries out).
Proof.
  induction 1 as [|e entries He _ IH]; intros out; simpl; [eauto|].
  destruct (pack_III_is_Some _ He) as [b ->]. simpl. apply IH.
Qed.

Lemma total_len_nonneg (items : list (list byte)) : 0 <= total_len items.
Proof. rewrite total_len_concat. apply len_nonneg. Qed.

Lemma total_len_cons (x : list byte) (items : list (list byte)) :
  total_len (x :: items) = len x + total_len items.
Proof. done. Qed.

Lemma offsets_from_bounds (items : list (list byte)) :
  ∀ start,
    Forall (λ n, start <= n <= start + total_len items)
      (offsets_from start items).
Proof.
  induction items as [|x items IH]; intros start; simpl; [constructor|].
  pose proof (total_len_nonneg items). pose proof (len_nonneg x).
  change (foldr _ 0 items) with (total_len items).
  constructor; [lia|].
  eapply Forall_impl; [apply IH|]. simpl. intros n Hn. lia.
Qed.

Lemma entries_from_bounds (files : list (text * list byte)) :
  ∀ name_offsets file_offset,
    Forall (λ n, 0 <= n < 4294967296) name_offsets →
    0 <= file_offset →
    file_offset + total_len (snd <$> files) < 4294967296 →
    Forall u32_entry (entries_from name_offsets file_offset files).
Proof.
  induction files as [|f files IH]; intros [|n ns] foff Hn Hf Ht;
    simpl; try constructor.
  - apply Forall_cons in Hn as [Hn _].
    rewrite fmap_cons, total_len_cons in Ht.
    pose proof (total_len_nonneg (snd <$> files)).
    pose proof (len_nonneg f.2). unfold u32_entry. simpl. lia.
  - apply Forall_cons in Hn as [_ Hn].
    rewrite fmap_cons, total_len_cons in Ht.
    pose proof (len_nonneg f.2). apply IH; [done|lia|lia].
Qed.

Section ArchivePacked.
Context `{ArchiveRuntime}.

(** [bin_pack] succeeds on every folder that is not empty and of which
    the archive is below 4 GiB: [name_offsets[i]] is there for every
    file, [struct.pack] has a value of 32 bits every time, and the
    archive has the size of the header, the table, the names and the
    contents. *)
Theorem bin_pack_succeeds (files : list (text * list byte)) :
  files ≠ [] →
  archive_size files < 4294967296 →
  ∃ archive,
    bin_pack files = Done (Some archive)
    ∧ len archive = archive_size files
    ∧ unpack_u32 archive 0 = Some (len files)
    ∧ unpack_u32 archive 4
      = Some (total_len ((λ f, archive_name f.1) <$> files)).
Proof.
  intros Hne Hsize. unfold archive_size in Hsize.
  set (names := (λ f, archive_name f.1) <$> files) in *.
  pose proof (total_len_nonneg names) as Hn0.
  pose proof (total_len_nonneg (snd <$> files)) as Hc0.
  pose proof (len_nonneg files) as Hf0.
  assert (Hrun : ∃ archive, bin_pack files = Done (Some archive)).
  { unfold bin_pack. rewrite bool_decide_eq_false_2 by done.
    fold names.
    destruct (pack_u32_is_Some (len files)) as [h1 H1]; [lia|].
    destruct (pack_u32_is_Some (total_len names)) as [h2 H2]; [lia|].
    rewrite H1, H2.
    pose proof (pack_u32_length _ _ H1) as L1.
    pose proof (pack_u32_length _ _ H2) as L2.
    set (zeros := replicate (Z.to_nat (len files * 12)) x00).
    assert (Lz : len zeros = len files * 12).
    { unfold zeros, len. rewrite length_replicate. lia. }
    rewrite (wf_write_end (WFile [] 0) h1) by done. simpl.
    rewrite (wf_write_end (WFile h1 _) h2) by done. simpl.
    rewrite (wf_write_end (WFile (h1 ++ h2) _) zeros) by done. simpl.
    unfold write_names. rewrite write_names_from by done. simpl.
    rewrite write_files_from; simpl; [|done|].
    2: { rewrite drop_0, offsets_from_length. unfold names.
         by rewrite length_fmap. }
    rewrite drop_0.
    replace (len ((h1 ++ h2) ++ zeros) - (8 + len files * 12)) with 0
      by (rewrite !len_app; lia).
    destruct (write_table_is_Some
                (entries_from (offsets_from 0 names)
                   (len (((h1 ++ h2) ++ zeros) ++ concat names)) files))
      with (out := wf_seek
                     (WFile
                        ((((h1 ++ h2) ++ zeros) ++ concat names)
                           ++ concat (snd <$> files))
                        (len
                           ((((h1 ++ h2) ++ zeros) ++ concat names)
                              ++ concat (snd <$> files)))) 8)
      as [out ->]; [|eauto].
    apply entries_from_bounds.
    - eapply Forall_impl; [apply offsets_from_bounds|].
      simpl. intros n Hn. lia.
    - apply len_nonneg.
    - rewrite !len_app, <- total_len_concat. lia. }
  destruct Hrun as [archive Hpack]. exists archive. split; [done|].
  destruct (bin_pack_layout _ _ Hpack)
    as (h1 & h2 & bs & H1 & H2 & Hbs & Ha).
  fold names in H2, Hbs, Ha.
  pose proof (pack_u32_length _ _ H1) as L1.
  pose proof (pack_u32_length _ _ H2) as L2.
  pose proof (packed_entries_length _ _ Hbs) as Lb.
  rewrite <- total_len_concat in Lb. unfold len in Lb.
  rewrite entries_from_length in Lb
    by (rewrite offsets_from_length; unfold names; by rewrite length_fmap).
  split; [|split].
  - rewrite Ha, !len_app, <- !total_len_concat.
    unfold archive_size. fold names. unfold len in *. lia.
  - rewrite Ha, <- app_assoc. exact (unpack_pack_u32 _ _ [] _ H1).
  - rewrite Ha, <- app_assoc, <- L1. exact (unpack_pack_u32 _ _ h1 _ H2).
Qed.

End ArchivePacked.

Lemma bin_pack_succeeds_witness :
  let files := [(lit "0007_a", [x4f; x67; x67; x53]); (lit "b", [x02])] in
  files ≠ []
  ∧ archive_size files < 4294967296
  ∧ ∃ archive,
      bin_pack files = Done (Some archive)
      ∧ len archive = archive_size files
      ∧ unpack_u32 archive 0 = Some (len files)
      ∧ unpack_u32 archive 4
        = Some (total_len ((λ f, archive_name f.1) <$> files)).
Proof.
  intros files.
  assert (H1 : files ≠ []) by done.
  assert (H2 : archive_size files < 4294967296) by (vm_compute; reflexivity).
  exact (conj H1 (conj H2 (bin_pack_succeeds files H1 H2))).
Defined.

(** ** The archive: the names of the files that were extracted *)

Lemma pretty_N_go_length_le (k : nat) :
  ∀ x s,
    (x < 10 ^ N.of_nat k)%N →
    (length (lit (pretty_N_go x s)) <= length (lit s) + k)%nat.
Proof.
  induction k as [|k IH]; intros x s Hx.
  { assert (x = 0%N) as -> by (simpl in Hx; lia).
    rewrite pretty_N_go_0. lia. }
  destruct (decide (x = 0)%N) as [->|Hx0].
  { rewrite pretty_N_go_0. lia. }
  rewrite pretty_N_go_step by lia.
  etrans; [apply IH|rewrite lit_String; simpl; lia].
  rewrite Nat2N.inj_succ, N.pow_succ_r' in Hx.
  apply N.Div0.div_lt_upper_bound. lia.
Qed.

Lemma dec4_length (v : Z) : 0 <= v < 10000 → length (dec4 v) = 4%nat.
Proof.
  intros Hv. unfold dec4.
  assert (Hd : (length (dec v) <= 4)%nat).
  { unfold dec. destruct v as [|p|p]; [simpl; lia| |lia].
    change (pretty (Z.pos p)) with (pretty_N_go (N.pos p) "").
    apply (pretty_N_go_length_le 4 (N.pos p) ""). simpl. lia. }
  rewrite length_app, length_replicate. lia.
Qed.

Section ExtractedNames.
Context `{ArchiveRuntime}.

(** The packer takes from the name of a file that the extractor wrote
    the number that the extractor put before it (lines 726 and
    760-762), for the first ten thousand files of an archive, those of
    which the number has four digits. *)
Theorem clean_name_extracted (i : Z) (name : text) :
  0 <= i < 10000 →
  str_isdigit (dec4 i) = true →
  clean_name (dec4 i ++ lit "_" ++ name) = name.
Proof.
  intros Hi Hd. pose proof (dec4_length i Hi) as Hl. unfold clean_name.
  rewrite (drop_app_length' (dec4 i) _ 4) by done.
  rewrite (take_app_length' (dec4 i) _ 4), Hd by done.
  rewrite bool_decide_eq_true_2 by done. cbn [andb].
  change 5%nat with (4 + 1)%nat.
  by rewrite <- drop_drop, (drop_app_length' (dec4 i) _ 4).
Qed.

End ExtractedNames.

Lemma clean_name_extracted_witness :
  0 <= 12 < 10000
  ∧ str_isdigit (dec4 12) = true
  ∧ clean_name (lit "0012_voice.ogg") = lit "voice.ogg".
Proof.
  assert (H1 : 0 <= 12 < 10000) by lia.
  assert (H2 : str_isdigit (dec4 12) = true) by reflexivity.
  exact (conj H1 (conj H2 (clean_name_extracted 12 (lit "voice.ogg") H1 H2))).
Defined.

(** The number of a later file has five digits, and stays in the
    name. *)
Example clean_name_five_digits :
  str_isdigit (dec4 10000) = true
  ∧ clean_name (dec4 10000 ++ lit "_" ++ lit "a") = lit "10000_a".
Proof. split; vm_compute; reflexivity. Qed.

(** ** The archive: when the extractor fails *)



Section ArchiveErrors.
Context `{ArchiveRuntime}.


End ArchiveErrors.

(** An entry that points beyond the end of the file gives a file
    without a name and without content. *)
Example bin_extract_offsets_beyond :
  bin_extract
    [x01; x00; x00; x00; x00; x00; x00; x00;
     x63; x00; x00; x00; x64; x00; x00; x00; x05; x00; x00; x00]
    false
  = Done [(lit "0000_", [])].
Proof. vm_compute. reflexivity. Qed.

(** ** NVSG: the header that is written is the header that is read *)

Lemma r_bind_inr {A B} (m : reader A) (k : A → reader B)
    (rest rest' : list byte) (a : A) :
  m rest = inr (a, rest') → r_bind m k rest = k a rest'.
Proof. unfold r_bind. by intros ->. Qed.

Lemma f_read_app (n : nat) (bs tl : list byte) :
  length bs = n → f_read n (bs ++ tl) = inr (bs, tl).
Proof.
  intros <-. unfold f_read. by rewrite take_app_length, drop_app_length.
Qed.

Lemma unpack_H_pack_u16 (v : Z) (bs : list byte) :
  pack_u16 v = Some bs → length bs = 2%nat ∧ unpack_H bs = Some v.
Proof.
  unfold pack_u16.
  destruct ((0 <=? v) && (v <? 65536)) eqn:Hr; [|done].
  apply andb_true_iff in Hr as [H0 H1]. bool_cases.
  destruct (byte_of_Z (v mod 256)) as [b0|] eqn:E0; [|done].
  destruct (byte_of_Z (v / 256 mod 256)) as [b1|] eqn:E1; [|done].
  intros [= <-]. split; [done|]. simpl.
  apply byte_of_Z_Some in E0, E1. rewrite E0, E1. f_equal.
  rewrite (Z.mod_small (v / 256)) by (split; [apply Z.div_pos|
    apply Z.div_lt_upper_bound]; lia).
  pose proof (Z.div_mod v 256 ltac:(lia)). lia.
Qed.

Lemma unpack_I_pack_u32 (v : Z) (bs : list byte) :
  pack_u32 v = Some bs → length bs = 4%nat ∧ unpack_I bs = Some v.
Proof.
  intros Hp. pose proof (pack_u32_length _ _ Hp) as Hl.
  pose proof (unpack_pack_u32 v bs [] [] Hp) as Hu.
  unfold len in Hl.
  destruct bs as [|b0 [|b1 [|b2 [|b3 [|b4 r]]]]]; simpl in Hl; try lia.
  split; [done|]. exact Hu.
Qed.

Lemma read_H_app (v : Z) (bs tl : list byte) :
  pack_u16 v = Some bs → read_H (bs ++ tl) = inr (v, tl).
Proof.
  intros [Hl Hu]%unpack_H_pack_u16. unfold read_H.
  rewrite (r_bind_inr _ _ _ _ _ (f_read_app 2 bs tl Hl)). by rewrite Hu.
Qed.

Lemma read_I_app (v : Z) (bs tl : list byte) :
  pack_u32 v = Some bs → read_I (bs ++ tl) = inr (v, tl).
Proof.
  intros [Hl Hu]%unpack_I_pack_u32. unfold read_I.
  rewrite (r_bind_inr _ _ _ _ _ (f_read_app 4 bs tl Hl)). by rewrite Hu.
Qed.

Section NvsgRoundTrip.
Context `{ImageRuntime}.

Lemma nvsg_read_nvsg_write (fmt width height x y image_count : Z)
    (data compressed file : list byte) :
  nvsg_write fmt width height x y image_count data compressed = Some file →
  nvsg_read file
  = inr ((fmt, width, height, x, y, image_count, compressed), []).
Proof.
  unfold nvsg_write. intros Hw.
  destruct (pack_u32 (len data)) as [b1|] eqn:E1; [|done].
  destruct (pack_u32 32) as [b2|] eqn:E2; [|done].
  destruct (pack_u16 256) as [b3|] eqn:E3; [|done].
  destruct (pack_u16 fmt) as [b4|] eqn:E4; [|done].
  destruct (pack_u16 width) as [b5|] eqn:E5; [|done].
  destruct (pack_u16 height) as [b6|] eqn:E6; [|done].
  destruct (pack_u16 x) as [b7|] eqn:E7; [|done].
  destruct (pack_u16 y) as [b8|] eqn:E8; [|done].
  destruct (pack_u16 0) as [b9|] eqn:E9; [|done].
  destruct (pack_u32 image_count) as [b10|] eqn:E10; [|done].
  destruct (pack_u32 0) as [b11|] eqn:E11; [|done].
  apply (inj Some) in Hw. subst file. unfold nvsg_read.
  rewrite (r_bind_inr _ _ _ _ _ (f_read_app 4 HZC1 _ eq_refl)).
  rewrite bool_decide_eq_false_2 by (by intros []).
  rewrite (r_bind_inr _ _ _ _ _ (read_I_app _ _ _ E1)).
  rewrite (r_bind_inr _ _ _ _ _ (read_I_app _ _ _ E2)).
  rewrite (r_bind_inr _ _ _ _ _ (f_read_app 4 NVSG _ eq_refl)).
  rewrite bool_decide_eq_false_2 by (by intros []).
  rewrite (r_bind_inr _ _ _ _ _ (read_H_app _ _ _ E3)).
  rewrite (r_bind_inr _ _ _ _ _ (read_H_app _ _ _ E4)).
  rewrite (r_bind_inr _ _ _ _ _ (read_H_app _ _ _ E5)).
  rewrite (r_bind_inr _ _ _ _ _ (read_H_app _ _ _ E6)).
  rewrite (r_bind_inr _ _ _ _ _ (read_H_app _ _ _ E7)).
  rewrite (r_bind_inr _ _ _ _ _ (read_H_app _ _ _ E8)).
  rewrite (r_bind_inr _ _ _ _ _ (read_H_app _ _ _ E9)).
  rewrite (r_bind_inr _ _ _ _ _ (read_H_app _ _ _ E9)).
  rewrite (r_bind_inr _ _ _ _ _ (read_I_app _ _ _ E10)).
  rewrite (r_bind_inr _ _ _ _ _ (read_I_app _ _ _ E11)).
  rewrite (r_bind_inr _ _ _ _ _ (read_I_app _ _ _ E11)).
  reflexivity.
Qed.

(** [nvsg_decode] after [nvsg_encode]: the decoder reads the header that
    the encoder wrote, field by field, and, when [zlib] gives the
    pixels back, makes its image from the pixels of the encoder with
    the format, the width and the height of a frame that the encoder
    chose; the metadata are those, the position given to the encoder,
    and the number of frames, or 1 when that is 0. *)
Theorem nvsg_decode_nvsg_encode (img : image) (x y image_count : Z)
    (file : list byte) :
  let fmt := (nvsg_format img image_count).1.1 in
  let height := (nvsg_format img image_count).1.2 in
  let width := (img_size img).1 in
  let data := nvsg_pixels fmt (nvsg_format img image_count).2 in
  nvsg_encode img x y image_count = inr file →
  zlib_decompress (zlib_compress data) = Some data →
  nvsg_decode file
  = match nvsg_image fmt width height image_count data with
    | inl e => inl e
    | inr img' =>
        inr (img',
             NvsgMeta x y (if 0 <? image_count then image_count else 1)
               width height fmt)
    end.
Proof.
  intros fmt height width data. unfold nvsg_encode.
  subst fmt height width data.
  destruct (nvsg_format img image_count) as [[fmt height] img1].
  cbn [fst snd].
  destruct (nvsg_write _ _ _ _ _ _ _ _) as [file'|] eqn:Hw; [|done].
  intros [= <-] Hz. unfold nvsg_decode.
  by rewrite (nvsg_read_nvsg_write _ _ _ _ _ _ _ _ _ Hw), Hz.
Qed.

End NvsgRoundTrip.

Lemma nvsg_decode_nvsg_encode_witness :
  let img := ToyImage "RGBA" (1, 2)
               [x01; x02; x03; x04; x05; x06; x07; x08] in
  ∃ file,
    nvsg_encode (H := toy_images) img 3 4 2 = inr file
    ∧ nvsg_decode (H := toy_images) file
      = inr (img, NvsgMeta 3 4 2 1 1 2).
Proof.
  intros img. eexists. split; [vm_compute; reflexivity|].
  etrans.
  { apply (nvsg_decode_nvsg_encode (H := toy_images) img 3 4 2);
      [vm_compute; reflexivity | reflexivity]. }
  vm_compute. reflexivity.
Defined.

(** The file of an image of one frame with alpha, at the position
    (3, 4): the two magics, the size of the pixels, the fields of the
    header in their order, and the pixels. *)
Example nvsg_encode_file :
  nvsg_encode (H := toy_images)
    (ToyImage "RGBA" (1, 1) [x01; x02; x03; x04]) 3 4 1
  = inr ([x68; x7a; x63; x31; x04; x00; x00; x00; x20; x00; x00; x00;
          x4e; x56; x53; x47; x00; x01; x01; x00; x01; x00; x01; x00;
          x03; x00; x04; x00; x00; x00; x00; x00;
          x01; x00; x00; x00; x00; x00; x00; x00; x00; x00; x00; x00;
          x01; x02; x03; x04]).
Proof. vm_compute. reflexivity. Qed.

(** A position that is negative has no field of 16 bits. *)
Example nvsg_encode_negative_position :
  nvsg_encode (H := toy_images)
    (ToyImage "RGB" (1, 1) [x01; x02; x03]) (-1) 0 1
  = inl NvsgStructError.
Proof. vm_compute. reflexivity. Qed.
